(** * goversion: the version-state resolution and switching engine

    A shallow embedding of [commands.go]: the version grammar [versionRE],
    the snapshot resolver [localVersions], the commands [use] and [remove]
    and the SDK probe [downloaded], together with the properties the
    specification states about them. *)

From Stdlib Require Import List String Ascii Bool Arith Lia.
From Stdlib Require Import Permutation Sorted.
Import ListNotations.

Set Implicit Arguments.

Local Open Scope string_scope.
Local Open Scope list_scope.

(* ================================================================= *)
(** ** Go strings *)

(** A Go string is a sequence of bytes; [word] is the same sequence as a
    list, which is what the scanning functions below recurse on. *)
Definition word := list ascii.

Definition bytes (s : string) : word := list_ascii_of_string s.
Definition str (w : word) : string := string_of_list_ascii w.

(** The line feed that ends the printed messages. *)
Definition LF : string := String (ascii_of_nat 10) EmptyString.

(** [strings.HasPrefix] on byte lists. *)
Fixpoint has_prefix (p w : word) : bool :=
  match p, w with
  | [], _ => true
  | a :: p', b :: w' => Ascii.eqb a b && has_prefix p' w'
  | _ :: _, [] => false
  end.

(** [strings.TrimPrefix(s, prefix)]: [s] without the leading [prefix],
    or [s] itself when it does not start with it. *)
Definition TrimPrefix (s prefix : string) : string :=
  let w := bytes s in
  let p := bytes prefix in
  if has_prefix p w then str (skipn (List.length p) w) else s.

(** [strings.Split(s, sep)] for a separator of one byte, which is what both
    call sites of the source pass (a blank, and [os.PathListSeparator]):
    [n] occurrences of the separator give [n + 1] fields. *)
Fixpoint split_on (sep : ascii) (w : word) : list word :=
  match w with
  | [] => [[]]
  | c :: w' =>
      if Ascii.eqb c sep then [] :: split_on sep w'
      else match split_on sep w' with
           | f :: fs => (c :: f) :: fs
           | [] => [[c]]
           end
  end.

Definition Split (s : string) (sep : ascii) : list string :=
  map str (split_on sep (bytes s)).

(** [strings.Join(elems, sep)]. *)
Fixpoint Join (elems : list string) (sep : string) : string :=
  match elems with
  | [] => ""
  | [e] => e
  | e :: es => (e ++ sep ++ Join es sep)%string
  end.

(** [filepath.Base] on a Unix path: trailing slashes are dropped, then
    everything up to the last slash; the empty path gives ["."] and a
    path of slashes only gives ["/"]. *)
Definition is_slash (c : ascii) : bool := Ascii.eqb c "/".

Fixpoint drop_while (f : ascii -> bool) (w : word) : word :=
  match w with
  | [] => []
  | c :: w' => if f c then drop_while f w' else w
  end.

Fixpoint take_while (f : ascii -> bool) (w : word) : word :=
  match w with
  | [] => []
  | c :: w' => if f c then c :: take_while f w' else []
  end.

Definition Base (path : string) : string :=
  match bytes path with
  | [] => "."
  | w =>
      let r := drop_while is_slash (rev w) in
      match rev (take_while (fun c => negb (is_slash c)) r) with
      | [] => "/"
      | last => str last
      end
  end.

(* ================================================================= *)
(** ** Regular expressions *)

(** The fragment of RE2 syntax that [versionRE] uses, with the two
    constants that derivatives need. *)
Inductive regex : Type :=
| Void                          (* matches nothing *)
| Eps                           (* matches the empty text *)
| Lit (c : ascii)               (* a literal byte: [1], [\.], [r] *)
| Range (lo hi : ascii)         (* a class [[lo-hi]] *)
| Cat (r1 r2 : regex)           (* [r1 r2] *)
| Alt (r1 r2 : regex)           (* [r1|r2] *)
| Opt (r : regex)               (* [r?] *)
| Star (r : regex)              (* [r*] *)
| Plus (r : regex).             (* [r+] *)

Definition in_range (lo hi c : ascii) : bool :=
  Nat.leb (nat_of_ascii lo) (nat_of_ascii c) && Nat.leb (nat_of_ascii c) (nat_of_ascii hi).

Fixpoint nullable (r : regex) : bool :=
  match r with
  | Void => false
  | Eps => true
  | Lit _ => false
  | Range _ _ => false
  | Cat r1 r2 => nullable r1 && nullable r2
  | Alt r1 r2 => nullable r1 || nullable r2
  | Opt _ => true
  | Star _ => true
  | Plus r1 => nullable r1
  end.

Fixpoint deriv (c : ascii) (r : regex) : regex :=
  match r with
  | Void => Void
  | Eps => Void
  | Lit a => if Ascii.eqb a c then Eps else Void
  | Range lo hi => if in_range lo hi c then Eps else Void
  | Cat r1 r2 =>
      if nullable r1 then Alt (Cat (deriv c r1) r2) (deriv c r2)
      else Cat (deriv c r1) r2
  | Alt r1 r2 => Alt (deriv c r1) (deriv c r2)
  | Opt r1 => deriv c r1
  | Star r1 => Cat (deriv c r1) (Star r1)
  | Plus r1 => Cat (deriv c r1) (Star r1)
  end.

Fixpoint matches (r : regex) (w : word) : bool :=
  match w with
  | [] => nullable r
  | c :: w' => matches (deriv c r) w'
  end.

(** A literal string, as in [rc] and [beta]. *)
Fixpoint lits (w : word) : regex :=
  match w with
  | [] => Eps
  | [c] => Lit c
  | c :: w' => Cat (Lit c) (lits w')
  end.

(** The pattern of [versionRE] between its anchors [^] and [$]: the byte
    [1], then twice an optional group of a dot and a number (a byte of
    [[1-9]] and any number of bytes of [[0-9]]), then an optional group of
    [rc] or [beta] and one or more bytes of [[1-9]]. *)
Definition dot_number : regex :=
  Cat (Lit ".") (Cat (Range "1" "9") (Star (Range "0" "9"))).

Definition versionRE : regex :=
  Cat (Lit "1")
   (Cat (Opt dot_number)
    (Cat (Opt dot_number)
         (Opt (Cat (Alt (lits (bytes "rc")) (lits (bytes "beta")))
                   (Plus (Range "1" "9")))))).

(** [versionRE.MatchString(s)].  The pattern starts with [^] and ends with
    [$], and carries no flag: in Go's regexp [^] is the beginning of the
    text and [$] its very end (never before a final line feed), so the
    search for a match anywhere in [s] is a match of all of [s]. *)
Definition MatchString (re : regex) (s : string) : bool := matches re (bytes s).

(* ----------------------------------------------------------------- *)
(** *** The language of a regular expression *)

(** Iteration, in the normal form where every piece is non-empty. *)
Inductive star (L : word -> Prop) : word -> Prop :=
| star_nil : star L []
| star_cons c w1 w2 : L (c :: w1) -> star L w2 -> star L (c :: w1 ++ w2).

Fixpoint lang (r : regex) : word -> Prop :=
  match r with
  | Void => fun _ => False
  | Eps => fun w => w = []
  | Lit c => fun w => w = [c]
  | Range lo hi => fun w => exists c, w = [c] /\ in_range lo hi c = true
  | Cat r1 r2 => fun w => exists w1 w2, w = w1 ++ w2 /\ lang r1 w1 /\ lang r2 w2
  | Alt r1 r2 => fun w => lang r1 w \/ lang r2 w
  | Opt r1 => fun w => w = [] \/ lang r1 w
  | Star r1 => star (lang r1)
  | Plus r1 => fun w => exists w1 w2, w = w1 ++ w2 /\ lang r1 w1 /\ star (lang r1) w2
  end.

(* ================================================================= *)
(** ** The version grammar *)

(** The grammar in the words of the specification:
    [1[.MINOR][.PATCH][(rc|beta)N]], where MINOR, PATCH and N are positive
    integers with no leading zero.  [shape] takes the numbers allowed after
    [rc] and [beta] as a parameter, so that the language of the source's
    pattern is an instance of it too. *)
Definition digits (w : word) : Prop := forallb (in_range "0" "9") w = true.

Definition posint (w : word) : Prop :=
  exists d ds, w = d :: ds /\ in_range "1" "9" d = true /\ digits ds.

Definition dot_part (w : word) : Prop :=
  exists n, w = "."%char :: n /\ posint n.

Definition pre_part (num : word -> Prop) (w : word) : Prop :=
  exists tag n, (tag = bytes "rc" \/ tag = bytes "beta") /\ w = tag ++ n /\ num n.

Definition optional (P : word -> Prop) (w : word) : Prop := w = [] \/ P w.

Definition shape (num : word -> Prop) (s : string) : Prop :=
  exists minor patch pre,
    bytes s = "1"%char :: minor ++ patch ++ pre /\
    optional dot_part minor /\ optional dot_part patch /\
    optional (pre_part num) pre.

Definition version_grammar : string -> Prop := shape posint.

(** What the pattern of the source allows after [rc] and [beta]: one or
    more digits, none of them a zero. *)
Definition nonzero_digits (w : word) : Prop :=
  w <> [] /\ forallb (in_range "1" "9") w = true.

(* ================================================================= *)
(** ** Errors and results *)

(** The errors the commands return or receive.  The first group are the
    errors of the file system and of process execution, the second the
    errors [commands.go] builds itself. *)
Inductive error : Type :=
| ErrNotExist                            (* fs.ErrNotExist, also when wrapped *)
| ErrExist                               (* fs.ErrExist *)
| ErrInvalid                             (* EINVAL, ENOTDIR *)
| ErrNotEmpty                            (* ENOTEMPTY *)
| ErrIO (msg : string)                   (* any other failure of a file system call *)
| ErrExec (msg : string)                 (* a process that did not start or exited non-zero *)
| usageError (msg : string)              (* usageError{errors.New(msg)} *)
| errMalformed (version : string)        (* malformed version %q *)
| errNotInstalled (version : string)     (* %s is not installed *)
| errUnableToRemove (version : string)   (* unable to remove %s (main) *)
| errUnexpectedFormat (output : string). (* unexpected format %q *)

(** [errors.Is(err, fs.ErrNotExist)]. *)
Definition is_not_exist (e : error) : bool :=
  match e with ErrNotExist => true | _ => false end.

(** A Go result pair [(value, err)]; a function that returns only [error]
    is a [result unit], its [nil] being [Ok tt]. *)
Inductive result (A : Type) : Type :=
| Ok (a : A)
| Err (e : error).
Arguments Err {A} e.

Definition is_ok A (r : result A) : bool :=
  match r with Ok _ => true | Err _ => false end.

(* ================================================================= *)
(** ** The calls a command makes *)

(** The two file systems a command receives, [gobin] and [sdk]: a value of
    [fsx] names the directory a call is made on. *)
Inductive fsx : Type := GoBin | SdkDir.

(** [fs.DirEntry] and [fs.FileInfo], as far as the source reads them. *)
Record DirEntry : Type := { Name : string; IsDir : bool }.
Record FileInfo : Type := { Size : nat; IsDirectory : bool }.

(** Everything [commands.go] asks of its surroundings: the environment of
    the process, the processes it starts, the methods of [fsx] (those of
    [fs.FS] through [fs.ReadDir] and [fs.Stat]), and the standard output. *)
Inductive call : Type -> Type :=
| Getenv (key : string) : call string
| Setenv (key value : string) : call unit
| Output (name : string) (args : list string) : call (result string)
| Run (name : string) (args : list string) : call (result unit)
| Readlink (d : fsx) (name : string) : call (result string)
| Symlink (d : fsx) (oldname newname : string) : call (result unit)
| Remove (d : fsx) (name : string) : call (result unit)
| RemoveAll (d : fsx) (path : string) : call (result unit)
| ReadDir (d : fsx) (name : string) : call (result (list DirEntry))
| Stat (d : fsx) (name : string) : call (result FileInfo)
| Print (text : string) : call unit.

(** A command is a tree of calls: each call is answered by the
    surroundings and the command goes on with the answer. *)
Inductive prog (A : Type) : Type :=
| Ret (a : A)
| Do (R : Type) (c : call R) (k : R -> prog A).
Arguments Ret {A} a.

Fixpoint bind A B (p : prog A) (f : A -> prog B) : prog B :=
  match p with
  | Ret a => f a
  | Do c k => Do c (fun r => bind (k r) f)
  end.

Definition perform R (c : call R) : prog R := Do c (@Ret R).

(** [try p f] is the idiom [x, err := p; if err != nil { return err }]. *)
Definition try A B (p : prog (result A)) (f : A -> prog (result B))
  : prog (result B) :=
  bind p (fun r => match r with Ok a => f a | Err e => Ret (Err e) end).

Declare Scope prog_scope.
Delimit Scope prog_scope with prog.
Notation "x <- p ;; q" := (bind p (fun x => q))
  (at level 61, p at next level, right associativity) : prog_scope.
Notation "p ;; q" := (bind p (fun _ => q))
  (at level 61, right associativity) : prog_scope.
Notation "x <-? p ;; q" := (try p (fun x => q))
  (at level 61, p at next level, right associativity) : prog_scope.
Local Open Scope prog_scope.

(** A call without the type of its answer, for traces. *)
Inductive op : Type := Op (R : Type) (c : call R).

(** The calls that change a file system or start an install or download
    step. *)
Definition mutates (o : op) : bool :=
  match o with
  | Op c =>
      match c with
      | Symlink _ _ _ | Remove _ _ | RemoveAll _ _ | Run _ _ => true
      | _ => false
      end
  end.

(** The surroundings answer a call in a state [W] and leave a new state. *)
Definition handler (W : Type) : Type := forall R, call R -> W -> R * W.

(** Running a command: its value, the final state and the calls made, in
    order. *)
Fixpoint run W A (h : handler W) (p : prog A) (w : W) : A * W * list op :=
  match p with
  | Ret a => (a, w, [])
  | Do c k =>
      let '(r, w1) := h _ c w in
      let '(a, w2, t) := run h (k r) w1 in
      (a, w2, Op c :: t)
  end.

(* ================================================================= *)
(** ** sort.Slice *)

(** [sort.Slice] sorts in place with the [less] it is given.  On a short
    slice (a dozen elements) the library runs insertion sort: for each
    index [i] from the second on, element [i] sinks towards the front
    while it is [less] than its left neighbour.  [sort_Slice] is that
    loop; the sorted front part is kept reversed while it grows.  On a
    longer slice the library's result is a sorted permutation as well,
    which is all that is proved of it below. *)
Fixpoint sink A (less : A -> A -> bool) (x : A) (front : list A) : list A :=
  match front with
  | [] => [x]
  | y :: ys => if less x y then y :: sink less x ys else x :: front
  end.

Definition sort_Slice A (less : A -> A -> bool) (l : list A) : list A :=
  rev (fold_left (fun front x => sink less x front) l []).

(** [sort.SliceIsSorted]: no element is less than the one before it. *)
Fixpoint SliceIsSorted A (less : A -> A -> bool) (l : list A) : bool :=
  match l with
  | [] => true
  | x :: l' =>
      match l' with
      | [] => true
      | y :: _ => negb (less y x) && SliceIsSorted less l'
      end
  end.

(* ================================================================= *)
(** ** commands.go *)

(** [printf] writes to the standard output. *)
Definition printf (text : string) : prog unit := perform (Print text).

(** [command] runs a process with the standard streams of the caller. *)
Definition command (name : string) (args : list string) : prog (result unit) :=
  perform (Run name args).

(** [cutFromPath] cuts the given value from a [$PATH]-like string. *)
Definition PathListSeparator : ascii := ":"%char.

Definition cutFromPath (path value : string) : string :=
  Join (filter (fun v => negb (String.eqb v value)) (Split path PathListSeparator))
       (String PathListSeparator "").

(** [downloaded] checks whether the SDK of the specified Go version has
    been downloaded: the answer is [err == nil] of [fs.Stat]. *)
Definition downloaded (version : string) (sdk : fsx) : prog bool :=
  r <- perform (Stat sdk ("go" ++ version ++ "/.unpacked-success")%string) ;;
  Ret (match r with Ok _ => true | Err _ => false end).

(** The snapshot [local]; its field [list] is [list_] here. *)
Record local : Type := { main : string; current : string; list_ : list string }.

Definition contains (l : local) (version : string) : bool :=
  existsb (fun v => String.eqb v version) (list_ l).

Section Commands.

(** [versionLess], the order [localVersions] sorts with, is declared in a
    file of the repository that is not part of the sources at hand. *)
Variable versionLess : string -> string -> bool.

(** The version an entry of the bin directory stands for, if any: the
    body of the loop of lines 257 to 265. *)
Definition version_of (entry : DirEntry) : list string :=
  if IsDir entry then []
  else
    let version := TrimPrefix (Name entry) "go" in
    if MatchString versionRE version then [version] else [].

(** The loop over the entries of the bin directory (lines 256 to 265). *)
Definition collect (main : string) (entries : list DirEntry) : list string :=
  fold_left (fun acc entry => acc ++ version_of entry) entries [main].

(** [localVersions] after the search path has been set (lines 228 to 275). *)
Definition resolve (gobin : fsx) : prog (result local) :=
  output <-? perform (Output "go" ["version"]) ;;
  let parts := Split output " " in
  if negb (Nat.eqb (List.length parts) 4)
  then Ret (Err (errUnexpectedFormat output))
  else
    let main := TrimPrefix (nth 2 parts "") "go" in
    r <- perform (Readlink gobin "go") ;;
    current <-? Ret (match r with
                     | Err e => if is_not_exist e then Ok main else Err e
                     | Ok target => Ok (TrimPrefix (Base target) "go")
                     end) ;;
    entries <-? perform (ReadDir gobin ".") ;;
    Ret (Ok {| main := main;
               current := current;
               list_ := sort_Slice versionLess (collect main entries) |}).

(** [localVersions] returns the list of installed Go versions.  The
    deferred [os.Setenv] runs on every way out of [resolve]. *)
Definition localVersions (gobin : fsx) : prog (result local) :=
  currPath <- perform (Getenv "PATH") ;;
  gobinDir <- perform (Getenv "GOBIN") ;;
  let tempPath := cutFromPath currPath gobinDir in
  perform (Setenv "PATH" tempPath) ;;
  r <- resolve gobin ;;
  perform (Setenv "PATH" currPath) ;;
  Ret r.

(** The middle of [use] (lines 58 to 78): the binary is installed if the
    snapshot does not list the version, and the SDK is downloaded if its
    sentinel is missing. *)
Definition fetch (local : local) (version : string) (sdk : fsx)
  : prog (result unit) :=
  initial <-? (if negb (contains local version)
               then
                 printf (version ++ " is not installed. Looking for it on go.dev ..." ++ LF)%string ;;
                 _ <-? command "go" ["install"; ("golang.org/dl/go" ++ version ++ "@latest")%string] ;;
                 Ret (Ok true)
               else Ret (Ok false)) ;;
  present <- downloaded version sdk ;;
  if negb present
  then
    (if negb initial
     then printf (version ++ " SDK is missing. Starting download ..." ++ LF)%string
     else Ret tt) ;;
    command ("go" ++ version)%string ["download"]
  else Ret (Ok tt).

(** The end of [use] (lines 80 to 89): the old link is removed, a missing
    one being fine, and the new link is created. *)
Definition relink (version : string) (gobin : fsx) : prog (result unit) :=
  r <- perform (Remove gobin "go") ;;
  _ <-? Ret (match r with
             | Err e => if negb (is_not_exist e) then Err e else Ok tt
             | Ok _ => Ok tt
             end) ;;
  _ <-? perform (Symlink gobin ("go" ++ version)%string "go") ;;
  printf ("Switched to " ++ version ++ LF)%string ;;
  Ret (Ok tt).

(** [use] once the snapshot is there (lines 36 to 89). *)
Definition use_with (local : local) (arg0 : string) (gobin sdk : fsx)
  : prog (result unit) :=
  let version := if String.eqb arg0 "main" then main local else arg0 in
  if negb (MatchString versionRE version)
  then Ret (Err (errMalformed version))
  else if String.eqb version (current local)
  then printf (version ++ " is already in use" ++ LF)%string ;; Ret (Ok tt)
  else if String.eqb version (main local)
  then
    _ <-? perform (Remove gobin "go") ;;
    printf ("Switched to " ++ version ++ " (main)" ++ LF)%string ;;
    Ret (Ok tt)
  else
    _ <-? fetch local version sdk ;;
    relink version gobin.

(** [use] switches the current Go version to the one specified. *)
Definition use (args : list string) (gobin sdk : fsx) : prog (result unit) :=
  match args with
  | [] => Ret (Err (usageError "no version has been specified"))
  | arg0 :: _ =>
      local <-? localVersions gobin ;;
      use_with local arg0 gobin sdk
  end.

(** [remove] once the snapshot is there (lines 159 to 191). *)
Definition remove_with (local : local) (arg0 : string) (gobin sdk : fsx)
  : prog (result unit) :=
  let version := if String.eqb arg0 "main" then main local else arg0 in
  if negb (MatchString versionRE version)
  then Ret (Err (errMalformed version))
  else if negb (contains local version)
  then Ret (Err (errNotInstalled version))
  else if String.eqb version (main local)
  then Ret (Err (errUnableToRemove version))
  else
    _ <-? (if String.eqb version (current local)
           then
             _ <-? perform (Remove gobin "go") ;;
             printf ("Switched to " ++ main local ++ " (main)" ++ LF)%string ;;
             Ret (Ok tt)
           else Ret (Ok tt)) ;;
    _ <-? perform (Remove gobin ("go" ++ version)%string) ;;
    _ <-? perform (RemoveAll sdk ("go" ++ version)%string) ;;
    printf ("Removed " ++ version ++ LF)%string ;;
    Ret (Ok tt).

(** [remove] removes the specified Go version, the binary and the SDK. *)
Definition remove (args : list string) (gobin sdk : fsx) : prog (result unit) :=
  match args with
  | [] => Ret (Err (usageError "no version has been specified"))
  | arg0 :: _ =>
      local <-? localVersions gobin ;;
      remove_with local arg0 gobin sdk
  end.

End Commands.

(* ================================================================= *)
(** ** An in-memory file system *)

(** Modelled from the spec: the implementation of the interface [fsx],
    which is not part of the sources at hand.  It follows the
    specification's Filesystem Abstraction (section 4.2) and its in-memory
    fake (section 9): a directory maps slash-separated relative paths to
    nodes; a link can be read, created and removed; removing a missing
    entry is the distinguishable error [ErrNotExist]; a recursive removal
    takes everything below a path; listing gives the immediate entries by
    name; and a path can be probed for existence. *)
Inductive node : Type :=
| File (content : word)
| Directory
| Link (target : string).

Definition memfs : Type := list (string * node).

Fixpoint lookup (name : string) (fs : memfs) : option node :=
  match fs with
  | [] => None
  | (n, x) :: fs' => if String.eqb n name then Some x else lookup name fs'
  end.

Definition delete (name : string) (fs : memfs) : memfs :=
  filter (fun e => negb (String.eqb (fst e) name)) fs.

(** [below dir name]: the path [name] lies inside the directory [dir]. *)
Definition below (dir name : string) : bool :=
  has_prefix (bytes (dir ++ "/")%string) (bytes name).

Definition is_dir (x : node) : bool :=
  match x with Directory => true | _ => false end.

Definition top_level (name : string) : bool :=
  negb (existsb is_slash (bytes name)).

Definition mem_Readlink (fs : memfs) (name : string) : result string :=
  match lookup name fs with
  | None => Err ErrNotExist
  | Some (Link target) => Ok target
  | Some _ => Err ErrInvalid
  end.

Definition mem_Symlink (fs : memfs) (oldname newname : string)
  : result unit * memfs :=
  match lookup newname fs with
  | Some _ => (Err ErrExist, fs)
  | None => (Ok tt, (newname, Link oldname) :: fs)
  end.

Definition mem_Remove (fs : memfs) (name : string) : result unit * memfs :=
  match lookup name fs with
  | None => (Err ErrNotExist, fs)
  | Some x =>
      if is_dir x && existsb (fun e => below name (fst e)) fs
      then (Err ErrNotEmpty, fs)
      else (Ok tt, delete name fs)
  end.

Definition mem_RemoveAll (fs : memfs) (path : string) : result unit * memfs :=
  (Ok tt,
   filter (fun e => negb (String.eqb (fst e) path || below path (fst e))) fs).

(** The immediate entries of the root, sorted by file name as [fs.ReadDir]
    returns them. *)
Definition entries_of (fs : memfs) : list DirEntry :=
  sort_Slice (fun a b => String.ltb (Name a) (Name b))
    (map (fun e => {| Name := fst e; IsDir := is_dir (snd e) |})
         (filter (fun e => top_level (fst e)) fs)).

Definition mem_ReadDir (fs : memfs) (name : string) : result (list DirEntry) :=
  if String.eqb name "." then Ok (entries_of fs)
  else
    match lookup name fs with
    | None => Err ErrNotExist
    | Some Directory =>
        Ok (entries_of
              (map (fun e => (str (skipn (S (String.length name)) (bytes (fst e))), snd e))
                   (filter (fun e => below name (fst e)) fs)))
    | Some _ => Err ErrInvalid
    end.

Definition mem_Stat (fs : memfs) (name : string) : result FileInfo :=
  match lookup name fs with
  | None => Err ErrNotExist
  | Some (File content) => Ok {| Size := List.length content; IsDirectory := false |}
  | Some Directory => Ok {| Size := 0; IsDirectory := true |}
  | Some (Link _) => Ok {| Size := 0; IsDirectory := false |}
  end.

(** The state a command runs in: the two directories, the environment of
    the process, what the main toolchain prints for [go version] (or the
    error of running it), the effect of the external install and download
    steps on the two directories, the calls that fail for a reason of
    their own (a full disk, a permission, a broken device), and what has
    been printed. *)
Record world : Type := {
  bin : memfs;
  sdk : memfs;
  environ : list (string * string);
  go_version : result string;
  external : string -> list string -> memfs * memfs -> result unit * (memfs * memfs);
  fault : op -> option string;
  stdout : list string
}.

Definition dir_of (w : world) (d : fsx) : memfs :=
  match d with GoBin => bin w | SdkDir => sdk w end.

Definition set_dir (w : world) (d : fsx) (fs : memfs) : world :=
  match d with
  | GoBin => {| bin := fs; sdk := sdk w; environ := environ w;
                go_version := go_version w; external := external w;
                fault := fault w; stdout := stdout w |}
  | SdkDir => {| bin := bin w; sdk := fs; environ := environ w;
                 go_version := go_version w; external := external w;
                 fault := fault w; stdout := stdout w |}
  end.

Definition set_dirs (w : world) (fs : memfs * memfs) : world :=
  {| bin := fst fs; sdk := snd fs; environ := environ w;
     go_version := go_version w; external := external w;
     fault := fault w; stdout := stdout w |}.

Definition set_environ (w : world) (e : list (string * string)) : world :=
  {| bin := bin w; sdk := sdk w; environ := e;
     go_version := go_version w; external := external w;
     fault := fault w; stdout := stdout w |}.

Definition set_stdout (w : world) (o : list string) : world :=
  {| bin := bin w; sdk := sdk w; environ := environ w;
     go_version := go_version w; external := external w;
     fault := fault w; stdout := o |}.

Fixpoint getenv (key : string) (e : list (string * string)) : string :=
  match e with
  | [] => ""
  | (k, v) :: e' => if String.eqb k key then v else getenv key e'
  end.

(** A call that fails for a reason of its own changes nothing. *)
Definition guarded A (w : world) (o : op) (normal : result A * world)
  : result A * world :=
  match fault w o with
  | Some msg => (Err (ErrIO msg), w)
  | None => normal
  end.

Definition mem_handler : handler world :=
  fun R (c : call R) (w : world) =>
    match c in call T return T * world with
    | Getenv key => (getenv key (environ w), w)
    | Setenv key value => (tt, set_environ w ((key, value) :: environ w))
    | Output name args =>
        guarded w (Op (Output name args))
          (match args with
           | [sub] =>
               if String.eqb name "go" && String.eqb sub "version"
               then go_version w
               else Err (ErrExec name)
           | _ => Err (ErrExec name)
           end, w)
    | Run name args =>
        guarded w (Op (Run name args))
          (let '(r, fs) := external w name args (bin w, sdk w) in
           (r, set_dirs w fs))
    | Readlink d name =>
        guarded w (Op (Readlink d name)) (mem_Readlink (dir_of w d) name, w)
    | Symlink d oldname newname =>
        guarded w (Op (Symlink d oldname newname))
          (let '(r, fs) := mem_Symlink (dir_of w d) oldname newname in
           (r, set_dir w d fs))
    | Remove d name =>
        guarded w (Op (Remove d name))
          (let '(r, fs) := mem_Remove (dir_of w d) name in (r, set_dir w d fs))
    | RemoveAll d path =>
        guarded w (Op (RemoveAll d path))
          (let '(r, fs) := mem_RemoveAll (dir_of w d) path in (r, set_dir w d fs))
    | ReadDir d name =>
        guarded w (Op (ReadDir d name)) (mem_ReadDir (dir_of w d) name, w)
    | Stat d name =>
        guarded w (Op (Stat d name)) (mem_Stat (dir_of w d) name, w)
    | Print text => (tt, set_stdout w (stdout w ++ [text]))
    end.

(** The external steps of the specification's section 6: installing
    [go<version>] puts its binary into the bin directory, and the
    binary's [download] unpacks the SDK and leaves the sentinel file. *)
Definition dl_steps (name : string) (args : list string) (fs : memfs * memfs)
  : result unit * (memfs * memfs) :=
  match args with
  | [sub; url] =>
      if String.eqb name "go" && String.eqb sub "install" then
        let binary := str (take_while (fun c => negb (Ascii.eqb c "@"))
                             (bytes (TrimPrefix url "golang.org/dl/"))) in
        (Ok tt, ((binary, File []) :: delete binary (fst fs), snd fs))
      else (Err (ErrExec name), fs)
  | [sub] =>
      if String.eqb sub "download" then
        match lookup name (fst fs) with
        | Some (File _) =>
            (Ok tt, (fst fs,
                     (name, Directory)
                       :: ((name ++ "/.unpacked-success")%string, File [])
                       :: delete name (delete (name ++ "/.unpacked-success")%string (snd fs))))
        | _ => (Err (ErrExec name), fs)
        end
      else (Err (ErrExec name), fs)
  | _ => (Err (ErrExec name), fs)
  end.

Definition no_fault : op -> option string := fun _ => None.

(* ================================================================= *)
(** ** The version order *)

(** Modelled from the spec: [versionLess], which is not part of the
    sources at hand.  Section 4.1: releases are compared numerically
    component by component (major, minor, patch); a pre-release suffix
    sorts strictly before the final release of the same numeric triple;
    suffixes are compared lexicographically after the numbers.  A version
    is read into a key, three numbers and then [1] for a final release or
    [0] and the bytes of the suffix, and keys are compared
    lexicographically.  Nothing is validated: a missing component is [0]. *)
Definition digit_value (c : ascii) : option nat :=
  if in_range "0" "9" c then Some (nat_of_ascii c - 48) else None.

(** The number a word starts with, and the rest of the word. *)
Fixpoint read_number (acc : nat) (w : word) : nat * word :=
  match w with
  | [] => (acc, [])
  | c :: w' =>
      match digit_value c with
      | Some d => read_number (10 * acc + d) w'
      | None => (acc, w)
      end
  end.

Definition skip_dot (w : word) : word :=
  match w with
  | c :: w' => if Ascii.eqb c "." then w' else w
  | [] => []
  end.

Definition version_key (v : string) : list nat :=
  let '(major, w1) := read_number 0 (bytes v) in
  let '(minor, w2) := read_number 0 (skip_dot w1) in
  let '(patch, w3) := read_number 0 (skip_dot w2) in
  major :: minor :: patch ::
    match w3 with
    | [] => [1]
    | _ => 0 :: map nat_of_ascii w3
    end.

Fixpoint lex_ltb (a b : list nat) : bool :=
  match a, b with
  | [], [] => false
  | [], _ :: _ => true
  | _ :: _, [] => false
  | x :: a', y :: b' =>
      if Nat.ltb x y then true
      else if Nat.ltb y x then false
      else lex_ltb a' b'
  end.

Definition versionLess (x y : string) : bool :=
  lex_ltb (version_key x) (version_key y).

(* ================================================================= *)
(** ** Notions the properties are stated with *)

(** A strict weak order, as [sort.Slice] asks of its [less]. *)
Definition asymmetric A (less : A -> A -> bool) : Prop :=
  forall a b, less a b = true -> less b a = false.

Definition negatively_transitive A (less : A -> A -> bool) : Prop :=
  forall a b c, less a b = false -> less b c = false -> less a c = false.

(** Ascending: no element is less than one before it. *)
Definition ascending A (less : A -> A -> bool) (l : list A) : Prop :=
  StronglySorted (fun a b => less b a = false) l.

(** The versions of the release binaries a directory holds. *)
Definition installed (fs : memfs) : list string :=
  flat_map version_of (entries_of fs).

(** The bytes a pattern can match at all. *)
Fixpoint mentions (r : regex) (c : ascii) : bool :=
  match r with
  | Void | Eps => false
  | Lit a => Ascii.eqb a c
  | Range lo hi => in_range lo hi c
  | Cat r1 r2 | Alt r1 r2 => mentions r1 c || mentions r2 c
  | Opt r1 | Star r1 | Plus r1 => mentions r1 c
  end.

(** The answer, the final state and the trace of a run. *)
Definition answer W A (x : A * W * list op) : A := fst (fst x).
Definition final W A (x : A * W * list op) : W := snd (fst x).
Definition trace W A (x : A * W * list op) : list op := snd x.

(** The scenario of the specification's section 8: the bin directory
    holds [go1.20] and [go1.21], the toolchain reports [go1.21], and there
    is no link [go]. *)
Definition scenario : world :=
  {| bin := [("go1.20", File []); ("go1.21", File [])];
     sdk := [];
     environ := [("PATH", "/usr/local/go/bin:/home/gopher/go/bin:/usr/bin");
                 ("GOBIN", "/home/gopher/go/bin")];
     go_version := Ok ("go version go1.21 linux/amd64" ++ LF)%string;
     external := dl_steps;
     fault := no_fault;
     stdout := [] |}.

(** The three calls [localVersions] makes on its surroundings to build
    the snapshot. *)
Definition snapshot_calls (d : fsx) : list op :=
  [Op (Output "go" ["version"]); Op (Readlink d "go"); Op (ReadDir d ".")].

(** [main] as [localVersions] reads it from the output of [go version]. *)
Definition main_of (output : string) : string :=
  TrimPrefix (nth 2 (Split output " ") "") "go".

(** What the link [go] of a directory says about the current version. *)
Definition link_state (fs : memfs) (main current : string) : Prop :=
  match lookup "go" fs with
  | None => current = main
  | Some (Link target) => current = TrimPrefix (Base target) "go"
  | Some _ => False
  end.

(** [snapshot_of less d w l]: in the state [w], [l] is the snapshot that
    [localVersions] builds from the directory [d]. *)
Definition snapshot_of (less : string -> string -> bool) (d : fsx) (w : world)
           (l : local) : Prop :=
  (exists output,
      go_version w = Ok output /\
      List.length (Split output " ") = 4 /\
      main l = main_of output) /\
  (forall o, In o (snapshot_calls d) -> fault w o = None) /\
  link_state (dir_of w d) (main l) (current l) /\
  list_ l = sort_Slice less (collect (main l) (entries_of (dir_of w d))).

(** The state [localVersions] leaves: the environment has seen the search
    path set and restored, and nothing else has changed. *)
Definition path_restored (w : world) : world :=
  let currPath := getenv "PATH" (environ w) in
  let gobinDir := getenv "GOBIN" (environ w) in
  set_environ w
    (("PATH", currPath) :: ("PATH", cutFromPath currPath gobinDir) :: environ w).

(** The version a command works on: its argument, or the main version
    for the alias [main]. *)
Definition resolved (l : local) (arg0 : string) : string :=
  if String.eqb arg0 "main" then main l else arg0.

(** The calls that create a link. *)
Definition creates_link (o : op) : bool :=
  match o with
  | Op c => match c with Symlink _ _ _ => true | _ => false end
  end.

(** Surroundings with the race of the specification's section 5: another
    process takes an entry away just before the command's own [Remove]
    reaches it. *)
Definition raced : handler world :=
  fun R (c : call R) (w : world) =>
    match c in call T return call T -> T * world with
    | Remove d name =>
        fun c' => mem_handler c' (set_dir w d (delete name (dir_of w d)))
    | _ => fun c' => mem_handler c' w
    end c.

(** States for the examples.  [switched]: [go1.20] is installed with its
    SDK and is the current version, [go1.21] is the main one. *)
Definition with_bin (w : world) (fs : memfs) : world := set_dir w GoBin fs.

Definition switched : world :=
  {| bin := [("go", Link "go1.20"); ("go1.20", File [])];
     sdk := [("go1.20", Directory); ("go1.20/.unpacked-success", File [])];
     environ := environ scenario;
     go_version := go_version scenario;
     external := dl_steps;
     fault := no_fault;
     stdout := [] |}.

(** [installed_1_20]: as [switched], but the main version is in use. *)
Definition installed_1_20 : world := with_bin switched [("go1.20", File [])].

(** [dangling]: the link [go] points at [go1.19], whose binary is gone. *)
Definition dangling : world :=
  with_bin switched [("go", Link "go1.19"); ("go1.20", File [])].

(** [modern]: the main toolchain is a release of the [go1.21.0] naming. *)
Definition modern : world :=
  {| bin := bin installed_1_20;
     sdk := sdk installed_1_20;
     environ := environ scenario;
     go_version := Ok ("go version go1.21.0 linux/amd64" ++ LF)%string;
     external := dl_steps;
     fault := no_fault;
     stdout := [] |}.

(** [full_disk]: as [switched] with [go1.19] installed too, on a disk on
    which no link can be created any more. *)
Definition full_disk : world :=
  {| bin := [("go", Link "go1.20"); ("go1.19", File []); ("go1.20", File [])];
     sdk := [("go1.19", Directory); ("go1.19/.unpacked-success", File []);
             ("go1.20", Directory); ("go1.20/.unpacked-success", File [])];
     environ := environ scenario;
     go_version := go_version scenario;
     external := dl_steps;
     fault := fun o => if creates_link o then Some "no space left on device" else None;
     stdout := [] |}.

(* ================================================================= *)
(** ** list *)

Section Listing.

Variable versionLess : string -> string -> bool.

(** [utf8.RuneCountInString], by which [fmt] measures the width of what
    it pads; it is a function of the library. *)
Variable RuneCountInString : string -> nat.

Fixpoint blanks (n : nat) : string :=
  match n with
  | O => ""
  | S n' => String " " (blanks n')
  end.

(** The verb [%-10s]: the string, then blanks up to a width of ten. *)
Definition pad10 (s : string) : string :=
  (s ++ blanks (10 - RuneCountInString s))%string.

(** [strings.HasPrefix]. *)
Definition HasPrefix (s prefix : string) : bool :=
  has_prefix (bytes prefix) (bytes s).

(** The [switch] of lines 126 to 134: the first case that holds gives the
    annotation, and [downloaded] is asked only when the two cases before
    it fail. *)
Definition annotation (local : local) (version : string) (sdk : fsx)
  : prog string :=
  if String.eqb version (main local) then Ret " (main)"
  else if negb (contains local version) then Ret " (not installed)"
  else
    present <- downloaded version sdk ;;
    Ret (if negb present then " (missing SDK)" else "").

(** The body of the loop for a version that has the prefix (lines 126 to
    141). *)
Definition list_line (local : local) (version : string) (sdk : fsx)
  : prog unit :=
  extra <- annotation local version sdk ;;
  let prefix := if String.eqb version (current local) then "*" else " " in
  printf (prefix ++ " " ++ pad10 version ++ extra ++ LF)%string.

(** The loop of lines 121 to 142. *)
Fixpoint list_loop (local : local) (versions : list string) (only : string)
         (sdk : fsx) : prog unit :=
  match versions with
  | [] => Ret tt
  | version :: rest =>
      (if negb (HasPrefix version only) then Ret tt
       else list_line local version sdk) ;;
      list_loop local rest only sdk
  end.

(** [list] from line 109 on, for the flags that package [flag] has parsed
    from the arguments and without [-all]: the versions printed are
    those of the snapshot.  With [-all] they are those of go.dev, and
    the loop is [list_loop] on them. *)
Definition list_local (only : string) (gobin sdk : fsx) : prog (result unit) :=
  local <-? localVersions versionLess gobin ;;
  list_loop local (list_ local) only sdk ;;
  Ret (Ok tt).

End Listing.

(** The calls that print. *)
Definition prints (o : op) : bool :=
  match o with
  | Op c => match c with Print _ => true | _ => false end
  end.

(** The calls that change the bin or the sdk directory itself. *)
Definition touches (o : op) : bool :=
  match o with
  | Op c =>
      match c with
      | Symlink _ _ _ | Remove _ _ | RemoveAll _ _ => true
      | _ => false
      end
  end.

Definition fsx_eqb (a b : fsx) : bool :=
  match a, b with
  | GoBin, GoBin | SdkDir, SdkDir => true
  | _, _ => false
  end.

(** The only changes [use] may make to a directory: the link [go] of the
    bin directory is removed or created. *)
Definition relinks (gobin : fsx) (o : op) : bool :=
  match o with
  | Op c =>
      match c with
      | Remove d name => fsx_eqb d gobin && String.eqb name "go"
      | Symlink d _ newname => fsx_eqb d gobin && String.eqb newname "go"
      | RemoveAll _ _ => false
      | _ => true
      end
  end.

(** The number of blanks of a string. *)
Definition count_blanks (s : string) : nat :=
  List.length (filter (fun c => Ascii.eqb c " ") (bytes s)).

(** The line [list] prints for a version, read off the in-memory state. *)
Definition mem_line (RuneCountInString : string -> nat) (l : local) (w : world)
           (version : string) : string :=
  let extra :=
    if String.eqb version (main l) then " (main)"
    else if negb (contains l version) then " (not installed)"
    else
      match fault w (Op (Stat SdkDir ("go" ++ version ++ "/.unpacked-success")%string)),
            lookup ("go" ++ version ++ "/.unpacked-success")%string (sdk w) with
      | None, Some _ => ""
      | _, _ => " (missing SDK)"
      end in
  ((if String.eqb version (current l) then "*" else " ")
     ++ " " ++ pad10 RuneCountInString version ++ extra ++ LF)%string.

(** The calls that remove a tree. *)
Definition removes_all (o : op) : bool :=
  match o with
  | Op c => match c with RemoveAll _ _ => true | _ => false end
  end.

(** The bytes a version may consist of. *)
Definition version_byte (c : ascii) : bool :=
  in_range "0" "9" c || existsb (Ascii.eqb c) (bytes ".rcbeta").

(** [offline]: as [installed_1_20], with no process that can be started
    but [go version]. *)
Definition offline : world :=
  {| bin := bin installed_1_20;
     sdk := sdk installed_1_20;
     environ := environ scenario;
     go_version := go_version scenario;
     external := dl_steps;
     fault := fun o => match o with
                       | Op c => match c with
                                 | Run _ _ => Some "network is unreachable"
                                 | _ => None
                                 end
                       end;
     stdout := [] |}.

(** [sdk_locked]: as [switched], with an SDK directory that cannot be
    removed. *)
Definition sdk_locked : world :=
  {| bin := bin switched;
     sdk := sdk switched;
     environ := environ scenario;
     go_version := go_version scenario;
     external := dl_steps;
     fault := fun o => if removes_all o then Some "permission denied" else None;
     stdout := [] |}.

(* ================================================================= *)
(** * Properties *)

Unset Implicit Arguments.

(* ================================================================= *)
(** ** The matcher decides the language of its pattern *)

Lemma nullable_lang (r : regex) : nullable r = true <-> lang r [].
Proof.
  induction r; simpl.
  - split; [discriminate | tauto].
  - tauto.
  - split; discriminate.
  - split; [discriminate | intros (c & H & _); discriminate].
  - rewrite andb_true_iff, IHr1, IHr2. split.
    + intros [H1 H2]. exists [], []. auto.
    + intros (w1 & w2 & E & H1 & H2). symmetry in E.
      apply app_eq_nil in E. destruct E; subst. auto.
  - rewrite orb_true_iff, IHr1, IHr2. tauto.
  - tauto.
  - split; [constructor | reflexivity].
  - rewrite IHr. split.
    + intros H. exists [], []. repeat split; [assumption | constructor].
    + intros (w1 & w2 & E & H1 & _). symmetry in E.
      apply app_eq_nil in E. destruct E; subst. assumption.
Qed.

Lemma star_step (L : word -> Prop) (c : ascii) (w : word) :
  star L (c :: w) <-> exists w1 w2, w = w1 ++ w2 /\ L (c :: w1) /\ star L w2.
Proof.
  split.
  - intros H. inversion H; subst. eauto.
  - intros (w1 & w2 & -> & H1 & H2). now constructor.
Qed.

Lemma deriv_lang (r : regex) :
  forall x w, lang (deriv x r) w <-> lang r (x :: w).
Proof.
  induction r; intros x w; simpl.
  - tauto.
  - split; [tauto | discriminate].
  - destruct (Ascii.eqb c x) eqn:E; simpl.
    + apply Ascii.eqb_eq in E. subst. split; [now intros -> | congruence].
    + apply Ascii.eqb_neq in E. split; [tauto | congruence].
  - destruct (in_range lo hi x) eqn:E; simpl.
    + split; [intros ->; eauto | intros (c' & H & _); congruence].
    + split; [tauto | intros (c' & H & H'); congruence].
  - assert (Hcat : (exists w1 w2, w = w1 ++ w2 /\ lang (deriv x r1) w1 /\ lang r2 w2)
                   -> exists u v, x :: w = u ++ v /\ lang r1 u /\ lang r2 v).
    { intros (w1 & w2 & -> & H1 & H2). exists (x :: w1), w2.
      rewrite <- IHr1. auto. }
    destruct (nullable r1) eqn:N; simpl.
    + split.
      * intros [H | H]; [auto |].
        exists [], (x :: w). rewrite <- IHr2, <- nullable_lang. auto.
      * intros (u & v & E & H1 & H2). destruct u as [| a u]; simpl in E.
        -- right. subst v. now apply IHr2.
        -- left. injection E as <- ->. exists u, v. rewrite IHr1. auto.
    + split; [exact Hcat |].
      intros (u & v & E & H1 & H2). destruct u as [| a u]; simpl in E.
      * apply nullable_lang in H1. congruence.
      * injection E as <- ->. exists u, v. rewrite IHr1. auto.
  - rewrite IHr1, IHr2. tauto.
  - rewrite IHr. split; [tauto | intros [H | H]; [discriminate | assumption]].
  - rewrite star_step. split.
    + intros (w1 & w2 & -> & H1 & H2). exists w1, w2. rewrite <- IHr. auto.
    + intros (w1 & w2 & -> & H1 & H2). exists w1, w2. rewrite IHr. auto.
  - split.
    + intros (w1 & w2 & -> & H1 & H2). exists (x :: w1), w2.
      rewrite <- IHr. auto.
    + intros (u & v & E & H1 & H2). destruct u as [| a u]; simpl in E.
      * subst v. apply star_step in H2. destruct H2 as (w1 & w2 & -> & H3 & H4).
        exists w1, w2. rewrite IHr. auto.
      * injection E as <- ->. exists u, v. rewrite IHr. auto.
Qed.

Lemma matches_lang (w : word) : forall r, matches r w = true <-> lang r w.
Proof.
  induction w as [| c w IH]; intros r; simpl.
  - apply nullable_lang.
  - rewrite IH. apply deriv_lang.
Qed.

Lemma lits_lang (l w : word) : lang (lits l) w <-> w = l.
Proof.
  revert w. induction l as [| c l IH]; intros w; [simpl; tauto |].
  destruct l as [| c' l]; [simpl; tauto |].
  change (lits (c :: c' :: l)) with (Cat (Lit c) (lits (c' :: l))).
  simpl lang. split.
  - intros (w1 & w2 & -> & -> & H). apply IH in H. now subst.
  - intros ->. exists [c], (c' :: l). rewrite IH. auto.
Qed.

Lemma star_range (lo hi : ascii) (w : word) :
  star (lang (Range lo hi)) w <-> forallb (in_range lo hi) w = true.
Proof.
  split.
  - induction 1 as [| c w1 w2 (c' & E & R) _ IH]; [reflexivity |].
    injection E as -> ->. simpl. now rewrite R, IH.
  - induction w as [| c w IH]; simpl; [constructor |].
    rewrite andb_true_iff. intros [R H].
    apply (@star_cons (lang (Range lo hi)) c [] w); [simpl; eauto | auto].
Qed.

Lemma plus_range (lo hi : ascii) (w : word) :
  lang (Plus (Range lo hi)) w <-> w <> [] /\ forallb (in_range lo hi) w = true.
Proof.
  change (lang (Plus (Range lo hi)) w)
    with (exists w1 w2, w = w1 ++ w2 /\ lang (Range lo hi) w1
                        /\ star (lang (Range lo hi)) w2).
  split.
  - intros (w1 & w2 & -> & (c & -> & R) & H). apply star_range in H.
    split; [discriminate | simpl; now rewrite R, H].
  - intros [N H]. destruct w as [| c w]; [congruence |].
    simpl in H. apply andb_true_iff in H. destruct H as [R H].
    exists [c], w. rewrite star_range. simpl. eauto.
Qed.

Lemma dot_number_lang (w : word) : lang dot_number w <-> dot_part w.
Proof.
  unfold dot_number, dot_part, posint, digits. simpl. split.
  - intros (w1 & w2 & -> & -> & w3 & w4 & -> & (d & -> & R) & H).
    apply star_range in H. exists (d :: w4). split; [reflexivity | eauto].
  - intros (n & -> & d & ds & -> & R & H).
    exists ["."%char], (d :: ds).
    split; [reflexivity | split; [reflexivity |]].
    exists [d], ds.
    split; [reflexivity | split; [eauto | now apply star_range]].
Qed.

Lemma pre_release_lang (w : word) :
  lang (Cat (Alt (lits (bytes "rc")) (lits (bytes "beta"))) (Plus (Range "1" "9"))) w
  <-> pre_part nonzero_digits w.
Proof.
  unfold pre_part, nonzero_digits.
  change (lang (Cat ?a ?b) w)
    with (exists w1 w2, w = w1 ++ w2 /\ lang a w1 /\ lang b w2).
  split.
  - intros (w1 & w2 & -> & H1 & H2). apply plus_range in H2.
    exists w1, w2. repeat split; try tauto.
    destruct H1 as [H1 | H1]; apply lits_lang in H1; auto.
  - intros (tag & n & Ht & -> & Hn). exists tag, n. rewrite plus_range.
    repeat split; try tauto.
    destruct Ht as [-> | ->]; [left | right]; now apply lits_lang.
Qed.

Lemma optional_lang (r : regex) (P : word -> Prop) :
  (forall w, lang r w <-> P w) -> forall w, lang (Opt r) w <-> optional P w.
Proof. intros H w. unfold optional. simpl. rewrite H. tauto. Qed.

(** The strings [versionRE] matches are exactly those of the shape
    [1[.MINOR][.PATCH][(rc|beta)N]] in which [N] has no zero digit. *)
Theorem versionRE_language (s : string) :
  MatchString versionRE s = true <-> shape nonzero_digits s.
Proof.
  unfold MatchString, shape. rewrite matches_lang. unfold versionRE.
  set (pre := Cat _ (Plus _)).
  change (lang (Cat (Lit "1") (Cat (Opt dot_number) (Cat (Opt dot_number) (Opt pre)))) (bytes s))
    with (exists w1 w2, bytes s = w1 ++ w2 /\ w1 = ["1"%char] /\
          exists w3 w4, w2 = w3 ++ w4 /\ lang (Opt dot_number) w3 /\
          exists w5 w6, w4 = w5 ++ w6 /\ lang (Opt dot_number) w5 /\ lang (Opt pre) w6).
  split.
  - intros (w1 & w2 & E & -> & w3 & w4 & -> & H3 & w5 & w6 & -> & H5 & H6).
    exists w3, w5, w6. split; [exact E |].
    apply (@optional_lang _ _ dot_number_lang) in H3, H5.
    apply (@optional_lang _ _ pre_release_lang) in H6. auto.
  - intros (minor & patch & p & E & H3 & H5 & H6).
    apply (@optional_lang _ _ dot_number_lang) in H3, H5.
    apply (@optional_lang _ _ pre_release_lang) in H6.
    exists ["1"%char], (minor ++ patch ++ p). repeat split; [exact E |].
    exists minor, (patch ++ p). repeat split; [exact H3 |].
    exists patch, p. auto.
Qed.

Lemma nonzero_digits_posint (w : word) : nonzero_digits w -> posint w.
Proof.
  intros [N H]. destruct w as [| d ds]; [congruence |].
  simpl in H. apply andb_true_iff in H. destruct H as [R H].
  exists d, ds. repeat split; [exact R |].
  unfold digits. rewrite forallb_forall in *. intros c Hc.
  specialize (H c Hc). unfold in_range in *.
  apply andb_true_iff in H. destruct H as [H1 H2].
  apply Nat.leb_le in H1. apply Nat.leb_le in H2.
  apply andb_true_iff. split; apply Nat.leb_le; [| exact H2].
  change (nat_of_ascii "0") with 48. change (nat_of_ascii "1") with 49 in H1. lia.
Qed.

Lemma shape_mono (P Q : word -> Prop) (s : string) :
  (forall w, P w -> Q w) -> shape P s -> shape Q s.
Proof.
  intros PQ (minor & patch & p & E & H1 & H2 & H3).
  exists minor, patch, p. repeat split; auto.
  destruct H3 as [-> | (tag & n & Ht & -> & Hn)]; [now left | right].
  exists tag, n. auto.
Qed.

(** Whatever [versionRE] accepts is a version of the grammar, so a string
    outside the grammar is rejected. *)
Theorem versionRE_sound (s : string) :
  MatchString versionRE s = true -> version_grammar s.
Proof.
  intros H. apply versionRE_language in H.
  exact (@shape_mono _ _ s nonzero_digits_posint H).
Qed.

(** The examples of the specification, and strings outside the grammar. *)
Example versionRE_accepts :
  map (MatchString versionRE) ["1.21"; "1.21.3"; "1.22rc1"; "1"; "1.2.3beta19"]
  = [true; true; true; true; true].
Proof. reflexivity. Qed.

Example versionRE_rejects :
  map (MatchString versionRE) [""; "1."; "1.01"; "01"; "1.21x"; "1.21.0"; "2.1"; "main"]
  = [false; false; false; false; false; false; false; false].
Proof. reflexivity. Qed.

(** C1.  The pattern [versionRE] does not accept every string of the
    grammar [1[.MINOR][.PATCH][(rc|beta)N]]: ["1.22rc10"] is a version of
    the grammar, its [N] being the positive integer [10] with no leading
    zero, and [versionRE] rejects it, because the pattern allows only the
    digits [1] to [9] after [rc] and [beta]. *)
Theorem versionRE_rejects_rc10 :
  version_grammar "1.22rc10" /\ MatchString versionRE "1.22rc10" = false.
Proof.
  split; [| reflexivity].
  exists (bytes ".22"), [], (bytes "rc10"). repeat split.
  - right. exists (bytes "22"). split; [reflexivity |].
    exists "2"%char, (bytes "2"). repeat split.
  - now left.
  - right. exists (bytes "rc"), (bytes "10"). repeat split; [now left |].
    exists "1"%char, (bytes "0"). repeat split.
Qed.

(* ================================================================= *)
(** ** Strings *)

Lemma bytes_str (w : word) : bytes (str w) = w.
Proof. apply list_ascii_of_string_of_list_ascii. Qed.

Lemma str_bytes (s : string) : str (bytes s) = s.
Proof. apply string_of_list_ascii_of_string. Qed.

Lemma bytes_append (s t : string) : bytes (s ++ t)%string = bytes s ++ bytes t.
Proof. induction s as [| c s IH]; simpl; [reflexivity | now rewrite IH]. Qed.

Lemma has_prefix_app (p w : word) : has_prefix p (p ++ w) = true.
Proof.
  induction p as [| c p IH]; simpl; [reflexivity |].
  now rewrite Ascii.eqb_refl, IH.
Qed.

Lemma skipn_prefix (p w : word) : skipn (List.length p) (p ++ w) = w.
Proof. induction p as [| c p IH]; simpl; auto. Qed.

Lemma TrimPrefix_append (p s : string) : TrimPrefix (p ++ s) p = s.
Proof.
  unfold TrimPrefix. rewrite bytes_append, has_prefix_app, skipn_prefix.
  apply str_bytes.
Qed.

(** A matched text consists of bytes the pattern mentions. *)
Lemma lang_mentions (r : regex) :
  forall w, lang r w -> forall x, In x w -> mentions r x = true.
Proof.
  induction r; simpl; intros w H x Hx.
  - contradiction.
  - subst. contradiction.
  - subst. destruct Hx as [<- | []]. apply Ascii.eqb_refl.
  - destruct H as (y & -> & R). destruct Hx as [<- | []]. exact R.
  - destruct H as (w1 & w2 & -> & H1 & H2). apply orb_true_iff.
    apply in_app_or in Hx. destruct Hx; [left | right]; eauto.
  - apply orb_true_iff. destruct H; [left | right]; eauto.
  - destruct H as [-> | H]; [contradiction | eauto].
  - induction H as [| y w1 w2 H1 _ IH]; [contradiction |].
    change (y :: w1 ++ w2) with ((y :: w1) ++ w2) in Hx.
    apply in_app_or in Hx. destruct Hx; eauto.
  - destruct H as (w1 & w2 & -> & H1 & H2).
    apply in_app_or in Hx. destruct Hx as [Hx | Hx]; [eauto |].
    induction H2 as [| y u v Hu _ IH]; [contradiction |].
    change (y :: u ++ v) with ((y :: u) ++ v) in Hx.
    apply in_app_or in Hx. destruct Hx; eauto.
Qed.

(** A version that passes the grammar holds no slash and starts with [1]. *)
Lemma valid_no_slash (v : string) :
  MatchString versionRE v = true -> existsb is_slash (bytes v) = false.
Proof.
  intros H. apply matches_lang in H.
  destruct (existsb is_slash (bytes v)) eqn:E; [| reflexivity].
  apply existsb_exists in E. destruct E as (x & Hx & S).
  apply Ascii.eqb_eq in S. subst x.
  apply (lang_mentions _ _ H) in Hx. discriminate.
Qed.

Lemma valid_starts_with_1 (v : string) :
  MatchString versionRE v = true -> exists rest, v = String "1" rest.
Proof.
  intros H. apply versionRE_language in H.
  destruct H as (minor & patch & pre & E & _).
  exists (str (minor ++ patch ++ pre)).
  rewrite <- (str_bytes v), E. reflexivity.
Qed.

Lemma take_while_none (f : ascii -> bool) (w : word) :
  existsb f w = false -> take_while (fun c => negb (f c)) w = w.
Proof.
  induction w as [| c w IH]; simpl; [reflexivity |].
  intros H. apply orb_false_iff in H. destruct H as [H1 H2].
  rewrite H1. simpl. now rewrite IH.
Qed.

(** [filepath.Base] of a name without a slash is the name. *)
Lemma Base_plain (name : string) :
  name <> "" -> existsb is_slash (bytes name) = false -> Base name = name.
Proof.
  intros N S. unfold Base.
  remember (bytes name) as b eqn:E. destruct b as [| c w].
  - destruct name; [congruence | discriminate].
  - assert (R : existsb is_slash (rev (c :: w)) = false).
    { destruct (existsb is_slash (rev (c :: w))) eqn:X; [| reflexivity].
      apply existsb_exists in X. destruct X as (x & Hx & Sx).
      apply in_rev in Hx. rewrite <- S. symmetry. apply existsb_exists. eauto. }
    assert (D : drop_while is_slash (rev (c :: w)) = rev (c :: w)).
    { destruct (rev (c :: w)) as [| y l] eqn:Y; [reflexivity |].
      simpl in R |- *. apply orb_false_iff in R. now rewrite (proj1 R). }
    cbv zeta. rewrite D, (take_while_none _ _ R), rev_involutive.
    rewrite E. apply str_bytes.
Qed.

(* ================================================================= *)
(** ** sort.Slice gives a sorted permutation *)

Section Sorting.

Context {A : Type} (less : A -> A -> bool).

Lemma sink_perm (x : A) (front : list A) :
  Permutation (sink less x front) (x :: front).
Proof.
  induction front as [| y ys IH]; simpl; [reflexivity |].
  destruct (less x y); [| reflexivity].
  rewrite IH. apply perm_swap.
Qed.

Lemma fold_sink_perm (l front : list A) :
  Permutation (fold_left (fun f x => sink less x f) l front) (l ++ front).
Proof.
  revert front. induction l as [| x l IH]; intros front; simpl; [reflexivity |].
  rewrite IH, sink_perm. symmetry. apply Permutation_middle.
Qed.

Lemma sort_Slice_perm (l : list A) : Permutation (sort_Slice less l) l.
Proof.
  unfold sort_Slice. rewrite <- Permutation_rev, fold_sink_perm.
  now rewrite app_nil_r.
Qed.

Lemma sorted_snoc (R : A -> A -> Prop) (l : list A) (a : A) :
  StronglySorted R l -> Forall (fun b => R b a) l -> StronglySorted R (l ++ [a]).
Proof.
  induction 1 as [| b l S IH F]; intros H; simpl.
  - repeat constructor.
  - inversion H; subst. constructor; [auto |].
    apply Forall_app. split; [assumption | repeat constructor; assumption].
Qed.

Lemma sorted_rev (R : A -> A -> Prop) (l : list A) :
  StronglySorted R l -> StronglySorted (fun a b => R b a) (rev l).
Proof.
  induction 1 as [| a l S IH F]; simpl; [constructor |].
  apply sorted_snoc; [assumption |].
  apply Forall_rev. exact F.
Qed.

Hypothesis less_asym : asymmetric less.
Hypothesis less_negtrans : negatively_transitive less.

Lemma sink_sorted (x : A) (front : list A) :
  StronglySorted (fun a b => less a b = false) front ->
  StronglySorted (fun a b => less a b = false) (sink less x front).
Proof.
  induction 1 as [| y ys S IH F]; simpl; [repeat constructor |].
  destruct (less x y) eqn:E.
  - constructor; [exact IH |].
    apply (Permutation_Forall (Permutation_sym (sink_perm x ys))).
    constructor; [now apply less_asym | exact F].
  - constructor; [now constructor |].
    constructor; [exact E |].
    apply Forall_forall. intros z Hz. rewrite Forall_forall in F.
    exact (less_negtrans _ _ _ E (F z Hz)).
Qed.

Lemma fold_sink_sorted (l front : list A) :
  StronglySorted (fun a b => less a b = false) front ->
  StronglySorted (fun a b => less a b = false)
    (fold_left (fun f x => sink less x f) l front).
Proof.
  revert front. induction l as [| x l IH]; intros front S; simpl; [exact S |].
  apply IH, sink_sorted, S.
Qed.

Lemma sort_Slice_ascending (l : list A) : ascending less (sort_Slice less l).
Proof.
  unfold ascending, sort_Slice.
  apply (sorted_rev (fun a b => less a b = false)).
  apply fold_sink_sorted. constructor.
Qed.

End Sorting.

(* ================================================================= *)
(** ** Running commands *)

Lemma run_bind {W A B} (h : handler W) (p : prog A) (f : A -> prog B) :
  forall w,
    run h (bind p f) w =
    let '(a, w1, t1) := run h p w in
    let '(b, w2, t2) := run h (f a) w1 in
    (b, w2, t1 ++ t2).
Proof.
  induction p as [a | R c k IH]; intros w; simpl.
  - destruct (run h (f a) w) as [[b w2] t2]. reflexivity.
  - destruct (h R c w) as [r w1]. rewrite IH.
    destruct (run h (k r) w1) as [[a w2] t1].
    destruct (run h (f a) w2) as [[b w3] t2]. reflexivity.
Qed.

Lemma run_try {W A B} (h : handler W) (p : prog (result A))
      (f : A -> prog (result B)) (w : W) :
  run h (try p f) w =
  let '(r, w1, t1) := run h p w in
  match r with
  | Ok a => let '(b, w2, t2) := run h (f a) w1 in (b, w2, t1 ++ t2)
  | Err e => (Err e, w1, t1)
  end.
Proof.
  unfold try. rewrite run_bind.
  destruct (run h p w) as [[[a | e] w1] t1]; [reflexivity |].
  simpl. now rewrite app_nil_r.
Qed.

Lemma run_perform {W R} (h : handler W) (c : call R) (w : W) :
  run h (perform c) w = (fst (h R c w), snd (h R c w), [Op c]).
Proof. simpl. destruct (h R c w). reflexivity. Qed.

(** A command that got its snapshot goes on from there. *)
Lemma run_use {W} (h : handler W) less arg rest gobin sdkdir w l w1 t1 :
  run h (localVersions less gobin) w = (Ok l, w1, t1) ->
  run h (use less (arg :: rest) gobin sdkdir) w =
  let '(r, w2, t2) := run h (use_with l arg gobin sdkdir) w1 in (r, w2, t1 ++ t2).
Proof. intros H. unfold use. now rewrite run_try, H. Qed.

Lemma run_remove {W} (h : handler W) less arg rest gobin sdkdir w l w1 t1 :
  run h (localVersions less gobin) w = (Ok l, w1, t1) ->
  run h (remove less (arg :: rest) gobin sdkdir) w =
  let '(r, w2, t2) := run h (remove_with l arg gobin sdkdir) w1 in (r, w2, t1 ++ t2).
Proof. intros H. unfold remove. now rewrite run_try, H. Qed.

(** Without a snapshot the command returns the error of [localVersions]. *)
Lemma run_use_err {W} (h : handler W) less arg rest gobin sdkdir w e w1 t1 :
  run h (localVersions less gobin) w = (Err e, w1, t1) ->
  run h (use less (arg :: rest) gobin sdkdir) w = (Err e, w1, t1).
Proof. intros H. unfold use. now rewrite run_try, H. Qed.

Lemma run_remove_err {W} (h : handler W) less arg rest gobin sdkdir w e w1 t1 :
  run h (localVersions less gobin) w = (Err e, w1, t1) ->
  run h (remove less (arg :: rest) gobin sdkdir) w = (Err e, w1, t1).
Proof. intros H. unfold remove. now rewrite run_try, H. Qed.

(* ================================================================= *)
(** ** localVersions *)

(** [resolve], call by call, under any surroundings. *)
Lemma run_resolve {W} (h : handler W) less d w :
  run h (resolve less d) w =
  let '(ro, w1) := h _ (Output "go" ["version"]) w in
  match ro with
  | Err e => (Err e, w1, firstn 1 (snapshot_calls d))
  | Ok output =>
      if negb (Nat.eqb (List.length (Split output " ")) 4)
      then (Err (errUnexpectedFormat output), w1, firstn 1 (snapshot_calls d))
      else
        let '(rl, w2) := h _ (Readlink d "go") w1 in
        match (match rl with
               | Err e => if is_not_exist e then Ok (main_of output) else Err e
               | Ok target => Ok (TrimPrefix (Base target) "go")
               end) with
        | Err e => (Err e, w2, firstn 2 (snapshot_calls d))
        | Ok current =>
            let '(rd, w3) := h _ (ReadDir d ".") w2 in
            match rd with
            | Err e => (Err e, w3, snapshot_calls d)
            | Ok entries =>
                (Ok {| main := main_of output;
                       current := current;
                       list_ := sort_Slice less (collect (main_of output) entries) |},
                 w3, snapshot_calls d)
            end
        end
  end.
Proof.
  unfold resolve, try, main_of, snapshot_calls. cbn [run bind perform firstn].
  destruct (h _ (Output "go" ["version"]) w) as [[output | e] w1]; [| reflexivity].
  destruct (negb (Nat.eqb (List.length (Split output " ")) 4)); [reflexivity |].
  cbn [run bind].
  destruct (h _ (Readlink d "go") w1) as [[target | e] w2].
  - cbn [run bind].
    destruct (h _ (ReadDir d ".") w2) as [[entries | e] w3]; reflexivity.
  - destruct (is_not_exist e); [| reflexivity].
    cbn [run bind].
    destruct (h _ (ReadDir d ".") w2) as [[entries | e'] w3]; reflexivity.
Qed.

(** [localVersions] around [resolve]: the search path is set before and
    restored after, whatever [resolve] returns. *)
Lemma run_localVersions {W} (h : handler W) less d w :
  run h (localVersions less d) w =
  let '(currPath, w1) := h _ (Getenv "PATH") w in
  let '(gobinDir, w2) := h _ (Getenv "GOBIN") w1 in
  let '(_, w3) := h _ (Setenv "PATH" (cutFromPath currPath gobinDir)) w2 in
  let '(r, w4, t) := run h (resolve less d) w3 in
  let '(_, w5) := h _ (Setenv "PATH" currPath) w4 in
  (r, w5,
   Op (Getenv "PATH") :: Op (Getenv "GOBIN")
     :: Op (Setenv "PATH" (cutFromPath currPath gobinDir))
     :: t ++ [Op (Setenv "PATH" currPath)]).
Proof.
  unfold localVersions. cbn [run bind perform].
  destruct (h _ (Getenv "PATH") w) as [currPath w1].
  destruct (h _ (Getenv "GOBIN") w1) as [gobinDir w2].
  destruct (h _ (Setenv "PATH" (cutFromPath currPath gobinDir)) w2) as [u w3].
  rewrite run_bind.
  destruct (run h (resolve less d) w3) as [[r w4] t].
  cbn [run].
  destruct (h _ (Setenv "PATH" currPath) w4) as [u' w5]. reflexivity.
Qed.

(** [localVersions] changes no file system and starts no install or
    download step, whatever the surroundings answer. *)
Lemma localVersions_reads_only {W} (h : handler W) less d w :
  forallb (fun o => negb (mutates o)) (trace (run h (localVersions less d) w)) = true.
Proof.
  rewrite run_localVersions.
  destruct (h _ (Getenv "PATH") w) as [currPath w1].
  destruct (h _ (Getenv "GOBIN") w1) as [gobinDir w2].
  destruct (h _ (Setenv "PATH" (cutFromPath currPath gobinDir)) w2) as [u w3].
  rewrite run_resolve.
  destruct (h _ (Output "go" ["version"]) w3) as [[output | e] w4].
  2: { destruct (h _ (Setenv "PATH" currPath) w4). reflexivity. }
  destruct (negb (Nat.eqb (List.length (Split output " ")) 4)).
  { destruct (h _ (Setenv "PATH" currPath) w4). reflexivity. }
  destruct (h _ (Readlink d "go") w4) as [rl w5].
  destruct (match rl with
            | Ok target => Ok (TrimPrefix (Base target) "go")
            | Err e => if is_not_exist e then Ok (main_of output) else Err e
            end) as [cur | e].
  2: { destruct (h _ (Setenv "PATH" currPath) w5). reflexivity. }
  destruct (h _ (ReadDir d ".") w5) as [[entries | e] w6];
    destruct (h _ (Setenv "PATH" currPath) w6); reflexivity.
Qed.

(** What a snapshot tells about the answers it was built from. *)
Lemma localVersions_inv {W} (h : handler W) less d w l w' t :
  run h (localVersions less d) w = (Ok l, w', t) ->
  exists entries, list_ l = sort_Slice less (collect (main l) entries).
Proof.
  rewrite run_localVersions.
  destruct (h _ (Getenv "PATH") w) as [currPath w1].
  destruct (h _ (Getenv "GOBIN") w1) as [gobinDir w2].
  destruct (h _ (Setenv "PATH" (cutFromPath currPath gobinDir)) w2) as [u w3].
  rewrite run_resolve.
  destruct (h _ (Output "go" ["version"]) w3) as [[output | e] w4].
  2: { destruct (h _ (Setenv "PATH" currPath) w4). discriminate. }
  destruct (negb (Nat.eqb (List.length (Split output " ")) 4)).
  { destruct (h _ (Setenv "PATH" currPath) w4). discriminate. }
  destruct (h _ (Readlink d "go") w4) as [rl w5].
  destruct (match rl with
            | Ok target => Ok (TrimPrefix (Base target) "go")
            | Err e => if is_not_exist e then Ok (main_of output) else Err e
            end) as [cur | e].
  2: { destruct (h _ (Setenv "PATH" currPath) w5). discriminate. }
  destruct (h _ (ReadDir d ".") w5) as [[entries | e] w6];
    destruct (h _ (Setenv "PATH" currPath) w6); [| discriminate].
  intros H. injection H as <- _ _. exists entries. reflexivity.
Qed.

Lemma collect_eq (main : string) (entries : list DirEntry) :
  collect main entries = main :: flat_map version_of entries.
Proof.
  unfold collect. change (main :: flat_map version_of entries)
    with ([main] ++ flat_map version_of entries).
  generalize [main] as acc.
  induction entries as [| e es IH]; intros acc; simpl.
  - now rewrite app_nil_r.
  - now rewrite IH, <- app_assoc.
Qed.

(* ----------------------------------------------------------------- *)
(** *** localVersions on the in-memory file system *)

Lemma mem_Output_go_version (w : world) :
  mem_handler (Output "go" ["version"]) w =
  guarded w (Op (Output "go" ["version"])) (go_version w, w).
Proof. reflexivity. Qed.

Lemma dir_of_set_environ (w : world) (e : list (string * string)) (d : fsx) :
  dir_of (set_environ w e) d = dir_of w d.
Proof. destruct d; reflexivity. Qed.

Lemma resolve_mem less d w l w' t :
  run mem_handler (resolve less d) w = (Ok l, w', t) <->
  snapshot_of less d w l /\ w' = w /\ t = snapshot_calls d.
Proof.
  rewrite run_resolve, mem_Output_go_version.
  unfold snapshot_of, link_state, guarded, snapshot_calls.
  cbn [mem_handler]. unfold guarded, mem_Readlink, mem_ReadDir.
  change (String.eqb "." ".") with true. cbv iota.
  split.
  - destruct (fault w (Op (Output "go" ["version"]))) eqn:F1; [discriminate |].
    destruct (go_version w) as [output | e] eqn:G; [| discriminate].
    destruct (Nat.eqb (List.length (Split output " ")) 4) eqn:N; [| discriminate].
    cbn [negb]. cbv iota.
    destruct (fault w (Op (Readlink d "go"))) eqn:F2; [discriminate |].
    destruct (fault w (Op (ReadDir d "."))) eqn:F3.
    { destruct (lookup "go" (dir_of w d)) as [[| |] |]; discriminate. }
    apply Nat.eqb_eq in N.
    assert (F : forall o, In o [Op (Output "go" ["version"]); Op (Readlink d "go");
                                 Op (ReadDir d ".")] -> fault w o = None).
    { intros o [<- | [<- | [<- | []]]]; assumption. }
    destruct (lookup "go" (dir_of w d)) as [[| |] |]; cbn [is_not_exist];
      try discriminate; intros H; injection H as <- <- <-; cbn [main current list_];
      (split; [| split; reflexivity]);
      (split; [exists output; auto |]); auto.
  - intros ([(output & G & N & M) (F & L & E)] & -> & ->).
    rewrite (F _ (or_introl eq_refl)), G.
    apply Nat.eqb_eq in N. rewrite N. cbn [negb]. cbv iota.
    rewrite (F _ (or_intror (or_introl eq_refl))).
    rewrite (F _ (or_intror (or_intror (or_introl eq_refl)))).
    destruct l as [m c ls]. cbn [main current list_] in *. subst m ls.
    destruct (lookup "go" (dir_of w d)) as [[| |] |]; cbn [is_not_exist];
      try contradiction; subst c; reflexivity.
Qed.

Lemma snapshot_of_frame less d w w2 l :
  go_version w2 = go_version w -> fault w2 = fault w ->
  dir_of w2 d = dir_of w d ->
  snapshot_of less d w l -> snapshot_of less d w2 l.
Proof. unfold snapshot_of. intros -> -> ->. auto. Qed.

Lemma localVersions_mem less d w l w' t :
  run mem_handler (localVersions less d) w = (Ok l, w', t) <->
  snapshot_of less d w l /\ w' = path_restored w /\
  t = Op (Getenv "PATH") :: Op (Getenv "GOBIN")
        :: Op (Setenv "PATH" (cutFromPath (getenv "PATH" (environ w))
                                          (getenv "GOBIN" (environ w))))
        :: snapshot_calls d ++ [Op (Setenv "PATH" (getenv "PATH" (environ w)))].
Proof.
  rewrite run_localVersions. cbn [mem_handler].
  set (w3 := set_environ w _).
  destruct (run mem_handler (resolve less d) w3) as [[r w4] t4] eqn:R.
  assert (S3 : forall l0, snapshot_of less d w3 l0 <-> snapshot_of less d w l0).
  { intros l0. split; apply snapshot_of_frame; try reflexivity;
      unfold w3; now rewrite ?dir_of_set_environ. }
  split.
  - intros H. injection H as -> <- <-.
    apply resolve_mem in R. destruct R as (S & -> & ->).
    apply (proj1 (S3 _)) in S. split; [exact S | split; reflexivity].
  - intros (S & -> & ->). apply (proj2 (S3 _)) in S.
    assert (R' : run mem_handler (resolve less d) w3 = (Ok l, w3, snapshot_calls d)).
    { apply resolve_mem. auto. }
    rewrite R in R'. injection R' as -> -> ->. reflexivity.
Qed.

(** A snapshot that exists is the one [localVersions] returns. *)
Lemma localVersions_mem_run less d w l :
  snapshot_of less d w l ->
  answer (run mem_handler (localVersions less d) w) = Ok l /\
  final (run mem_handler (localVersions less d) w) = path_restored w.
Proof.
  intros S.
  destruct (run mem_handler (localVersions less d) w) as [[r w'] t] eqn:R.
  pose proof (proj2 (localVersions_mem less d w l (path_restored w) _)
                    (conj S (conj eq_refl eq_refl))) as R'.
  rewrite R in R'. injection R' as -> -> _. split; reflexivity.
Qed.

(* ================================================================= *)
(** ** The version order is a strict weak order *)

Lemma lex_ltb_asym (a : list nat) :
  forall b, lex_ltb a b = true -> lex_ltb b a = false.
Proof.
  induction a as [| x a IH]; intros [| y b]; simpl; try congruence.
  destruct (Nat.ltb_spec x y), (Nat.ltb_spec y x); try congruence; try lia.
  apply IH.
Qed.

Lemma lex_ltb_negtrans (a : list nat) :
  forall b c, lex_ltb a b = false -> lex_ltb b c = false -> lex_ltb a c = false.
Proof.
  induction a as [| x a IH]; intros [| y b] [| z c]; simpl; try congruence.
  destruct (Nat.ltb_spec x y), (Nat.ltb_spec y x), (Nat.ltb_spec y z),
    (Nat.ltb_spec z y), (Nat.ltb_spec x z), (Nat.ltb_spec z x);
    try congruence; try lia.
  apply IH.
Qed.

Lemma versionLess_asym : asymmetric versionLess.
Proof. intros a b. apply lex_ltb_asym. Qed.

Lemma versionLess_negtrans : negatively_transitive versionLess.
Proof. intros a b c. apply lex_ltb_negtrans. Qed.

(** The order of the specification's section 8. *)
Example versionLess_chain :
  map (fun p => versionLess (fst p) (snd p))
      [("1.9", "1.10"); ("1.10", "1.10.1"); ("1.10.1", "1.11rc1");
       ("1.11rc1", "1.11"); ("1.11", "1.11")]
  = [true; true; true; true; false].
Proof. reflexivity. Qed.

(* ================================================================= *)
(** ** C2: the list of a snapshot *)

Lemma entries_of_in (fs : memfs) (name : string) (x : node) :
  In (name, x) fs -> top_level name = true ->
  In {| Name := name; IsDir := is_dir x |} (entries_of fs).
Proof.
  intros H T. unfold entries_of.
  apply (Permutation_in _ (Permutation_sym (sort_Slice_perm _ _))).
  apply (in_map (fun e => {| Name := fst e; IsDir := is_dir (snd e) |}) _ (name, x)).
  apply filter_In. auto.
Qed.

Lemma installed_in (fs : memfs) (v : string) (x : node) :
  In (("go" ++ v)%string, x) fs -> is_dir x = false ->
  MatchString versionRE v = true -> In v (installed fs).
Proof.
  intros H D V. unfold installed. apply in_flat_map.
  exists {| Name := ("go" ++ v)%string; IsDir := is_dir x |}. split.
  - apply entries_of_in; [exact H |].
    unfold top_level. rewrite bytes_append, existsb_app, (valid_no_slash _ V).
    reflexivity.
  - unfold version_of. cbn [IsDir Name]. rewrite D, TrimPrefix_append, V.
    now left.
Qed.

(** C2, as the code has it.  The list of a snapshot is [main] followed by
    the versions of the release binaries of the bin directory, sorted: it
    is ascending whenever [versionLess] is a strict weak order, it
    contains [main] and the version of every installed release binary,
    and it is a permutation of [main] and those versions, so that a
    version is listed once for [main] and once more for every binary of
    it.  In the scenario of [go1.20] and [go1.21] with [go1.21] the main
    version, the list is [1.20; 1.21; 1.21] under any order that puts
    [1.20] before [1.21]. *)
Theorem localVersions_list less (w : world) (l : local) (w' : world) (t : list op) :
  run mem_handler (localVersions less GoBin) w = (Ok l, w', t) ->
  (asymmetric less -> negatively_transitive less -> ascending less (list_ l)) /\
  In (main l) (list_ l) /\
  (forall v x, In (("go" ++ v)%string, x) (bin w) -> is_dir x = false ->
               MatchString versionRE v = true -> In v (list_ l)) /\
  Permutation (list_ l) (main l :: installed (bin w)) /\
  (less "1.20" "1.21" = true -> less "1.21" "1.21" = false ->
   answer (run mem_handler (localVersions less GoBin) scenario)
   = Ok {| main := "1.21"; current := "1.21"; list_ := ["1.20"; "1.21"; "1.21"] |}).
Proof.
  intros H. apply localVersions_mem in H. destruct H as ((_ & _ & _ & E) & _ & _).
  cbn [dir_of] in E.
  assert (P : Permutation (list_ l) (main l :: installed (bin w))).
  { rewrite E, sort_Slice_perm, collect_eq. reflexivity. }
  split; [| split; [| split; [| split]]].
  - intros A N. rewrite E. now apply sort_Slice_ascending.
  - apply (Permutation_in _ (Permutation_sym P)). now left.
  - intros v x Hin D V. apply (Permutation_in _ (Permutation_sym P)).
    right. exact (installed_in _ _ _ Hin D V).
  - exact P.
  - intros H1 H2. vm_compute. rewrite H1, H2. reflexivity.
Qed.

(** C2, as the claim states it, fails in its own scenario: the snapshot
    lists [1.21] twice, once as the main version and once for the binary
    [go1.21], so the list has a duplicate and is not [1.20; 1.21]. *)
Lemma localVersions_scenario_duplicate :
  exists l,
    answer (run mem_handler (localVersions versionLess GoBin) scenario) = Ok l /\
    list_ l = ["1.20"; "1.21"; "1.21"] /\
    ~ NoDup (list_ l) /\
    list_ l <> ["1.20"; "1.21"].
Proof.
  eexists. split; [reflexivity |]. cbn [list_].
  split; [reflexivity | split; [| discriminate]].
  intros N. inversion N as [| ? ? _ N1]; subst.
  inversion N1 as [| ? ? X _]; subst. apply X. now left.
Qed.

Lemma localVersions_list_witness :
  ascending versionLess ["1.20"; "1.21"; "1.21"] /\
  In "1.21" ["1.20"; "1.21"; "1.21"] /\
  In "1.20" ["1.20"; "1.21"; "1.21"] /\
  Permutation ["1.20"; "1.21"; "1.21"] ("1.21" :: installed (bin scenario)) /\
  answer (run mem_handler (localVersions versionLess GoBin) scenario)
  = Ok {| main := "1.21"; current := "1.21"; list_ := ["1.20"; "1.21"; "1.21"] |}.
Proof.
  destruct (localVersions_list versionLess scenario
              {| main := "1.21"; current := "1.21"; list_ := ["1.20"; "1.21"; "1.21"] |}
              (path_restored scenario)
              (trace (run mem_handler (localVersions versionLess GoBin) scenario))
              eq_refl) as (S & M & I & P & X).
  split; [exact (S versionLess_asym versionLess_negtrans) |].
  split; [exact M |].
  split; [apply (I "1.20" (File [])); [now left | reflexivity | reflexivity] |].
  split; [exact P |].
  exact (X eq_refl eq_refl).
Defined.

(* ================================================================= *)
(** ** The in-memory file system *)

Lemma lookup_delete (name : string) (fs : memfs) : lookup name (delete name fs) = None.
Proof.
  induction fs as [| [n x] fs IH]; simpl; [reflexivity |].
  destruct (String.eqb n name) eqn:E; simpl; [exact IH |].
  now rewrite E.
Qed.

Lemma lookup_delete_other (name other : string) (fs : memfs) :
  lookup name fs = None -> lookup name (delete other fs) = None.
Proof.
  induction fs as [| [n x] fs IH]; simpl; [reflexivity |].
  destruct (String.eqb n name) eqn:E; [discriminate |].
  intros H. destruct (String.eqb n other); simpl; [auto |].
  rewrite E. auto.
Qed.

Lemma lookup_filter_out (f : string -> bool) (name : string) (fs : memfs) :
  f name = false -> lookup name (filter (fun e => f (fst e)) fs) = None.
Proof.
  intros F. induction fs as [| [n x] fs IH]; simpl; [reflexivity |].
  destruct (f n) eqn:E; simpl; [| exact IH].
  destruct (String.eqb n name) eqn:N; [| exact IH].
  apply String.eqb_eq in N. congruence.
Qed.

(** No call changes what the main toolchain reports, which calls fail for
    a reason of their own, or what the external steps do. *)
Lemma mem_handler_frame R (c : call R) (w : world) :
  go_version (snd (mem_handler c w)) = go_version w /\
  fault (snd (mem_handler c w)) = fault w /\
  external (snd (mem_handler c w)) = external w.
Proof.
  destruct c; cbn [mem_handler]; unfold guarded;
    try (destruct (fault w _); cbn [snd]; auto);
    try (cbn [snd]; auto; fail).
  - destruct (external w name args (bin w, sdk w)) as [r fs]. cbn. auto.
  - destruct (mem_Symlink (dir_of w d) oldname newname) as [r fs].
    destruct d; cbn; auto.
  - destruct (mem_Remove (dir_of w d) name) as [r fs]. destruct d; cbn; auto.
  - destruct (mem_RemoveAll (dir_of w d) path) as [r fs]. destruct d; cbn; auto.
Qed.

Lemma run_mem_frame A (p : prog A) :
  forall w,
    go_version (final (run mem_handler p w)) = go_version w /\
    fault (final (run mem_handler p w)) = fault w /\
    external (final (run mem_handler p w)) = external w.
Proof.
  induction p as [a | R c k IH]; intros w; [cbn; auto |].
  cbn [run]. pose proof (mem_handler_frame R c w) as F.
  destruct (mem_handler c w) as [r w1]. cbn [snd] in F.
  specialize (IH r w1).
  destruct (run mem_handler (k r) w1) as [[a w2] t]. cbn [final fst snd] in *.
  destruct F as (F1 & F2 & F3), IH as (I1 & I2 & I3).
  repeat split; congruence.
Qed.

(** The snapshot of a later state, given the one of an earlier state and
    what the link says then. *)
Lemma snapshot_later less d w l w2 cur :
  snapshot_of less d w l ->
  go_version w2 = go_version w -> fault w2 = fault w ->
  link_state (dir_of w2 d) (main l) cur ->
  snapshot_of less d w2
    {| main := main l; current := cur;
       list_ := sort_Slice less (collect (main l) (entries_of (dir_of w2 d))) |}.
Proof.
  intros (M & F & _ & _) G Fl L. unfold snapshot_of. cbn [main current list_].
  rewrite G, Fl. auto.
Qed.

Lemma contains_main {W} (h : handler W) less d w l w1 t1 :
  run h (localVersions less d) w = (Ok l, w1, t1) -> contains l (main l) = true.
Proof.
  intros H. apply localVersions_inv in H. destruct H as (entries & E).
  unfold contains. apply existsb_exists. exists (main l).
  split; [| apply String.eqb_refl].
  rewrite E. apply (Permutation_in _ (Permutation_sym (sort_Slice_perm _ _))).
  rewrite collect_eq. now left.
Qed.

Lemma reads_only_trace {W} (h : handler W) less d w r w1 t1 :
  run h (localVersions less d) w = (r, w1, t1) ->
  forallb (fun o => negb (mutates o)) t1 = true.
Proof.
  intros H. pose proof (localVersions_reads_only h less d w) as T.
  now rewrite H in T.
Qed.

Lemma filter_none {A} (f : A -> bool) (l : list A) :
  forallb (fun o => negb (f o)) l = true -> filter f l = [].
Proof.
  induction l as [| a l IH]; simpl; [reflexivity |].
  intros H. apply andb_true_iff in H. destruct H as [H1 H2].
  apply negb_true_iff in H1. rewrite H1. auto.
Qed.

(* ================================================================= *)
(** ** C3: the invariant of a snapshot *)

(** Without a link [go] the current version is the main one. *)
Lemma localVersions_no_link less w l w' t :
  run mem_handler (localVersions less GoBin) w = (Ok l, w', t) ->
  lookup "go" (bin w) = None -> current l = main l.
Proof.
  intros H N. apply localVersions_mem in H. destruct H as ((_ & _ & L & _) & _).
  unfold link_state in L. cbn [dir_of] in L. now rewrite N in L.
Qed.

(** C3.  A snapshot does not always keep the invariant: when the link
    [go] points at [go1.19] and the binary [go1.19] is gone,
    [localVersions] returns a snapshot whose [current], ["1.19"], is not
    [main], is not in [list] and has no binary, although [main] is in
    [list]. *)
Theorem localVersions_dangling_link :
  exists l,
    answer (run mem_handler (localVersions versionLess GoBin) dangling) = Ok l /\
    In (main l) (list_ l) /\
    current l = "1.19" /\
    current l <> main l /\
    ~ In (current l) (list_ l) /\
    lookup ("go" ++ current l) (bin dangling) = None.
Proof.
  eexists. split; [reflexivity |]. cbn [main current list_].
  split; [right; now left |].
  split; [reflexivity |].
  split; [discriminate |].
  split; [| reflexivity].
  intros [H | [H | []]]; discriminate.
Qed.

(** [use] on a version that fails the grammar. *)
Lemma malformed_version_rejected_aux {W} (h : handler W) less arg rest gobin sdkdir
      (w : W) (l : local) (w1 : W) (t1 : list op) :
  run h (localVersions less gobin) w = (Ok l, w1, t1) ->
  MatchString versionRE (resolved l arg) = false ->
  run h (use less (arg :: rest) gobin sdkdir) w
    = (Err (errMalformed (resolved l arg)), w1, t1) /\
  forallb (fun o => negb (mutates o)) t1 = true.
Proof.
  intros H M. unfold resolved in *.
  rewrite (run_use h less arg rest gobin sdkdir w l w1 t1 H).
  unfold use_with. rewrite M. cbn [negb run].
  rewrite app_nil_r. split; [reflexivity |].
  exact (reads_only_trace _ _ _ _ _ _ _ H).
Qed.

(* ================================================================= *)
(** ** C8: a malformed version changes nothing *)

(** C8.  When the argument, after the alias [main] is resolved against
    the snapshot, fails the grammar, [use] and [remove] both return the
    error [malformed version] in the state [localVersions] left, and the
    calls made are those of [localVersions] alone: no link is created or
    removed, nothing is deleted, no install or download step is run. *)
Theorem malformed_version_rejected {W} (h : handler W) less arg rest gobin sdkdir
        (w : W) (l : local) (w1 : W) (t1 : list op) :
  run h (localVersions less gobin) w = (Ok l, w1, t1) ->
  MatchString versionRE (resolved l arg) = false ->
  run h (use less (arg :: rest) gobin sdkdir) w
    = (Err (errMalformed (resolved l arg)), w1, t1) /\
  run h (remove less (arg :: rest) gobin sdkdir) w
    = (Err (errMalformed (resolved l arg)), w1, t1) /\
  forallb (fun o => negb (mutates o)) t1 = true.
Proof.
  intros H M. unfold resolved in *.
  rewrite (run_use h less arg rest gobin sdkdir w l w1 t1 H).
  rewrite (run_remove h less arg rest gobin sdkdir w l w1 t1 H).
  unfold use_with, remove_with. rewrite M. cbn [negb run].
  rewrite app_nil_r. repeat split. exact (reads_only_trace _ _ _ _ _ _ _ H).
Qed.

Lemma malformed_version_rejected_witness :
  answer (run mem_handler (use versionLess ["1.21x"] GoBin SdkDir) installed_1_20)
    = Err (errMalformed "1.21x") /\
  answer (run mem_handler (remove versionLess ["latest"] GoBin SdkDir) installed_1_20)
    = Err (errMalformed "latest") /\
  bin (final (run mem_handler (use versionLess ["1.21x"] GoBin SdkDir) installed_1_20))
    = bin installed_1_20.
Proof.
  pose proof (malformed_version_rejected mem_handler versionLess "1.21x" []
                GoBin SdkDir installed_1_20
                {| main := "1.21"; current := "1.21"; list_ := ["1.20"; "1.21"] |}
                (path_restored installed_1_20) _ eq_refl eq_refl) as (U & _ & _).
  pose proof (malformed_version_rejected mem_handler versionLess "latest" []
                GoBin SdkDir installed_1_20
                {| main := "1.21"; current := "1.21"; list_ := ["1.20"; "1.21"] |}
                (path_restored installed_1_20) _ eq_refl eq_refl) as (_ & R & _).
  rewrite U, R. repeat split.
Defined.

(* ================================================================= *)
(** ** C5: the main version is never removed *)

(** C5, as the code has it.  [remove] on the main version, named
    directly or by the alias [main], always fails, in the state
    [localVersions] left and with no call beyond those of
    [localVersions]: the error is [unable to remove] when the main
    version passes the grammar, and [malformed version] when it does
    not, because the version is validated first. *)
Theorem remove_main_fails {W} (h : handler W) less arg rest gobin sdkdir
        (w : W) (l : local) (w1 : W) (t1 : list op) :
  run h (localVersions less gobin) w = (Ok l, w1, t1) ->
  resolved l arg = main l ->
  run h (remove less (arg :: rest) gobin sdkdir) w
    = (Err (if MatchString versionRE (main l)
            then errUnableToRemove (main l)
            else errMalformed (main l)), w1, t1) /\
  forallb (fun o => negb (mutates o)) t1 = true.
Proof.
  intros H E. split; [| exact (reads_only_trace _ _ _ _ _ _ _ H)].
  rewrite (run_remove h less arg rest gobin sdkdir w l w1 t1 H).
  unfold remove_with. fold (resolved l arg). rewrite E.
  destruct (MatchString versionRE (main l)); cbn [negb run].
  - rewrite (contains_main _ _ _ _ _ _ _ H), String.eqb_refl. cbn [negb run].
    now rewrite app_nil_r.
  - now rewrite app_nil_r.
Qed.

(** C5, as the claim states it, fails for a main toolchain that reports
    [go1.21.0]: the main version ["1.21.0"] does not pass the grammar, and
    [remove main] returns [malformed version], not [unable to remove]. *)
Lemma remove_main_malformed :
  answer (run mem_handler (remove versionLess ["main"] GoBin SdkDir) modern)
    = Err (errMalformed "1.21.0") /\
  answer (run mem_handler (remove versionLess ["main"] GoBin SdkDir) modern)
    <> Err (errUnableToRemove "1.21.0").
Proof. split; [reflexivity | discriminate]. Qed.

Lemma remove_main_fails_witness :
  answer (run mem_handler (remove versionLess ["main"] GoBin SdkDir) switched)
    = Err (errUnableToRemove "1.21") /\
  answer (run mem_handler (remove versionLess ["1.21.0"] GoBin SdkDir) modern)
    = Err (errMalformed "1.21.0").
Proof.
  pose proof (remove_main_fails mem_handler versionLess "main" [] GoBin SdkDir
                switched
                {| main := "1.21"; current := "1.20"; list_ := ["1.20"; "1.21"] |}
                (path_restored switched) _ eq_refl eq_refl) as (A & _).
  pose proof (remove_main_fails mem_handler versionLess "1.21.0" [] GoBin SdkDir
                modern
                {| main := "1.21.0"; current := "1.21.0"; list_ := ["1.20"; "1.21.0"] |}
                (path_restored modern) _ eq_refl eq_refl) as (B & _).
  rewrite A, B. split; reflexivity.
Defined.

(* ================================================================= *)
(** ** C9: the SDK probe *)

(** C9.  [downloaded] makes one call, [fs.Stat] of the sentinel
    [go<version>/.unpacked-success], and answers whether that call
    returned no error: an error of any kind gives [false] and is not
    passed on, the answer being a boolean.  On the in-memory file system
    the answer is [true] exactly when the call does not fail for a reason
    of its own and the path exists, whatever node is there and whatever
    it holds. *)
Theorem downloaded_probe :
  (forall W (h : handler W) version sdkdir (w : W),
      run h (downloaded version sdkdir) w
      = (is_ok (fst (h _ (Stat sdkdir ("go" ++ version ++ "/.unpacked-success")%string) w)),
         snd (h _ (Stat sdkdir ("go" ++ version ++ "/.unpacked-success")%string) w),
         [Op (Stat sdkdir ("go" ++ version ++ "/.unpacked-success")%string)])) /\
  (forall (w : world) version,
      answer (run mem_handler (downloaded version SdkDir) w) = true <->
      fault w (Op (Stat SdkDir ("go" ++ version ++ "/.unpacked-success")%string)) = None /\
      lookup ("go" ++ version ++ "/.unpacked-success")%string (sdk w) <> None).
Proof.
  assert (G : forall W (h : handler W) version sdkdir (w : W),
      run h (downloaded version sdkdir) w
      = (is_ok (fst (h _ (Stat sdkdir ("go" ++ version ++ "/.unpacked-success")%string) w)),
         snd (h _ (Stat sdkdir ("go" ++ version ++ "/.unpacked-success")%string) w),
         [Op (Stat sdkdir ("go" ++ version ++ "/.unpacked-success")%string)])).
  { intros W h version sdkdir w. unfold downloaded. cbn [run bind perform].
    destruct (h _ (Stat sdkdir _) w) as [[info | e] w1]; reflexivity. }
  split; [exact G |].
  intros w version. rewrite G. cbn [answer fst mem_handler dir_of].
  unfold guarded, mem_Stat.
  destruct (fault w _) as [msg |]; cbn [fst is_ok].
  - split; [discriminate | intros [F _]; discriminate].
  - destruct (lookup _ (sdk w)) as [x |].
    + destruct x; cbn [fst is_ok];
        (split; [intros _; split; [reflexivity | discriminate] | reflexivity]).
    + cbn [fst is_ok]. split; [discriminate | intros [_ N]; congruence].
Qed.

(** The sentinel of an unpacked SDK is found whatever it holds. *)
Example downloaded_any_content (content : word) :
  answer (run mem_handler (downloaded "1.21" SdkDir)
            (set_dir scenario SdkDir [("go1.21/.unpacked-success", File content)]))
  = true.
Proof. reflexivity. Qed.

Example downloaded_absent :
  answer (run mem_handler (downloaded "1.21" SdkDir) scenario) = false.
Proof. reflexivity. Qed.

(* ================================================================= *)
(** ** The calls that change the in-memory file system *)

Lemma mem_Remove_spec (d : fsx) (name : string) (w : world) :
  match fst (mem_handler (Remove d name) w) with
  | Ok _ =>
      dir_of (snd (mem_handler (Remove d name) w)) d = delete name (dir_of w d) /\
      stdout (snd (mem_handler (Remove d name) w)) = stdout w /\
      (forall d', d' <> d -> dir_of (snd (mem_handler (Remove d name) w)) d' = dir_of w d')
  | Err e =>
      snd (mem_handler (Remove d name) w) = w /\
      (is_not_exist e = true -> lookup name (dir_of w d) = None)
  end.
Proof.
  cbn [mem_handler]. unfold guarded, mem_Remove.
  destruct (fault w _); [cbn; split; [reflexivity | discriminate] |].
  destruct (lookup name (dir_of w d)) as [x |] eqn:L.
  - destruct (is_dir x && existsb _ (dir_of w d)).
    + destruct w, d; cbn; (split; [reflexivity | discriminate]).
    + destruct d; cbn; (split; [reflexivity | split; [reflexivity |]]);
        intros [|] N; try reflexivity; congruence.
  - destruct w, d; cbn in *; (split; [reflexivity | intros _; first [exact L | reflexivity]]).
Qed.

Lemma mem_Symlink_spec (d : fsx) (oldname newname : string) (w : world) :
  match fst (mem_handler (Symlink d oldname newname) w) with
  | Ok _ =>
      dir_of (snd (mem_handler (Symlink d oldname newname) w)) d
        = (newname, Link oldname) :: dir_of w d
  | Err e => snd (mem_handler (Symlink d oldname newname) w) = w
  end.
Proof.
  cbn [mem_handler]. unfold guarded, mem_Symlink.
  destruct (fault w _); [reflexivity |].
  destruct (lookup newname (dir_of w d)); destruct w, d; reflexivity.
Qed.

Lemma mem_Print_spec (text : string) (w : world) (d : fsx) :
  dir_of (snd (mem_handler (Print text) w)) d = dir_of w d.
Proof. destruct d; reflexivity. Qed.

(** The snapshot after a command has run, given the one before it and
    what the link says afterwards. *)
Lemma next_snapshot less d (w : world) (l : local) A (p : prog A) cur :
  snapshot_of less d w l ->
  link_state (dir_of (final (run mem_handler p w)) d) (main l) cur ->
  exists l2,
    answer (run mem_handler (localVersions less d) (final (run mem_handler p w))) = Ok l2 /\
    current l2 = cur /\ main l2 = main l.
Proof.
  intros S L. destruct (run_mem_frame A p w) as (G & F & _).
  pose proof (snapshot_later less d w l _ cur S G F L) as S2.
  eexists. split; [exact (proj1 (localVersions_mem_run _ _ _ _ S2)) |].
  split; reflexivity.
Qed.

(* ================================================================= *)
(** ** C4: switching to the main version *)

(** C4, as the code has it.  When the requested version, the alias
    [main] resolved, is the main version and not the current one, [use]
    removes the link [go] and returns what that removal returns: success
    when it succeeded, and otherwise its error as it is, a not-found
    error included; the removal is the only call that changes anything.
    On the in-memory file system a successful [use] leaves no link [go],
    and the next snapshot has the main version as the current one. *)
Theorem use_main_unlinks :
  (forall W (h : handler W) less arg rest gobin sdkdir (w : W) l w1 t1,
      run h (localVersions less gobin) w = (Ok l, w1, t1) ->
      MatchString versionRE (resolved l arg) = true ->
      resolved l arg <> current l ->
      resolved l arg = main l ->
      answer (run h (use less (arg :: rest) gobin sdkdir) w)
        = match fst (h _ (Remove gobin "go") w1) with
          | Ok _ => Ok tt
          | Err e => Err e
          end /\
      filter mutates (trace (run h (use less (arg :: rest) gobin sdkdir) w))
        = [Op (Remove gobin "go")]) /\
  (forall less arg rest (w : world) l w1 t1,
      run mem_handler (localVersions less GoBin) w = (Ok l, w1, t1) ->
      MatchString versionRE (resolved l arg) = true ->
      resolved l arg <> current l ->
      resolved l arg = main l ->
      answer (run mem_handler (use less (arg :: rest) GoBin SdkDir) w) = Ok tt ->
      lookup "go" (bin (final (run mem_handler (use less (arg :: rest) GoBin SdkDir) w))) = None /\
      exists l2,
        answer (run mem_handler (localVersions less GoBin)
                  (final (run mem_handler (use less (arg :: rest) GoBin SdkDir) w))) = Ok l2 /\
        current l2 = main l2 /\ main l2 = main l).
Proof.
  assert (Step : forall W (h : handler W) less arg rest gobin sdkdir (w : W) l w1 t1,
      run h (localVersions less gobin) w = (Ok l, w1, t1) ->
      MatchString versionRE (resolved l arg) = true ->
      resolved l arg <> current l ->
      resolved l arg = main l ->
      run h (use less (arg :: rest) gobin sdkdir) w
      = match fst (h _ (Remove gobin "go") w1) with
        | Ok _ =>
            (Ok tt,
             snd (h _ (Print ("Switched to " ++ main l ++ " (main)" ++ LF)%string)
                    (snd (h _ (Remove gobin "go") w1))),
             t1 ++ [Op (Remove gobin "go");
                    Op (Print ("Switched to " ++ main l ++ " (main)" ++ LF)%string)])
        | Err e => (Err e, snd (h _ (Remove gobin "go") w1), t1 ++ [Op (Remove gobin "go")])
        end).
  { intros W h less arg rest gobin sdkdir w l w1 t1 H M C E.
    rewrite (run_use h less arg rest gobin sdkdir w l w1 t1 H).
    unfold use_with. fold (resolved l arg). rewrite M.
    apply String.eqb_neq in C. rewrite C, E, String.eqb_refl.
    cbn [negb run bind perform try printf].
    destruct (h _ (Remove gobin "go") w1) as [[u | e] w2]; cbn [run fst snd]; [| reflexivity].
    destruct (h _ (Print _) w2) as [u' w3]. reflexivity. }
  split.
  - intros W h less arg rest gobin sdkdir w l w1 t1 H M C E.
    rewrite (Step W h less arg rest gobin sdkdir w l w1 t1 H M C E).
    pose proof (filter_none mutates t1 (reads_only_trace _ _ _ _ _ _ _ H)) as T.
    destruct (fst (h _ (Remove gobin "go") w1));
      cbn [answer trace fst snd]; rewrite filter_app, T; split; reflexivity.
  - intros less arg rest w l w1 t1 H M C E R.
    pose proof (proj1 (localVersions_mem less GoBin w l w1 t1) H) as (S & W1 & _).
    assert (N : lookup "go" (bin (final (run mem_handler
                  (use less (arg :: rest) GoBin SdkDir) w))) = None).
    { rewrite (Step _ mem_handler less arg rest GoBin SdkDir w l w1 t1 H M C E) in R |- *.
      pose proof (mem_Remove_spec GoBin "go" w1) as P.
      destruct (fst (mem_handler (Remove GoBin "go") w1)); [| discriminate].
      destruct P as (P & _). cbn [final fst snd].
      change (bin ?x) with (dir_of x GoBin).
      rewrite mem_Print_spec, P. apply lookup_delete. }
    split; [exact N |].
    destruct (next_snapshot less GoBin w l _ (use less (arg :: rest) GoBin SdkDir)
                (main l) S) as (l2 & A & Cu & Ma).
    { unfold link_state. cbn [dir_of]. now rewrite N. }
    exists l2. repeat split; congruence.
Qed.

(** C4, as the claim states it, fails when the link is gone by the time
    [use] removes it: the removal reports not-found and [use main]
    returns that error, although no link [go] is left. *)
Lemma use_main_not_found_returned :
  answer (run raced (use versionLess ["main"] GoBin SdkDir) switched)
    = Err ErrNotExist /\
  lookup "go" (bin (final (run raced (use versionLess ["main"] GoBin SdkDir) switched)))
    = None.
Proof. split; reflexivity. Qed.

Lemma use_main_unlinks_witness :
  answer (run raced (use versionLess ["main"] GoBin SdkDir) switched) = Err ErrNotExist /\
  answer (run mem_handler (use versionLess ["1.21"] GoBin SdkDir) switched) = Ok tt /\
  lookup "go" (bin (final (run mem_handler (use versionLess ["1.21"] GoBin SdkDir) switched)))
    = None.
Proof.
  destruct use_main_unlinks as [G M].
  pose (l := {| main := "1.21"; current := "1.20"; list_ := ["1.20"; "1.21"] |}).
  assert (D : "1.21" <> "1.20") by discriminate.
  split; [| split].
  - exact (proj1 (G world raced versionLess "main" [] GoBin SdkDir switched l
                    (path_restored switched) _ eq_refl eq_refl D eq_refl)).
  - exact (proj1 (G world mem_handler versionLess "1.21" [] GoBin SdkDir switched l
                    (path_restored switched) _ eq_refl eq_refl D eq_refl)).
  - exact (proj1 (M versionLess "1.21" [] switched l (path_restored switched) _
                    eq_refl eq_refl D eq_refl eq_refl)).
Defined.

(* ================================================================= *)
(** ** C7 and C10: switching to another version *)

Lemma lookup_go_head (target : string) (fs : memfs) :
  lookup "go" (("go", Link target) :: fs) = Some (Link target).
Proof. reflexivity. Qed.

(** The end of [use] on the in-memory file system: after a success the
    link [go] points at the binary of the version; after a failure of
    the creation of the link there is no link [go], the old one having
    been removed by the call just before. *)
Lemma relink_mem (v : string) (w : world) :
  match answer (run mem_handler (relink v GoBin) w) with
  | Ok _ =>
      lookup "go" (bin (final (run mem_handler (relink v GoBin) w)))
        = Some (Link ("go" ++ v)) /\
      filter mutates (trace (run mem_handler (relink v GoBin) w))
        = [Op (Remove GoBin "go"); Op (Symlink GoBin ("go" ++ v)%string "go")]
  | Err _ =>
      existsb creates_link (trace (run mem_handler (relink v GoBin) w)) = true ->
      lookup "go" (bin (final (run mem_handler (relink v GoBin) w))) = None /\
      trace (run mem_handler (relink v GoBin) w)
        = [Op (Remove GoBin "go"); Op (Symlink GoBin ("go" ++ v)%string "go")]
  end.
Proof.
  unfold relink. cbn [run bind perform try printf].
  pose proof (mem_Remove_spec GoBin "go" w) as P.
  destruct (mem_handler (Remove GoBin "go") w) as [r1 w1]. cbn [fst snd] in P.
  assert (N : (exists u, r1 = Ok u) \/ (exists e, r1 = Err e /\ is_not_exist e = true) ->
              lookup "go" (bin w1) = None).
  { intros [(u & ->) | (e & -> & I)].
    - destruct P as (P & _). cbn [dir_of] in P. rewrite P. apply lookup_delete.
    - destruct P as (-> & P). exact (P I). }
  assert (LK : forall w2 t2 r,
             run mem_handler
               (bind (perform (Symlink GoBin ("go" ++ v)%string "go"))
                  (fun r => match r with
                            | Ok _ => bind (printf ("Switched to " ++ v ++ LF)%string)
                                        (fun _ => Ret (Ok tt))
                            | Err e => Ret (Err e)
                            end)) w1 = (r, w2, t2) ->
             lookup "go" (bin w1) = None ->
             match r with
             | Ok _ => lookup "go" (bin w2) = Some (Link ("go" ++ v)) /\
                       filter mutates t2 = [Op (Symlink GoBin ("go" ++ v)%string "go")]
             | Err _ => lookup "go" (bin w2) = None /\
                        t2 = [Op (Symlink GoBin ("go" ++ v)%string "go")]
             end).
  { intros w2 t2 r. cbn [run bind perform printf].
    pose proof (mem_Symlink_spec GoBin ("go" ++ v)%string "go" w1) as Q.
    destruct (mem_handler (Symlink GoBin ("go" ++ v)%string "go") w1) as [r2 w3].
    cbn [fst snd] in Q. destruct r2 as [u | e].
    - cbn [run mem_handler]. intros [= <- <- <-] _. cbn [bin set_stdout].
      cbn [dir_of] in Q. rewrite Q. split; [apply lookup_go_head | reflexivity].
    - subst w3. cbn [run]. intros [= <- <- <-] L. auto. }
  destruct r1 as [u | e].
  - cbn [bind].
    destruct (run mem_handler _ w1) as [[r w2] t2] eqn:R.
    specialize (LK w2 t2 r eq_refl (N (or_introl (ex_intro _ u eq_refl)))).
    cbn [answer final trace fst snd].
    destruct r; [destruct LK as (L & T); cbn [filter mutates]; rewrite T; auto |].
    destruct LK as (L & ->). auto.
  - destruct (is_not_exist e) eqn:I; cbn [negb bind].
    + destruct (run mem_handler _ w1) as [[r w2] t2] eqn:R.
      specialize (LK w2 t2 r eq_refl (N (or_intror (ex_intro _ e (conj eq_refl I))))).
      cbn [answer final trace fst snd].
      destruct r; [destruct LK as (L & T); cbn [filter mutates]; rewrite T; auto |].
      destruct LK as (L & ->). auto.
    + cbn [run answer final trace fst snd existsb creates_link orb]. discriminate.
Qed.

(** The middle of [use] creates no link, whatever the surroundings. *)
Lemma fetch_no_link {W} (h : handler W) (l : local) (v : string) (sdkdir : fsx) (w : W) :
  existsb creates_link (trace (run h (fetch l v sdkdir) w)) = false.
Proof.
  unfold fetch, downloaded, command, printf, try.
  destruct (negb (contains l v)); cbn [run bind perform].
  - destruct (h _ (Print _) w) as [u w1].
    destruct (h _ (Run "go" _) w1) as [[u1 | e] w2]; cbn [run bind perform];
      [| reflexivity].
    destruct (h _ (Stat sdkdir _) w2) as [[info | e] w3];
      cbn [run bind perform negb]; [reflexivity |].
    destruct (h _ (Run _ _) w3) as [r w4]. reflexivity.
  - destruct (h _ (Stat sdkdir _) w) as [[info | e] w3];
      cbn [run bind perform negb]; [reflexivity |].
    destruct (h _ (Print _) w3) as [u w4].
    destruct (h _ (Run _ _) w4) as [r w5]. reflexivity.
Qed.

Lemma creates_link_mutates (t : list op) :
  forallb (fun o => negb (mutates o)) t = true -> existsb creates_link t = false.
Proof.
  induction t as [| o t IH]; simpl; [reflexivity |].
  intros H. apply andb_true_iff in H. destruct H as [H1 H2].
  rewrite (IH H2), orb_false_r.
  destruct o as [R c]. destruct c; try reflexivity; discriminate.
Qed.

(** [use] on a version that is neither the current nor the main one. *)
Lemma run_use_other {W} (h : handler W) less arg rest gobin sdkdir (w : W) l w1 t1 :
  run h (localVersions less gobin) w = (Ok l, w1, t1) ->
  MatchString versionRE (resolved l arg) = true ->
  resolved l arg <> current l ->
  resolved l arg <> main l ->
  run h (use less (arg :: rest) gobin sdkdir) w =
  let '(rf, wf, tf) := run h (fetch l (resolved l arg) sdkdir) w1 in
  match rf with
  | Ok _ =>
      let '(r, w2, t2) := run h (relink (resolved l arg) gobin) wf in
      (r, w2, t1 ++ tf ++ t2)
  | Err e => (Err e, wf, t1 ++ tf)
  end.
Proof.
  intros H M C E.
  rewrite (run_use h less arg rest gobin sdkdir w l w1 t1 H).
  unfold use_with. fold (resolved l arg). rewrite M.
  apply String.eqb_neq in C, E. rewrite C, E. cbn [negb].
  rewrite run_try.
  destruct (run h (fetch l (resolved l arg) sdkdir) w1) as [[[u | e] wf] tf];
    [| reflexivity].
  destruct (run h (relink (resolved l arg) gobin) wf) as [[r w2] t2]. reflexivity.
Qed.

(** A run of [use] that does not fail had a version of the grammar. *)
Lemma use_ok_valid {W} (h : handler W) less arg rest gobin sdkdir (w : W) l w1 t1 :
  run h (localVersions less gobin) w = (Ok l, w1, t1) ->
  (answer (run h (use less (arg :: rest) gobin sdkdir) w) = Ok tt \/
   existsb creates_link (trace (run h (use less (arg :: rest) gobin sdkdir) w)) = true) ->
  MatchString versionRE (resolved l arg) = true.
Proof.
  intros H R. destruct (MatchString versionRE (resolved l arg)) eqn:M; [reflexivity |].
  destruct (malformed_version_rejected_aux h less arg rest gobin sdkdir w l w1 t1 H M)
    as (U & T).
  rewrite U in R. cbn [answer trace fst snd] in R.
  rewrite (creates_link_mutates _ T) in R. destruct R; discriminate.
Qed.

(** When the version is installed and its SDK is there, the middle of
    [use] only probes the sentinel. *)
Lemma fetch_present {W} (h : handler W) (l : local) (v : string) (sdkdir : fsx) (w : W) :
  contains l v = true ->
  answer (run h (downloaded v sdkdir) w) = true ->
  run h (fetch l v sdkdir) w
  = (Ok tt, final (run h (downloaded v sdkdir) w),
     [Op (Stat sdkdir ("go" ++ v ++ "/.unpacked-success")%string)]).
Proof.
  intros C. unfold fetch, downloaded, try. rewrite C.
  cbn [negb run bind perform answer final fst snd].
  destruct (h _ (Stat sdkdir _) w) as [[info | e] w1];
    cbn [run answer final fst snd]; [reflexivity | discriminate].
Qed.

(** [use] creates a link only on its way to another version. *)
Lemma use_no_link_otherwise {W} (h : handler W) less arg rest gobin sdkdir (w : W) l w1 t1 :
  run h (localVersions less gobin) w = (Ok l, w1, t1) ->
  MatchString versionRE (resolved l arg) = true ->
  resolved l arg = current l \/ resolved l arg = main l ->
  existsb creates_link (trace (run h (use less (arg :: rest) gobin sdkdir) w)) = false.
Proof.
  intros H M E.
  pose proof (creates_link_mutates _ (reads_only_trace _ _ _ _ _ _ _ H)) as T.
  rewrite (run_use h less arg rest gobin sdkdir w l w1 t1 H).
  unfold use_with. fold (resolved l arg). rewrite M. cbn [negb].
  destruct (String.eqb (resolved l arg) (current l)) eqn:C.
  - unfold printf. cbn [run bind perform].
    destruct (h _ (Print _) w1) as [u w2]. cbn [trace snd].
    rewrite existsb_app, T. reflexivity.
  - destruct E as [E | E]; [apply String.eqb_neq in C; contradiction |].
    rewrite E, String.eqb_refl. unfold printf, try. cbn [run bind perform].
    destruct (h _ (Remove gobin "go") w1) as [[u | e] w2]; cbn [run].
    + destruct (h _ (Print _) w2) as [u' w3]. cbn [trace snd].
      rewrite existsb_app, T. reflexivity.
    + cbn [trace snd]. rewrite existsb_app, T. reflexivity.
Qed.

Lemma link_to_version (v : string) :
  MatchString versionRE v = true -> TrimPrefix (Base ("go" ++ v)) "go" = v.
Proof.
  intros M. rewrite Base_plain.
  - apply TrimPrefix_append.
  - discriminate.
  - rewrite bytes_append, existsb_app, (valid_no_slash _ M). reflexivity.
Qed.

(** C7.  When [use] succeeds for a version that is neither the current
    nor the main one of the starting snapshot, the link [go] points at
    [go<version>] and the next [localVersions] returns a snapshot whose
    current version is that version.  For a version that is installed
    with its SDK present, the removal of the old link and the creation of
    the new one are the only calls that change anything. *)
Theorem use_then_resolve less arg rest (w : world) (l : local) (w1 : world) (t1 : list op) :
  run mem_handler (localVersions less GoBin) w = (Ok l, w1, t1) ->
  resolved l arg <> current l ->
  resolved l arg <> main l ->
  answer (run mem_handler (use less (arg :: rest) GoBin SdkDir) w) = Ok tt ->
  lookup "go" (bin (final (run mem_handler (use less (arg :: rest) GoBin SdkDir) w)))
    = Some (Link ("go" ++ resolved l arg)) /\
  (exists l2,
      answer (run mem_handler (localVersions less GoBin)
                (final (run mem_handler (use less (arg :: rest) GoBin SdkDir) w))) = Ok l2 /\
      current l2 = resolved l arg) /\
  (contains l (resolved l arg) = true ->
   answer (run mem_handler (downloaded (resolved l arg) SdkDir) w1) = true ->
   filter mutates (trace (run mem_handler (use less (arg :: rest) GoBin SdkDir) w))
     = [Op (Remove GoBin "go");
        Op (Symlink GoBin ("go" ++ resolved l arg)%string "go")]).
Proof.
  intros H C E R.
  pose proof (use_ok_valid _ _ _ _ _ _ _ _ _ _ H (or_introl R)) as M.
  pose proof (proj1 (localVersions_mem less GoBin w l w1 t1) H) as (S & _ & _).
  pose proof (filter_none mutates t1 (reads_only_trace _ _ _ _ _ _ _ H)) as T1.
  assert (L : lookup "go" (bin (final (run mem_handler (use less (arg :: rest) GoBin SdkDir) w)))
              = Some (Link ("go" ++ resolved l arg))).
  { rewrite (run_use_other _ less arg rest GoBin SdkDir w l w1 t1 H M C E) in R |- *.
    destruct (run mem_handler (fetch l (resolved l arg) SdkDir) w1)
      as [[[u | e] wf] tf]; [| discriminate].
    pose proof (relink_mem (resolved l arg) wf) as P.
    destruct (run mem_handler (relink (resolved l arg) GoBin) wf) as [[r w2] t2].
    cbn [answer final trace fst snd] in *. subst r. exact (proj1 P). }
  split; [exact L |]. split.
  - destruct (next_snapshot less GoBin w l _ (use less (arg :: rest) GoBin SdkDir)
                (resolved l arg) S) as (l2 & A & Cu & _).
    { unfold link_state. cbn [dir_of]. rewrite L. symmetry. now apply link_to_version. }
    exists l2. auto.
  - intros I D.
    rewrite (run_use_other _ less arg rest GoBin SdkDir w l w1 t1 H M C E) in R |- *.
    rewrite (fetch_present _ _ _ _ _ I D) in R |- *.
    pose proof (relink_mem (resolved l arg)
                  (final (run mem_handler (downloaded (resolved l arg) SdkDir) w1))) as P.
    destruct (run mem_handler (relink (resolved l arg) GoBin) _) as [[r w2] t2].
    cbn [answer final trace fst snd] in *. subst r.
    rewrite !filter_app, T1, (proj2 P). reflexivity.
Qed.

Lemma use_then_resolve_witness :
  lookup "go" (bin (final (run mem_handler (use versionLess ["1.20"] GoBin SdkDir) installed_1_20)))
    = Some (Link "go1.20") /\
  (exists l2,
      answer (run mem_handler (localVersions versionLess GoBin)
                (final (run mem_handler (use versionLess ["1.20"] GoBin SdkDir) installed_1_20)))
        = Ok l2 /\
      current l2 = "1.20") /\
  filter mutates (trace (run mem_handler (use versionLess ["1.20"] GoBin SdkDir) installed_1_20))
    = [Op (Remove GoBin "go"); Op (Symlink GoBin "go1.20" "go")].
Proof.
  assert (C : "1.20" <> "1.21") by discriminate.
  destruct (use_then_resolve versionLess "1.20" [] installed_1_20
              {| main := "1.21"; current := "1.21"; list_ := ["1.20"; "1.21"] |}
              (path_restored installed_1_20) _ eq_refl C C eq_refl) as (L & N & T).
  split; [exact L |]. split; [exact N |]. exact (T eq_refl eq_refl).
Defined.

(** C10.  When [use] fails after it has called for the new link, the
    call for the link is the last one and the removal of the old link
    the one just before it; in the state [use] leaves there is no link
    [go], and the next snapshot has the main version as its current
    version, whatever the current version was before the call. *)
Theorem use_link_failure less arg rest (w : world) (l : local) (w1 : world)
        (t1 : list op) (e : error) :
  run mem_handler (localVersions less GoBin) w = (Ok l, w1, t1) ->
  answer (run mem_handler (use less (arg :: rest) GoBin SdkDir) w) = Err e ->
  existsb creates_link (trace (run mem_handler (use less (arg :: rest) GoBin SdkDir) w)) = true ->
  (exists before,
      trace (run mem_handler (use less (arg :: rest) GoBin SdkDir) w)
      = before ++ [Op (Remove GoBin "go");
                   Op (Symlink GoBin ("go" ++ resolved l arg)%string "go")]) /\
  lookup "go" (bin (final (run mem_handler (use less (arg :: rest) GoBin SdkDir) w))) = None /\
  exists l2,
    answer (run mem_handler (localVersions less GoBin)
              (final (run mem_handler (use less (arg :: rest) GoBin SdkDir) w))) = Ok l2 /\
    current l2 = main l2 /\ main l2 = main l /\
    (current l <> main l -> current l2 <> current l).
Proof.
  intros H R X.
  pose proof (use_ok_valid _ _ _ _ _ _ _ _ _ _ H (or_intror X)) as M.
  pose proof (proj1 (localVersions_mem less GoBin w l w1 t1) H) as (S & _ & _).
  pose proof (creates_link_mutates _ (reads_only_trace _ _ _ _ _ _ _ H)) as T1.
  assert (C : resolved l arg <> current l).
  { intros C. rewrite (use_no_link_otherwise _ _ _ _ _ _ _ _ _ _ H M (or_introl C)) in X.
    discriminate. }
  assert (E : resolved l arg <> main l).
  { intros E. rewrite (use_no_link_otherwise _ _ _ _ _ _ _ _ _ _ H M (or_intror E)) in X.
    discriminate. }
  assert (P : (exists before,
                  trace (run mem_handler (use less (arg :: rest) GoBin SdkDir) w)
                  = before ++ [Op (Remove GoBin "go");
                               Op (Symlink GoBin ("go" ++ resolved l arg)%string "go")]) /\
              lookup "go" (bin (final (run mem_handler
                                         (use less (arg :: rest) GoBin SdkDir) w))) = None).
  { rewrite (run_use_other _ less arg rest GoBin SdkDir w l w1 t1 H M C E) in R, X |- *.
    pose proof (fetch_no_link mem_handler l (resolved l arg) SdkDir w1) as F.
    destruct (run mem_handler (fetch l (resolved l arg) SdkDir) w1)
      as [[[u | e'] wf] tf]; cbn [trace snd] in F.
    - pose proof (relink_mem (resolved l arg) wf) as P.
      destruct (run mem_handler (relink (resolved l arg) GoBin) wf) as [[r w2] t2].
      cbn [answer final trace fst snd] in *. subst r.
      rewrite !existsb_app, T1, F in X. cbn [orb] in X.
      destruct (P X) as (L & ->). split; [| exact L].
      exists (t1 ++ tf). now rewrite app_assoc.
    - cbn [trace snd] in X. rewrite existsb_app, T1, F in X. discriminate. }
  destruct P as (P & L). split; [exact P |]. split; [exact L |].
  destruct (next_snapshot less GoBin w l _ (use less (arg :: rest) GoBin SdkDir)
              (main l) S) as (l2 & A & Cu & Ma).
  { unfold link_state. cbn [dir_of]. now rewrite L. }
  exists l2. repeat split; congruence.
Qed.

Lemma use_link_failure_witness :
  answer (run mem_handler (localVersions versionLess GoBin) full_disk)
    = Ok {| main := "1.21"; current := "1.20"; list_ := ["1.19"; "1.20"; "1.21"] |} /\
  answer (run mem_handler (use versionLess ["1.19"] GoBin SdkDir) full_disk)
    = Err (ErrIO "no space left on device") /\
  lookup "go" (bin (final (run mem_handler (use versionLess ["1.19"] GoBin SdkDir) full_disk)))
    = None /\
  exists l2,
    answer (run mem_handler (localVersions versionLess GoBin)
              (final (run mem_handler (use versionLess ["1.19"] GoBin SdkDir) full_disk)))
      = Ok l2 /\
    current l2 = "1.21".
Proof.
  split; [reflexivity |]. split; [reflexivity |].
  destruct (use_link_failure versionLess "1.19" [] full_disk
              {| main := "1.21"; current := "1.20"; list_ := ["1.19"; "1.20"; "1.21"] |}
              (path_restored full_disk) _ (ErrIO "no space left on device")
              eq_refl eq_refl eq_refl) as (_ & L & l2 & A & Cu & Ma & _).
  split; [exact L |]. exists l2. split; [exact A |]. rewrite Cu, Ma. reflexivity.
Defined.

(* ================================================================= *)
(** ** C6: removing the current version *)

Lemma mem_RemoveAll_spec (d : fsx) (path : string) (w : world) :
  match fst (mem_handler (RemoveAll d path) w) with
  | Ok _ =>
      dir_of (snd (mem_handler (RemoveAll d path) w)) d
        = filter (fun e => negb (String.eqb (fst e) path || below path (fst e)))
                 (dir_of w d) /\
      (forall d', d' <> d -> dir_of (snd (mem_handler (RemoveAll d path) w)) d' = dir_of w d')
  | Err e => snd (mem_handler (RemoveAll d path) w) = w
  end.
Proof.
  cbn [mem_handler]. unfold guarded, mem_RemoveAll.
  destruct (fault w _); [reflexivity |].
  destruct d; cbn; (split; [reflexivity |]); intros [|] N; try reflexivity; congruence.
Qed.

(** C6.  When [remove] succeeds for a version that is the current one
    and not the main one, the calls that change anything are, in this
    order, the removal of the link [go], the removal of the binary
    [go<version>] and the recursive removal of the SDK directory
    [go<version>]; afterwards there is no link [go], no binary
    [go<version>] and nothing at or below [go<version>] in the SDK
    directory, and the next snapshot has the main version as its current
    version. *)
Theorem remove_current less arg rest (w : world) (l : local) (w1 : world) (t1 : list op) :
  run mem_handler (localVersions less GoBin) w = (Ok l, w1, t1) ->
  resolved l arg = current l ->
  resolved l arg <> main l ->
  answer (run mem_handler (remove less (arg :: rest) GoBin SdkDir) w) = Ok tt ->
  filter mutates (trace (run mem_handler (remove less (arg :: rest) GoBin SdkDir) w))
    = [Op (Remove GoBin "go");
       Op (Remove GoBin ("go" ++ resolved l arg)%string);
       Op (RemoveAll SdkDir ("go" ++ resolved l arg)%string)] /\
  lookup "go" (bin (final (run mem_handler (remove less (arg :: rest) GoBin SdkDir) w))) = None /\
  lookup ("go" ++ resolved l arg)
         (bin (final (run mem_handler (remove less (arg :: rest) GoBin SdkDir) w))) = None /\
  (forall p,
      p = ("go" ++ resolved l arg)%string \/ below ("go" ++ resolved l arg) p = true ->
      lookup p (sdk (final (run mem_handler (remove less (arg :: rest) GoBin SdkDir) w))) = None) /\
  exists l2,
    answer (run mem_handler (localVersions less GoBin)
              (final (run mem_handler (remove less (arg :: rest) GoBin SdkDir) w))) = Ok l2 /\
    current l2 = main l2 /\ main l2 = main l.
Proof.
  intros H C E R.
  pose proof (proj1 (localVersions_mem less GoBin w l w1 t1) H) as (S & _ & _).
  pose proof (filter_none mutates t1 (reads_only_trace _ _ _ _ _ _ _ H)) as T1.
  set (v := resolved l arg) in *.
  assert (Post :
    filter mutates (trace (run mem_handler (remove less (arg :: rest) GoBin SdkDir) w))
      = [Op (Remove GoBin "go"); Op (Remove GoBin ("go" ++ v)%string);
         Op (RemoveAll SdkDir ("go" ++ v)%string)] /\
    bin (final (run mem_handler (remove less (arg :: rest) GoBin SdkDir) w))
      = delete ("go" ++ v) (delete "go" (bin w1)) /\
    sdk (final (run mem_handler (remove less (arg :: rest) GoBin SdkDir) w))
      = filter (fun e => negb (String.eqb (fst e) ("go" ++ v) || below ("go" ++ v) (fst e)))
               (sdk w1)).
  { rewrite (run_remove _ less arg rest GoBin SdkDir w l w1 t1 H) in R |- *.
    unfold remove_with in *. fold (resolved l arg) in *. fold v in R |- *.
    destruct (MatchString versionRE v); [| discriminate].
    destruct (contains l v); [| discriminate].
    apply String.eqb_neq in E. rewrite E in R |- *.
    rewrite C, String.eqb_refl in R |- *. rewrite <- C in R |- *.
    unfold try, printf in *. cbn [negb run bind perform] in R |- *.
    pose proof (mem_Remove_spec GoBin "go" w1) as P1.
    destruct (mem_handler (Remove GoBin "go") w1) as [[u | e] w2];
      cbn [run bind fst snd] in *; [| discriminate].
    pose proof (mem_Print_spec ("Switched to " ++ main l ++ " (main)" ++ LF) w2) as Q1.
    destruct (mem_handler (Print _) w2) as [u1 w3]; cbn [run bind fst snd] in *.
    pose proof (mem_Remove_spec GoBin ("go" ++ v) w3) as P2.
    destruct (mem_handler (Remove GoBin ("go" ++ v)%string) w3) as [[u2 | e] w4];
      cbn [run bind fst snd] in *; [| discriminate].
    pose proof (mem_RemoveAll_spec SdkDir ("go" ++ v) w4) as P3.
    destruct (mem_handler (RemoveAll SdkDir ("go" ++ v)%string) w4) as [[u3 | e] w5];
      cbn [run bind fst snd] in *; [| discriminate].
    pose proof (mem_Print_spec ("Removed " ++ v ++ LF) w5) as Q2.
    destruct (mem_handler (Print _) w5) as [u4 w6]; cbn [run bind fst snd] in *.
    cbn [answer final trace fst snd].
    assert (D : SdkDir <> GoBin) by discriminate.
    assert (D' : GoBin <> SdkDir) by discriminate.
    destruct P1 as (P1 & _ & O1), P2 as (P2 & _ & O2), P3 as (P3 & O3).
    split; [rewrite filter_app, T1; reflexivity |]. split.
    - change (bin w6) with (dir_of w6 GoBin).
      rewrite Q2, (O3 _ D'), P2, Q1, P1. reflexivity.
    - change (sdk w6) with (dir_of w6 SdkDir).
      rewrite Q2, P3, (O2 _ D), Q1, (O1 _ D). reflexivity. }
  destruct Post as (T & B & K).
  assert (L : lookup "go" (bin (final (run mem_handler
                (remove less (arg :: rest) GoBin SdkDir) w))) = None).
  { rewrite B. apply lookup_delete_other, lookup_delete. }
  split; [exact T |]. split; [exact L |]. split; [rewrite B; apply lookup_delete |].
  split.
  - intros p Hp. rewrite K.
    apply (lookup_filter_out
             (fun n => negb (String.eqb n ("go" ++ v) || below ("go" ++ v) n))).
    apply negb_false_iff, orb_true_iff.
    destruct Hp as [-> | Hp]; [left; apply String.eqb_refl | now right].
  - destruct (next_snapshot less GoBin w l _ (remove less (arg :: rest) GoBin SdkDir)
                (main l) S) as (l2 & A & Cu & Ma).
    { unfold link_state. cbn [dir_of]. now rewrite L. }
    exists l2. repeat split; congruence.
Qed.

Lemma remove_current_witness :
  answer (run mem_handler (remove versionLess ["1.20"] GoBin SdkDir) switched) = Ok tt /\
  filter mutates (trace (run mem_handler (remove versionLess ["1.20"] GoBin SdkDir) switched))
    = [Op (Remove GoBin "go"); Op (Remove GoBin "go1.20"); Op (RemoveAll SdkDir "go1.20")] /\
  lookup "go1.20/.unpacked-success"
         (sdk (final (run mem_handler (remove versionLess ["1.20"] GoBin SdkDir) switched)))
    = None /\
  exists l2,
    answer (run mem_handler (localVersions versionLess GoBin)
              (final (run mem_handler (remove versionLess ["1.20"] GoBin SdkDir) switched)))
      = Ok l2 /\
    current l2 = "1.21".
Proof.
  assert (E : "1.20" <> "1.21") by discriminate.
  destruct (remove_current versionLess "1.20" [] switched
              {| main := "1.21"; current := "1.20"; list_ := ["1.20"; "1.21"] |}
              (path_restored switched) _ eq_refl eq_refl E eq_refl)
    as (T & _ & _ & K & l2 & A & Cu & Ma).
  split; [reflexivity |]. split; [exact T |].
  split; [apply K; right; reflexivity |].
  exists l2. split; [exact A |]. rewrite Cu, Ma. reflexivity.
Defined.

(* ================================================================= *)
(** * Further properties of the code *)

(* ================================================================= *)
(** ** Splitting and joining *)

Lemma split_on_cons (sep : ascii) (w : word) :
  exists f fs, split_on sep w = f :: fs.
Proof.
  induction w as [| c w (f & fs & IH)]; simpl; [eauto |].
  destruct (Ascii.eqb c sep); [eauto |]. rewrite IH. eauto.
Qed.

Lemma split_on_no_sep (sep : ascii) (w : word) :
  forall f, In f (split_on sep w) -> ~ In sep f.
Proof.
  induction w as [| c w IH]; simpl; intros f H.
  - destruct H as [<- | []]. intros [].
  - destruct (Ascii.eqb c sep) eqn:E.
    + destruct H as [<- | H]; [intros [] | auto].
    + apply Ascii.eqb_neq in E.
      destruct (split_on sep w) as [| g gs]; simpl in H.
      * destruct H as [<- | []]. intros [X | []]. congruence.
      * destruct H as [<- | H]; [| apply IH; now right].
        intros [X | X]; [congruence |]. apply (IH g); [now left | assumption].
Qed.

Lemma split_on_plain (sep : ascii) (f w : word) :
  ~ In sep f -> split_on sep (f ++ sep :: w) = f :: split_on sep w.
Proof.
  induction f as [| c f IH]; simpl; intros N.
  - now rewrite Ascii.eqb_refl.
  - destruct (Ascii.eqb c sep) eqn:E.
    + apply Ascii.eqb_eq in E. tauto.
    + rewrite IH by tauto. reflexivity.
Qed.

Lemma split_on_single (sep : ascii) (f : word) :
  ~ In sep f -> split_on sep f = [f].
Proof.
  induction f as [| c f IH]; simpl; intros N; [reflexivity |].
  destruct (Ascii.eqb c sep) eqn:E.
  - apply Ascii.eqb_eq in E. tauto.
  - rewrite IH by tauto. reflexivity.
Qed.

Lemma str_app (a b : word) : str (a ++ b) = (str a ++ str b)%string.
Proof. induction a as [| c a IH]; simpl; [reflexivity | now rewrite IH]. Qed.

Lemma Join_cons (e e' : string) (es : list string) (sep : string) :
  Join (e :: e' :: es) sep = (e ++ sep ++ Join (e' :: es) sep)%string.
Proof. reflexivity. Qed.

Lemma Join_push (c : ascii) (f : word) (fs : list word) (sep : string) :
  Join (map str ((c :: f) :: fs)) sep = String c (Join (map str (f :: fs)) sep).
Proof. destruct fs; reflexivity. Qed.

(** Joining what was split gives the string back. *)
Lemma Join_Split (s : string) (sep : ascii) :
  Join (Split s sep) (String sep "") = s.
Proof.
  unfold Split. rewrite <- (str_bytes s) at 2.
  generalize (bytes s) as w. clear s.
  induction w as [| c w IH]; [reflexivity |].
  simpl split_on. destruct (split_on_cons sep w) as (f & fs & E).
  rewrite E in IH |- *. destruct (Ascii.eqb c sep) eqn:C.
  - apply Ascii.eqb_eq in C. subst c.
    change (map str ([] :: f :: fs)) with ("" :: str f :: map str fs).
    rewrite Join_cons. change (str f :: map str fs) with (map str (f :: fs)).
    rewrite IH. reflexivity.
  - rewrite Join_push, IH. reflexivity.
Qed.

(** Splitting what was joined gives the fields back, when there is a
    field and no field holds the separator. *)
Lemma Split_Join (l : list string) (sep : ascii) :
  l <> [] -> (forall e, In e l -> ~ In sep (bytes e)) ->
  Split (Join l (String sep "")) sep = l.
Proof.
  unfold Split. induction l as [| e l IH]; intros N F; [congruence |].
  destruct l as [| e' l].
  - cbn [Join]. rewrite split_on_single by (apply F; now left).
    cbn. now rewrite str_bytes.
  - rewrite Join_cons, !bytes_append. cbn [bytes list_ascii_of_string app].
    change (list_ascii_of_string ?x) with (bytes x).
    rewrite split_on_plain by (apply F; now left).
    cbn [map]. rewrite str_bytes. f_equal.
    apply IH; [discriminate |]. intros x Hx. apply F. now right.
Qed.

Lemma Split_no_sep (s : string) (sep : ascii) :
  forall e, In e (Split s sep) -> ~ In sep (bytes e).
Proof.
  unfold Split. intros e H. apply in_map_iff in H. destruct H as (f & <- & H).
  rewrite bytes_str. exact (split_on_no_sep sep (bytes s) f H).
Qed.

Lemma length_split_on (sep : ascii) (w : word) :
  List.length (split_on sep w)
  = S (List.length (filter (fun c => Ascii.eqb c sep) w)).
Proof.
  induction w as [| c w IH]; [reflexivity |]. simpl.
  destruct (Ascii.eqb c sep); simpl; [now rewrite IH |].
  destruct (split_on sep w); simpl in *; congruence.
Qed.

(* ================================================================= *)
(** ** cutFromPath *)

Lemma filter_all {A} (f : A -> bool) (l : list A) :
  (forall x, In x l -> f x = true) -> filter f l = l.
Proof.
  induction l as [| a l IH]; simpl; intros H; [reflexivity |].
  rewrite (H a (or_introl eq_refl)), IH; auto.
Qed.

(** X1.  [cutFromPath] cuts every occurrence of a non-empty value: the
    value is no element of the result, and as long as another element is
    left the elements of the result are those of the path other than the
    value, in their order. *)
Theorem cutFromPath_cuts (path value : string) :
  value <> "" ->
  ~ In value (Split (cutFromPath path value) PathListSeparator) /\
  (filter (fun v => negb (String.eqb v value)) (Split path PathListSeparator) <> [] ->
   Split (cutFromPath path value) PathListSeparator
   = filter (fun v => negb (String.eqb v value)) (Split path PathListSeparator)).
Proof.
  intros N. unfold cutFromPath.
  set (kept := filter (fun v => negb (String.eqb v value)) (Split path PathListSeparator)).
  assert (K : kept <> [] -> Split (Join kept (String PathListSeparator "")) PathListSeparator = kept).
  { intros NE. apply Split_Join; [exact NE |].
    intros e He. apply filter_In in He. apply (Split_no_sep path). tauto. }
  split; [| exact K].
  destruct kept as [| e es] eqn:E.
  - cbn. intros [H | []]. congruence.
  - rewrite K by discriminate. rewrite <- E. unfold kept. intros H.
    apply filter_In in H. destruct H as [_ H].
    rewrite String.eqb_refl in H. discriminate.
Qed.

Lemma cutFromPath_cuts_witness :
  Split (cutFromPath "/usr/local/go/bin:/home/gopher/go/bin:/usr/bin:/home/gopher/go/bin"
                     "/home/gopher/go/bin") PathListSeparator
  = ["/usr/local/go/bin"; "/usr/bin"].
Proof.
  assert (N : "/home/gopher/go/bin" <> "") by discriminate.
  destruct (cutFromPath_cuts
              "/usr/local/go/bin:/home/gopher/go/bin:/usr/bin:/home/gopher/go/bin"
              "/home/gopher/go/bin" N) as (_ & K).
  rewrite K; [reflexivity | discriminate].
Defined.

(** X2.  [cutFromPath] gives the path back when the value is none of its
    elements; in particular cutting twice is cutting once. *)
Theorem cutFromPath_absent (path value : string) :
  ~ In value (Split path PathListSeparator) ->
  cutFromPath path value = path.
Proof.
  intros N. unfold cutFromPath. rewrite filter_all; [apply Join_Split |].
  intros x Hx. apply negb_true_iff, String.eqb_neq. congruence.
Qed.

Lemma cutFromPath_absent_witness :
  cutFromPath "/usr/local/go/bin:/usr/bin" "/home/gopher/go/bin"
  = "/usr/local/go/bin:/usr/bin".
Proof.
  apply cutFromPath_absent. cbn. intros [H | [H | []]]; discriminate.
Defined.

(** X3.  A path that has no element but the value becomes the empty
    string: so does the empty path for the empty value, which is what an
    unset [GOBIN] gives. *)
Theorem cutFromPath_everything (path value : string) :
  (forall v, In v (Split path PathListSeparator) -> v = value) ->
  cutFromPath path value = "".
Proof.
  intros H. unfold cutFromPath.
  assert (E : filter (fun v => negb (String.eqb v value)) (Split path PathListSeparator) = []).
  { induction (Split path PathListSeparator) as [| a l IH]; [reflexivity |].
    simpl. rewrite (H a (or_introl eq_refl)), String.eqb_refl. simpl.
    apply IH. intros v Hv. apply H. now right. }
  now rewrite E.
Qed.

Lemma cutFromPath_everything_witness :
  cutFromPath "" "" = "" /\ cutFromPath "::" "" = "" /\
  cutFromPath "/home/gopher/go/bin" "/home/gopher/go/bin" = "".
Proof.
  split; [| split]; apply cutFromPath_everything; cbn; intros v H;
    repeat (destruct H as [<- | H]; [reflexivity |]); destruct H.
Defined.

(* ================================================================= *)
(** ** More on localVersions *)

Ltac split_matches :=
  repeat match goal with
         | |- context [match ?x with _ => _ end] => destruct x eqn:?
         end.

(** On the in-memory file system [resolve] changes nothing, and its
    answer and its calls do not depend on the environment. *)
Lemma resolve_mem_any less d (w : world) (e : list (string * string)) :
  run mem_handler (resolve less d) (set_environ w e)
  = (answer (run mem_handler (resolve less d) w), set_environ w e,
     trace (run mem_handler (resolve less d) w)).
Proof.
  rewrite !run_resolve, !mem_Output_go_version. cbn [mem_handler].
  unfold guarded.
  repeat (cbn [fault go_version set_environ is_not_exist];
          rewrite ?dir_of_set_environ;
          match goal with
          | |- context [fault w ?o] => destruct (fault w o)
          | |- context [go_version w] => destruct (go_version w)
          | |- context [negb ?b] => destruct (negb b)
          | |- context [mem_Readlink ?a ?b] => destruct (mem_Readlink a b)
          | |- context [mem_ReadDir ?a ?b] => destruct (mem_ReadDir a b)
          | |- context [is_not_exist ?x] => destruct (is_not_exist x)
          end); reflexivity.
Qed.

Lemma set_environ_same (w : world) : set_environ w (environ w) = w.
Proof. destruct w; reflexivity. Qed.

Lemma set_environ_twice (w : world) (e e' : list (string * string)) :
  set_environ (set_environ w e) e' = set_environ w e'.
Proof. reflexivity. Qed.

(** [localVersions] on the in-memory file system, whatever it returns. *)
Lemma localVersions_mem_any less d (w : world) :
  answer (run mem_handler (localVersions less d) w)
    = answer (run mem_handler (resolve less d) w) /\
  final (run mem_handler (localVersions less d) w) = path_restored w.
Proof.
  rewrite run_localVersions. cbn [mem_handler].
  rewrite resolve_mem_any. cbn [set_environ environ]. split; reflexivity.
Qed.


(** X5.  On the in-memory file system [localVersions] returns a snapshot
    exactly when [go version] ran and printed a line with three blanks,
    none of its three calls failed for a reason of its own, and the entry
    [go] of the bin directory is missing or is a link. *)
Theorem localVersions_succeeds_iff less d (w : world) :
  (exists l, answer (run mem_handler (localVersions less d) w) = Ok l) <->
  (exists output, go_version w = Ok output /\ count_blanks output = 3) /\
  (forall o, In o (snapshot_calls d) -> fault w o = None) /\
  (lookup "go" (dir_of w d) = None \/
   exists target, lookup "go" (dir_of w d) = Some (Link target)).
Proof.
  assert (B : forall output,
             List.length (Split output " ") = 4 <-> count_blanks output = 3).
  { intros output. unfold Split, count_blanks.
    rewrite length_map, length_split_on. split; intros H; congruence. }
  split.
  - intros (l & A).
    destruct (run mem_handler (localVersions less d) w) as [[r w'] t] eqn:R.
    cbn [answer fst] in A. subst r.
    apply localVersions_mem in R.
    destruct R as (((output & G & N & _) & F & L & _) & _ & _).
    split; [exists output; split; [exact G | now apply B] |].
    split; [exact F |].
    unfold link_state in L.
    destruct (lookup "go" (dir_of w d)) as [[| | target] |]; try contradiction; eauto.
  - intros ((output & G & N) & F & L). apply B in N.
    set (cur := match lookup "go" (dir_of w d) with
                | Some (Link target) => TrimPrefix (Base target) "go"
                | _ => main_of output
                end).
    exists {| main := main_of output; current := cur;
              list_ := sort_Slice less (collect (main_of output) (entries_of (dir_of w d))) |}.
    apply localVersions_mem_run. unfold snapshot_of. cbn [main current list_].
    split; [eauto |]. split; [exact F |]. split; [| reflexivity].
    unfold link_state, cur.
    destruct L as [-> | (target & ->)]; reflexivity.
Qed.

(** X6.  Every version of the list of a snapshot is the main version or
    passes [versionRE], whatever the surroundings answer. *)
Theorem localVersions_list_members {W} (h : handler W) less d (w : W) l w1 t1 :
  run h (localVersions less d) w = (Ok l, w1, t1) ->
  forall v, In v (list_ l) -> v = main l \/ MatchString versionRE v = true.
Proof.
  intros H v Hv. apply localVersions_inv in H. destruct H as (entries & E).
  rewrite E in Hv.
  apply (Permutation_in _ (sort_Slice_perm _ _)) in Hv.
  rewrite collect_eq in Hv. destruct Hv as [<- | Hv]; [now left | right].
  apply in_flat_map in Hv. destruct Hv as (entry & _ & Hv).
  unfold version_of in Hv. destruct (IsDir entry); [contradiction |].
  destruct (MatchString versionRE (TrimPrefix (Name entry) "go")) eqn:M;
    [| contradiction].
  destruct Hv as [<- | []]. exact M.
Qed.

Lemma localVersions_list_members_witness :
  "1.20" = "1.21" \/ MatchString versionRE "1.20" = true.
Proof.
  apply (localVersions_list_members mem_handler versionLess GoBin dangling
           {| main := "1.21"; current := "1.19"; list_ := ["1.20"; "1.21"] |}
           (path_restored dangling) _ eq_refl "1.20").
  now left.
Defined.

(** X7.  Two calls of [localVersions] in a row give the same answer on
    the in-memory file system, a snapshot or an error. *)
Theorem localVersions_idempotent less d (w : world) :
  answer (run mem_handler (localVersions less d)
            (final (run mem_handler (localVersions less d) w)))
  = answer (run mem_handler (localVersions less d) w).
Proof.
  rewrite (proj2 (localVersions_mem_any less d w)).
  rewrite !(proj1 (localVersions_mem_any less d _)).
  unfold path_restored. now rewrite resolve_mem_any.
Qed.

(** X8.  [localVersions] takes the main version from the third of the
    four fields of the line [go version] prints, whatever the other
    fields are: the field without a leading [go], or the field itself
    when it does not start with [go]. *)
Theorem localVersions_main_field less d (w : world) l w' t (f1 f2 f3 f4 : string) :
  run mem_handler (localVersions less d) w = (Ok l, w', t) ->
  go_version w = Ok (f1 ++ " " ++ f2 ++ " " ++ f3 ++ " " ++ f4)%string ->
  (forall f, In f [f1; f2; f3; f4] -> ~ In " "%char (bytes f)) ->
  main l = TrimPrefix f3 "go".
Proof.
  intros H G F. apply localVersions_mem in H.
  destruct H as (((output & G' & _ & M) & _) & _).
  rewrite G in G'. injection G' as <-. rewrite M. unfold main_of.
  change (f1 ++ String " " (f2 ++ String " " (f3 ++ String " " f4)))%string
    with (Join [f1; f2; f3; f4] (String " " "")).
  rewrite Split_Join; [reflexivity | discriminate | exact F].
Qed.

Lemma localVersions_main_field_witness :
  main {| main := "1.21"; current := "1.20"; list_ := ["1.20"; "1.21"] |}
  = TrimPrefix "go1.21" "go".
Proof.
  apply (localVersions_main_field versionLess GoBin switched _
           (path_restored switched) _ "go" "version" "go1.21" ("linux/amd64" ++ LF)
           eq_refl eq_refl).
  intros f [<- | [<- | [<- | [<- | []]]]]; cbn;
    intros H; repeat (destruct H as [H | H]; [discriminate |]); destruct H.
Defined.

Lemma take_while_stop (f : ascii -> bool) (a : word) (x : ascii) (b : word) :
  forallb f a = true -> f x = false -> take_while f (a ++ x :: b) = a.
Proof.
  induction a as [| c a IH]; simpl; intros A X; [now rewrite X |].
  apply andb_true_iff in A. destruct A as [A1 A2]. rewrite A1. now rewrite IH.
Qed.

Lemma no_slash_rev (w : word) :
  existsb is_slash w = false -> forallb (fun c => negb (is_slash c)) (rev w) = true.
Proof.
  intros H. apply forallb_forall. intros c Hc. apply in_rev in Hc.
  destruct (is_slash c) eqn:S; [| reflexivity].
  assert (X : existsb is_slash w = true) by (apply existsb_exists; eauto).
  congruence.
Qed.

(** [filepath.Base] of a path that ends in a slash and a plain name is
    that name. *)
Lemma Base_in_dir (dir name : string) :
  name <> "" -> existsb is_slash (bytes name) = false ->
  Base (dir ++ "/" ++ name) = name.
Proof.
  intros N S. unfold Base. rewrite !bytes_append.
  change (bytes "/") with ["/"%char]. cbn [app].
  destruct (bytes dir ++ "/"%char :: bytes name) as [| c0 w0] eqn:E.
  { destruct (bytes dir); discriminate. }
  rewrite <- E. clear E c0 w0. cbv zeta.
  rewrite rev_app_distr. cbn [rev]. rewrite <- app_assoc. cbn [app].
  pose proof (no_slash_rev _ S) as R.
  assert (D : drop_while is_slash (rev (bytes name) ++ "/"%char :: rev (bytes dir))
              = rev (bytes name) ++ "/"%char :: rev (bytes dir)).
  { destruct (rev (bytes name)) as [| y l] eqn:Y.
    - apply (f_equal (@rev ascii)) in Y. rewrite rev_involutive in Y.
      destruct name; [congruence | discriminate].
    - cbn in R |- *. apply andb_true_iff in R. destruct R as [R _].
      apply negb_true_iff in R. now rewrite R. }
  rewrite D.
  rewrite (take_while_stop (fun c => negb (is_slash c)) _ "/"%char _ R eq_refl).
  rewrite rev_involutive.
  destruct (bytes name) eqn:B; [destruct name; [congruence | discriminate] |].
  rewrite <- B. apply str_bytes.
Qed.

(** X9.  When the link [go] holds the name [go<v>], alone or at the end
    of a path, the current version of the snapshot is [v]. *)
Theorem localVersions_current_of_link less (w : world) l w' t (target v : string) :
  run mem_handler (localVersions less GoBin) w = (Ok l, w', t) ->
  lookup "go" (bin w) = Some (Link target) ->
  existsb is_slash (bytes v) = false ->
  (target = "go" ++ v \/ exists dir, target = dir ++ "/" ++ "go" ++ v)%string ->
  current l = v.
Proof.
  intros H L S T. apply localVersions_mem in H.
  destruct H as ((_ & _ & K & _) & _). unfold link_state in K.
  cbn [dir_of] in K. rewrite L in K. rewrite K.
  assert (P : existsb is_slash (bytes ("go" ++ v)) = false).
  { rewrite bytes_append, existsb_app, S. reflexivity. }
  assert (N : ("go" ++ v)%string <> "") by discriminate.
  destruct T as [-> | (dir & ->)].
  - rewrite (Base_plain _ N P). apply TrimPrefix_append.
  - rewrite (Base_in_dir dir _ N P). apply TrimPrefix_append.
Qed.

Lemma localVersions_current_of_link_witness :
  exists l,
    answer (run mem_handler (localVersions versionLess GoBin)
              (with_bin switched [("go", Link "/home/gopher/go/bin/go1.20");
                                  ("go1.20", File [])])) = Ok l /\
    current l = "1.20".
Proof.
  eexists. split; [reflexivity |].
  apply (localVersions_current_of_link versionLess
           (with_bin switched [("go", Link "/home/gopher/go/bin/go1.20");
                               ("go1.20", File [])])
           _ (path_restored (with_bin switched [("go", Link "/home/gopher/go/bin/go1.20");
                                                ("go1.20", File [])])) _
           "/home/gopher/go/bin/go1.20" "1.20" eq_refl eq_refl eq_refl).
  right. exists "/home/gopher/go/bin". reflexivity.
Defined.

(* ================================================================= *)
(** ** More on versionRE *)

(** X10.  [versionRE] matches exactly the strings that are [1], then at
    most two groups of a dot and a number without a leading zero, then at
    most one group of [rc] or [beta] and one or more digits from [1] to
    [9]. *)
Theorem versionRE_accepts_exactly (s : string) :
  MatchString versionRE s = true <->
  exists minor patch pre,
    bytes s = "1"%char :: minor ++ patch ++ pre /\
    optional dot_part minor /\ optional dot_part patch /\
    optional (pre_part nonzero_digits) pre.
Proof. exact (versionRE_language s). Qed.

Lemma mentions_versionRE (c : ascii) :
  mentions versionRE c = true -> version_byte c = true.
Proof.
  destruct c as [[|] [|] [|] [|] [|] [|] [|] [|]]; vm_compute; intros H;
    first [reflexivity | discriminate H].
Qed.

(** X11.  A version that [versionRE] accepts is a plain file name: it is
    made of digits, dots and the letters of [rc] and [beta] only, it
    starts with [1], and [go<version>] is a single path element other
    than the link [go] itself. *)
Theorem valid_version_plain_name (v : string) :
  MatchString versionRE v = true ->
  forallb version_byte (bytes v) = true /\
  (exists rest, v = String "1" rest) /\
  Base ("go" ++ v) = ("go" ++ v)%string /\
  ("go" ++ v)%string <> "go".
Proof.
  intros M. split; [| split; [| split]].
  - apply forallb_forall. intros c Hc. apply mentions_versionRE.
    apply matches_lang in M. exact (lang_mentions _ _ M c Hc).
  - exact (valid_starts_with_1 v M).
  - apply Base_plain; [discriminate |].
    rewrite bytes_append, existsb_app, (valid_no_slash _ M). reflexivity.
  - destruct (valid_starts_with_1 v M) as (rest & ->). discriminate.
Qed.

Lemma valid_version_plain_name_witness :
  Base "go1.21.3rc2" = "go1.21.3rc2".
Proof. exact (proj1 (proj2 (proj2 (valid_version_plain_name "1.21.3rc2" eq_refl)))). Defined.

(* ================================================================= *)
(** ** More on use *)

Lemma mutates_touches (o : op) : mutates o = false -> touches o = false.
Proof. destruct o as [R c]. destruct c; simpl; congruence. Qed.

Lemma touches_relinks (g : fsx) (o : op) : touches o = false -> relinks g o = true.
Proof. destruct o as [R c]. destruct c; simpl; congruence. Qed.

Lemma reads_touch_nothing (t : list op) :
  forallb (fun o => negb (mutates o)) t = true ->
  forallb (fun o => negb (touches o)) t = true.
Proof.
  rewrite !forallb_forall. intros H o Ho. specialize (H o Ho).
  apply negb_true_iff in H. apply negb_true_iff. now apply mutates_touches.
Qed.

Lemma untouched_relinks (g : fsx) (t : list op) :
  forallb (fun o => negb (touches o)) t = true -> forallb (relinks g) t = true.
Proof.
  rewrite !forallb_forall. intros H o Ho. specialize (H o Ho).
  apply negb_true_iff in H. now apply touches_relinks.
Qed.

Lemma fsx_eqb_refl (d : fsx) : fsx_eqb d d = true.
Proof. destruct d; reflexivity. Qed.

(** The end of [use], call by call, under any surroundings. *)
Lemma run_relink {W} (h : handler W) (v : string) (g : fsx) (w : W) :
  run h (relink v g) w =
  let '(r1, w1) := h _ (Remove g "go") w in
  match (match r1 with
         | Err e => if negb (is_not_exist e) then Err e else Ok tt
         | Ok _ => Ok tt
         end) with
  | Err e => (Err e, w1, [Op (Remove g "go")])
  | Ok _ =>
      let '(r2, w2) := h _ (Symlink g ("go" ++ v)%string "go") w1 in
      match r2 with
      | Err e => (Err e, w2, [Op (Remove g "go"); Op (Symlink g ("go" ++ v)%string "go")])
      | Ok _ =>
          (Ok tt, snd (h _ (Print ("Switched to " ++ v ++ LF)%string) w2),
           [Op (Remove g "go"); Op (Symlink g ("go" ++ v)%string "go");
            Op (Print ("Switched to " ++ v ++ LF)%string)])
      end
  end.
Proof.
  unfold relink, try, printf. cbn [run bind perform].
  destruct (h _ (Remove g "go") w) as [r1 w1].
  destruct (match r1 with
            | Ok _ => Ok tt
            | Err e => if negb (is_not_exist e) then Err e else Ok tt
            end) as [u | e]; cbn [run bind]; [| reflexivity].
  destruct (h _ (Symlink g _ "go") w1) as [[u2 | e] w2]; cbn [run bind]; [| reflexivity].
  destruct (h _ (Print _) w2) as [u3 w3]. reflexivity.
Qed.

(** The calls of the middle of [use]: none touches a directory itself;
    the install step comes first when the version is not listed, and the
    download step is the only other process. *)
Lemma fetch_calls {W} (h : handler W) (l : local) (v : string) (s : fsx) (w : W) :
  forallb (fun o => negb (touches o)) (trace (run h (fetch l v s) w)) = true /\
  (forall u, answer (run h (fetch l v s) w) = Ok u ->
     exists middle,
       (middle = [] \/ middle = [Op (Run ("go" ++ v)%string ["download"])]) /\
       filter mutates (trace (run h (fetch l v s) w))
       = (if contains l v then []
          else [Op (Run "go" ["install"; ("golang.org/dl/go" ++ v ++ "@latest")%string])])
           ++ middle).
Proof.
  unfold fetch, downloaded, command, printf, try.
  destruct (contains l v); cbn [negb run bind perform].
  - destruct (h _ (Stat s _) w) as [[info | e] w3]; cbn [run bind perform negb].
    + split; [reflexivity |]. intros u _. exists []. auto.
    + destruct (h _ (Print _) w3) as [u w4].
      destruct (h _ (Run _ _) w4) as [r w5]. split; [reflexivity |].
      intros u' _. eexists. split; [right; reflexivity | reflexivity].
  - destruct (h _ (Print _) w) as [u w1].
    destruct (h _ (Run "go" _) w1) as [[u1 | e] w2]; cbn [run bind perform].
    2: { split; [reflexivity |]. intros u' A. discriminate. }
    destruct (h _ (Stat s _) w2) as [[info | e] w3]; cbn [run bind perform negb].
    + split; [reflexivity |]. intros u' _. exists []. auto.
    + destruct (h _ (Run _ _) w3) as [r w4]. split; [reflexivity |].
      intros u' _. eexists. split; [right; reflexivity | reflexivity].
Qed.

(** X12.  [use] of the version that is current already is a success that
    prints one line and changes nothing. *)
Theorem use_current_noop {W} (h : handler W) less arg rest gobin sdkdir (w : W) l w1 t1 :
  run h (localVersions less gobin) w = (Ok l, w1, t1) ->
  MatchString versionRE (resolved l arg) = true ->
  resolved l arg = current l ->
  answer (run h (use less (arg :: rest) gobin sdkdir) w) = Ok tt /\
  trace (run h (use less (arg :: rest) gobin sdkdir) w)
    = t1 ++ [Op (Print (resolved l arg ++ " is already in use" ++ LF)%string)] /\
  filter mutates (trace (run h (use less (arg :: rest) gobin sdkdir) w)) = [].
Proof.
  intros H M C.
  pose proof (filter_none mutates t1 (reads_only_trace _ _ _ _ _ _ _ H)) as T.
  rewrite (run_use h less arg rest gobin sdkdir w l w1 t1 H).
  unfold use_with, printf. fold (resolved l arg). rewrite M.
  rewrite (proj2 (String.eqb_eq _ _) C). cbn [negb run bind perform].
  destruct (h _ (Print _) w1) as [u w2]. cbn [answer trace fst snd].
  rewrite filter_app, T. repeat split.
Qed.

Lemma use_current_noop_witness :
  answer (run mem_handler (use versionLess ["1.20"] GoBin SdkDir) switched) = Ok tt /\
  bin (final (run mem_handler (use versionLess ["1.20"] GoBin SdkDir) switched))
    = bin switched /\
  filter mutates (trace (run mem_handler (use versionLess ["1.20"] GoBin SdkDir) switched)) = [].
Proof.
  destruct (use_current_noop mem_handler versionLess "1.20" [] GoBin SdkDir switched
              {| main := "1.21"; current := "1.20"; list_ := ["1.20"; "1.21"] |}
              (path_restored switched) _ eq_refl eq_refl eq_refl) as (A & _ & T).
  split; [exact A |]. split; [reflexivity | exact T].
Defined.

(** X13.  Whatever its arguments and whatever the surroundings answer,
    [use] touches nothing in a directory but the link [go] of the bin
    directory: it never removes a tree, and every entry it removes or
    creates is [go]. *)
Theorem use_touches_only_link {W} (h : handler W) less args gobin sdkdir (w : W) :
  forallb (relinks gobin) (trace (run h (use less args gobin sdkdir) w)) = true.
Proof.
  destruct args as [| arg rest]; [reflexivity |].
  destruct (run h (localVersions less gobin) w) as [[[l | e] w1] t1] eqn:H.
  2: { now rewrite (run_use_err h less arg rest gobin sdkdir w e w1 t1 H);
       apply untouched_relinks, reads_touch_nothing, (reads_only_trace _ _ _ _ _ _ _ H). }
  pose proof (untouched_relinks gobin _
                (reads_touch_nothing _ (reads_only_trace _ _ _ _ _ _ _ H))) as T1.
  rewrite (run_use h less arg rest gobin sdkdir w l w1 t1 H).
  unfold use_with, printf. fold (resolved l arg).
  destruct (MatchString versionRE (resolved l arg)); cbn [negb].
  2: { cbn [run trace snd]. now rewrite app_nil_r. }
  destruct (String.eqb (resolved l arg) (current l)).
  { cbn [run bind perform]. destruct (h _ (Print _) w1) as [u w2].
    cbn [trace snd]. rewrite forallb_app, T1. reflexivity. }
  destruct (String.eqb (resolved l arg) (main l)).
  { unfold try. cbn [run bind perform].
    destruct (h _ (Remove gobin "go") w1) as [[u | e] w2]; cbn [run].
    - destruct (h _ (Print _) w2) as [u' w3]. cbn [trace snd].
      rewrite forallb_app, T1. cbn. now rewrite fsx_eqb_refl.
    - cbn [trace snd]. rewrite forallb_app, T1. cbn. now rewrite fsx_eqb_refl. }
  rewrite run_try.
  pose proof (proj1 (fetch_calls h l (resolved l arg) sdkdir w1)) as F.
  apply (untouched_relinks gobin) in F.
  destruct (run h (fetch l (resolved l arg) sdkdir) w1) as [[[u | e] wf] tf];
    cbn [trace snd] in F.
  2: { cbn [trace snd]. now rewrite forallb_app, T1, F. }
  rewrite run_relink.
  destruct (h _ (Remove gobin "go") wf) as [r1 w2].
  destruct (match r1 with
            | Ok _ => Ok tt
            | Err e => if negb (is_not_exist e) then Err e else Ok tt
            end) as [u1 | e].
  2: { cbn [trace snd]. rewrite !forallb_app, T1, F. cbn. now rewrite fsx_eqb_refl. }
  destruct (h _ (Symlink gobin _ "go") w2) as [[u2 | e] w3];
    cbn [trace snd]; rewrite !forallb_app, T1, F; cbn; now rewrite fsx_eqb_refl.
Qed.

(** X14.  When the install or the download step fails, [use] returns
    that error and has made no call that removes or creates an entry:
    the link [go] is as it was. *)
Theorem use_failed_fetch_keeps_link {W} (h : handler W) less arg rest gobin sdkdir
        (w : W) l w1 t1 (e : error) :
  run h (localVersions less gobin) w = (Ok l, w1, t1) ->
  MatchString versionRE (resolved l arg) = true ->
  resolved l arg <> current l ->
  resolved l arg <> main l ->
  answer (run h (fetch l (resolved l arg) sdkdir) w1) = Err e ->
  answer (run h (use less (arg :: rest) gobin sdkdir) w) = Err e /\
  filter touches (trace (run h (use less (arg :: rest) gobin sdkdir) w)) = [].
Proof.
  intros H M C E F.
  rewrite (run_use_other h less arg rest gobin sdkdir w l w1 t1 H M C E).
  pose proof (proj1 (fetch_calls h l (resolved l arg) sdkdir w1)) as T.
  destruct (run h (fetch l (resolved l arg) sdkdir) w1) as [[rf wf] tf].
  cbn [answer fst trace snd] in F, T. subst rf. cbn [answer trace fst snd].
  split; [reflexivity |].
  rewrite filter_app, (filter_none touches tf T).
  rewrite (filter_none touches t1
             (reads_touch_nothing _ (reads_only_trace _ _ _ _ _ _ _ H))).
  reflexivity.
Qed.

Lemma use_failed_fetch_keeps_link_witness :
  answer (run mem_handler (use versionLess ["1.19"] GoBin SdkDir) offline)
    = Err (ErrIO "network is unreachable") /\
  filter touches (trace (run mem_handler (use versionLess ["1.19"] GoBin SdkDir) offline)) = [].
Proof.
  assert (C : "1.19" <> "1.21") by discriminate.
  exact (use_failed_fetch_keeps_link mem_handler versionLess "1.19" [] GoBin SdkDir offline
           {| main := "1.21"; current := "1.21"; list_ := ["1.20"; "1.21"] |}
           (path_restored offline) _ (ErrIO "network is unreachable")
           eq_refl eq_refl C C eq_refl).
Defined.

(** X15.  A successful [use] of a version that the snapshot does not
    list runs the install step first, then at most the download step,
    and only then removes the old link and creates the new one. *)
Theorem use_install_order {W} (h : handler W) less arg rest gobin sdkdir (w : W) l w1 t1 :
  run h (localVersions less gobin) w = (Ok l, w1, t1) ->
  resolved l arg <> current l ->
  resolved l arg <> main l ->
  contains l (resolved l arg) = false ->
  answer (run h (use less (arg :: rest) gobin sdkdir) w) = Ok tt ->
  exists middle,
    (middle = [] \/ middle = [Op (Run ("go" ++ resolved l arg)%string ["download"])]) /\
    filter mutates (trace (run h (use less (arg :: rest) gobin sdkdir) w))
    = Op (Run "go" ["install"; ("golang.org/dl/go" ++ resolved l arg ++ "@latest")%string])
        :: middle
        ++ [Op (Remove gobin "go");
            Op (Symlink gobin ("go" ++ resolved l arg)%string "go")].
Proof.
  intros H C E I R.
  pose proof (use_ok_valid _ _ _ _ _ _ _ _ _ _ H (or_introl R)) as M.
  pose proof (filter_none mutates t1 (reads_only_trace _ _ _ _ _ _ _ H)) as T1.
  rewrite (run_use_other h less arg rest gobin sdkdir w l w1 t1 H M C E) in R |- *.
  pose proof (proj2 (fetch_calls h l (resolved l arg) sdkdir w1)) as F.
  destruct (run h (fetch l (resolved l arg) sdkdir) w1) as [[[u | e] wf] tf];
    [| discriminate].
  destruct (F u eq_refl) as (middle & Hm & Tf). cbn [trace snd] in Tf.
  rewrite I in Tf. rewrite run_relink in R |- *.
  destruct (h _ (Remove gobin "go") wf) as [r1 w2].
  destruct (match r1 with
            | Ok _ => Ok tt
            | Err e => if negb (is_not_exist e) then Err e else Ok tt
            end) as [u1 | e]; [| discriminate].
  destruct (h _ (Symlink gobin _ "go") w2) as [[u2 | e] w3]; [| discriminate].
  cbn [trace snd]. exists middle. split; [exact Hm |].
  rewrite !filter_app, T1, Tf. cbn. reflexivity.
Qed.

Lemma use_install_order_witness :
  exists middle,
    filter mutates (trace (run mem_handler (use versionLess ["1.19"] GoBin SdkDir)
                             installed_1_20))
    = Op (Run "go" ["install"; "golang.org/dl/go1.19@latest"])
        :: middle ++ [Op (Remove GoBin "go"); Op (Symlink GoBin "go1.19" "go")].
Proof.
  assert (C : "1.19" <> "1.21") by discriminate.
  destruct (use_install_order mem_handler versionLess "1.19" [] GoBin SdkDir installed_1_20
              {| main := "1.21"; current := "1.21"; list_ := ["1.20"; "1.21"] |}
              (path_restored installed_1_20) _ eq_refl C C eq_refl eq_refl)
    as (middle & _ & T).
  exists middle. exact T.
Defined.

(** X16.  The alias [main] stands for the main version of the snapshot:
    [use main] and [remove main] run as [use] and [remove] of that
    version do. *)
Theorem alias_main {W} (h : handler W) less rest rest' gobin sdkdir (w : W) l w1 t1 :
  run h (localVersions less gobin) w = (Ok l, w1, t1) ->
  run h (use less ("main" :: rest) gobin sdkdir) w
    = run h (use less (main l :: rest') gobin sdkdir) w /\
  run h (remove less ("main" :: rest) gobin sdkdir) w
    = run h (remove less (main l :: rest') gobin sdkdir) w.
Proof.
  intros H.
  assert (R : resolved l (main l) = resolved l "main").
  { unfold resolved. destruct (String.eqb (main l) "main"); reflexivity. }
  rewrite !(run_use h less _ _ gobin sdkdir w l w1 t1 H).
  rewrite !(run_remove h less _ _ gobin sdkdir w l w1 t1 H).
  unfold use_with, remove_with. fold (resolved l "main") (resolved l (main l)).
  rewrite R. split; reflexivity.
Qed.

Lemma alias_main_witness :
  run mem_handler (use versionLess ["main"] GoBin SdkDir) switched
  = run mem_handler (use versionLess ["1.21"] GoBin SdkDir) switched.
Proof.
  exact (proj1 (alias_main mem_handler versionLess [] [] GoBin SdkDir switched
                  {| main := "1.21"; current := "1.20"; list_ := ["1.20"; "1.21"] |}
                  (path_restored switched) _ eq_refl)).
Defined.

(** After [use] of another version has succeeded on the in-memory file
    system, the next snapshot has that version as the current one. *)
Lemma use_other_post less arg rest (w : world) (l : local) (w1 : world) (t1 : list op) :
  run mem_handler (localVersions less GoBin) w = (Ok l, w1, t1) ->
  resolved l arg <> current l ->
  resolved l arg <> main l ->
  answer (run mem_handler (use less (arg :: rest) GoBin SdkDir) w) = Ok tt ->
  MatchString versionRE (resolved l arg) = true /\
  exists l2,
    answer (run mem_handler (localVersions less GoBin)
              (final (run mem_handler (use less (arg :: rest) GoBin SdkDir) w))) = Ok l2 /\
    current l2 = resolved l arg /\ main l2 = main l.
Proof.
  intros H C E R.
  pose proof (use_ok_valid _ _ _ _ _ _ _ _ _ _ H (or_introl R)) as M.
  split; [exact M |].
  pose proof (proj1 (localVersions_mem less GoBin w l w1 t1) H) as (S & _ & _).
  apply next_snapshot; [exact S |].
  unfold link_state. cbn [dir_of].
  rewrite (run_use_other _ less arg rest GoBin SdkDir w l w1 t1 H M C E) in R |- *.
  destruct (run mem_handler (fetch l (resolved l arg) SdkDir) w1)
    as [[[u | e] wf] tf]; [| discriminate].
  pose proof (relink_mem (resolved l arg) wf) as P.
  destruct (run mem_handler (relink (resolved l arg) GoBin) wf) as [[r w2] t2].
  cbn [answer final trace fst snd] in *. subst r.
  rewrite (proj1 P). symmetry. now apply link_to_version.
Qed.

(** [use] of the current version, under any surroundings. *)
Lemma run_use_current {W} (h : handler W) less arg rest gobin sdkdir (w : W) l w1 t1 :
  run h (localVersions less gobin) w = (Ok l, w1, t1) ->
  MatchString versionRE (resolved l arg) = true ->
  resolved l arg = current l ->
  answer (run h (use less (arg :: rest) gobin sdkdir) w) = Ok tt /\
  filter mutates (trace (run h (use less (arg :: rest) gobin sdkdir) w)) = [].
Proof.
  intros H M C.
  pose proof (filter_none mutates t1 (reads_only_trace _ _ _ _ _ _ _ H)) as T.
  rewrite (run_use h less arg rest gobin sdkdir w l w1 t1 H).
  unfold use_with, printf. fold (resolved l arg). rewrite M.
  rewrite (proj2 (String.eqb_eq _ _) C). cbn [negb run bind perform].
  destruct (h _ (Print _) w1) as [u w2]. cbn [answer trace fst snd].
  rewrite filter_app, T. repeat split.
Qed.

(** X17.  [use] is idempotent: after a successful [use] of a version
    that was neither the current nor the main one, the same [use] again
    succeeds and changes nothing. *)
Theorem use_twice less arg rest (w : world) (l : local) (w1 : world) (t1 : list op) :
  run mem_handler (localVersions less GoBin) w = (Ok l, w1, t1) ->
  resolved l arg <> current l ->
  resolved l arg <> main l ->
  answer (run mem_handler (use less (arg :: rest) GoBin SdkDir) w) = Ok tt ->
  answer (run mem_handler (use less (arg :: rest) GoBin SdkDir)
            (final (run mem_handler (use less (arg :: rest) GoBin SdkDir) w))) = Ok tt /\
  filter mutates
    (trace (run mem_handler (use less (arg :: rest) GoBin SdkDir)
              (final (run mem_handler (use less (arg :: rest) GoBin SdkDir) w)))) = [].
Proof.
  intros H C E R.
  destruct (use_other_post less arg rest w l w1 t1 H C E R) as (M & l2 & A & Cu & Ma).
  set (w2 := final (run mem_handler (use less (arg :: rest) GoBin SdkDir) w)) in *.
  destruct (run mem_handler (localVersions less GoBin) w2) as [[r w3] t3] eqn:H2.
  cbn [answer fst] in A. subst r.
  assert (Rs : resolved l2 arg = resolved l arg).
  { unfold resolved. rewrite Ma. reflexivity. }
  apply (run_use_current mem_handler less arg rest GoBin SdkDir w2 l2 w3 t3 H2).
  - now rewrite Rs.
  - now rewrite Rs.
Qed.

Lemma use_twice_witness :
  answer (run mem_handler (use versionLess ["1.20"] GoBin SdkDir)
            (final (run mem_handler (use versionLess ["1.20"] GoBin SdkDir) installed_1_20)))
    = Ok tt /\
  filter mutates
    (trace (run mem_handler (use versionLess ["1.20"] GoBin SdkDir)
              (final (run mem_handler (use versionLess ["1.20"] GoBin SdkDir) installed_1_20))))
    = [].
Proof.
  assert (C : "1.20" <> "1.21") by discriminate.
  exact (use_twice versionLess "1.20" [] installed_1_20
           {| main := "1.21"; current := "1.21"; list_ := ["1.20"; "1.21"] |}
           (path_restored installed_1_20) _ eq_refl C C eq_refl).
Defined.

(* ================================================================= *)
(** ** More on remove *)

(** X18.  [remove] of a version that the snapshot does not list returns
    the error [is not installed] and changes nothing. *)
Theorem remove_not_installed {W} (h : handler W) less arg rest gobin sdkdir
        (w : W) l w1 t1 :
  run h (localVersions less gobin) w = (Ok l, w1, t1) ->
  MatchString versionRE (resolved l arg) = true ->
  contains l (resolved l arg) = false ->
  run h (remove less (arg :: rest) gobin sdkdir) w
    = (Err (errNotInstalled (resolved l arg)), w1, t1) /\
  forallb (fun o => negb (mutates o)) t1 = true.
Proof.
  intros H M I. split; [| exact (reads_only_trace _ _ _ _ _ _ _ H)].
  rewrite (run_remove h less arg rest gobin sdkdir w l w1 t1 H).
  unfold remove_with. fold (resolved l arg). rewrite M, I. cbn [negb run].
  now rewrite app_nil_r.
Qed.

Lemma remove_not_installed_witness :
  answer (run mem_handler (remove versionLess ["1.19"] GoBin SdkDir) switched)
    = Err (errNotInstalled "1.19").
Proof.
  pose proof (remove_not_installed mem_handler versionLess "1.19" [] GoBin SdkDir switched
                {| main := "1.21"; current := "1.20"; list_ := ["1.20"; "1.21"] |}
                (path_restored switched) _ eq_refl eq_refl eq_refl) as (R & _).
  now rewrite R.
Defined.

Lemma lookup_delete_neq (name other : string) (fs : memfs) :
  name <> other -> lookup name (delete other fs) = lookup name fs.
Proof.
  intros N. induction fs as [| [n x] fs IH]; simpl; [reflexivity |].
  destruct (String.eqb n other) eqn:E; simpl.
  - apply String.eqb_eq in E. subst n.
    destruct (String.eqb other name) eqn:X; [| exact IH].
    apply String.eqb_eq in X. congruence.
  - destruct (String.eqb n name); [reflexivity | exact IH].
Qed.

(** A successful [remove] on the in-memory file system, step by step. *)
Lemma remove_post less arg rest (w : world) (l : local) (w1 : world) (t1 : list op) :
  run mem_handler (localVersions less GoBin) w = (Ok l, w1, t1) ->
  answer (run mem_handler (remove less (arg :: rest) GoBin SdkDir) w) = Ok tt ->
  MatchString versionRE (resolved l arg) = true /\
  contains l (resolved l arg) = true /\
  resolved l arg <> main l /\
  filter mutates (trace (run mem_handler (remove less (arg :: rest) GoBin SdkDir) w))
    = (if String.eqb (resolved l arg) (current l) then [Op (Remove GoBin "go")] else [])
        ++ [Op (Remove GoBin ("go" ++ resolved l arg)%string);
            Op (RemoveAll SdkDir ("go" ++ resolved l arg)%string)] /\
  bin (final (run mem_handler (remove less (arg :: rest) GoBin SdkDir) w))
    = delete ("go" ++ resolved l arg)
        (if String.eqb (resolved l arg) (current l) then delete "go" (bin w) else bin w) /\
  sdk (final (run mem_handler (remove less (arg :: rest) GoBin SdkDir) w))
    = filter (fun e => negb (String.eqb (fst e) ("go" ++ resolved l arg)
                             || below ("go" ++ resolved l arg) (fst e)))
             (sdk w).
Proof.
  intros H R.
  pose proof (proj1 (localVersions_mem less GoBin w l w1 t1) H) as (S & W1 & _).
  pose proof (filter_none mutates t1 (reads_only_trace _ _ _ _ _ _ _ H)) as T1.
  assert (B1 : bin w1 = bin w) by (subst w1; reflexivity).
  assert (K1 : sdk w1 = sdk w) by (subst w1; reflexivity).
  clear W1.
  set (v := resolved l arg) in *.
  rewrite (run_remove _ less arg rest GoBin SdkDir w l w1 t1 H) in R |- *.
  unfold remove_with in *. fold (resolved l arg) in *. fold v in R |- *.
  destruct (MatchString versionRE v); [| discriminate].
  destruct (contains l v); [| discriminate].
  cbn [negb] in R |- *.
  destruct (String.eqb v (main l)) eqn:E; [discriminate |].
  apply String.eqb_neq in E.
  split; [reflexivity |]. split; [reflexivity |]. split; [exact E |].
  assert (D : SdkDir <> GoBin) by discriminate.
  assert (D' : GoBin <> SdkDir) by discriminate.
  unfold try, printf in *.
  destruct (String.eqb v (current l)); cbn [run bind perform] in R |- *.
  - pose proof (mem_Remove_spec GoBin "go" w1) as P1.
    destruct (mem_handler (Remove GoBin "go") w1) as [[u | e] w2];
      cbn [run bind fst snd] in *; [| discriminate].
    pose proof (mem_Print_spec ("Switched to " ++ main l ++ " (main)" ++ LF) w2) as Q1.
    destruct (mem_handler (Print _) w2) as [u1 w3]; cbn [run bind fst snd] in *.
    pose proof (mem_Remove_spec GoBin ("go" ++ v) w3) as P2.
    destruct (mem_handler (Remove GoBin ("go" ++ v)%string) w3) as [[u2 | e] w4];
      cbn [run bind fst snd] in *; [| discriminate].
    pose proof (mem_RemoveAll_spec SdkDir ("go" ++ v) w4) as P3.
    destruct (mem_handler (RemoveAll SdkDir ("go" ++ v)%string) w4) as [[u3 | e] w5];
      cbn [run bind fst snd] in *; [| discriminate].
    pose proof (mem_Print_spec ("Removed " ++ v ++ LF) w5) as Q2.
    destruct (mem_handler (Print _) w5) as [u4 w6]; cbn [run bind fst snd] in *.
    cbn [answer final trace fst snd].
    destruct P1 as (P1 & _ & O1), P2 as (P2 & _ & O2), P3 as (P3 & O3).
    split; [rewrite filter_app, T1; reflexivity |]. split.
    + change (bin w6) with (dir_of w6 GoBin).
      rewrite Q2, (O3 _ D'), P2, Q1, P1. cbn [dir_of]. now rewrite B1.
    + change (sdk w6) with (dir_of w6 SdkDir).
      rewrite Q2, P3, (O2 _ D), Q1, (O1 _ D). cbn [dir_of]. now rewrite K1.
  - pose proof (mem_Remove_spec GoBin ("go" ++ v) w1) as P2.
    destruct (mem_handler (Remove GoBin ("go" ++ v)%string) w1) as [[u2 | e] w4];
      cbn [run bind fst snd] in *; [| discriminate].
    pose proof (mem_RemoveAll_spec SdkDir ("go" ++ v) w4) as P3.
    destruct (mem_handler (RemoveAll SdkDir ("go" ++ v)%string) w4) as [[u3 | e] w5];
      cbn [run bind fst snd] in *; [| discriminate].
    pose proof (mem_Print_spec ("Removed " ++ v ++ LF) w5) as Q2.
    destruct (mem_handler (Print _) w5) as [u4 w6]; cbn [run bind fst snd] in *.
    cbn [answer final trace fst snd].
    destruct P2 as (P2 & _ & O2), P3 as (P3 & O3).
    split; [rewrite filter_app, T1; reflexivity |]. split.
    + change (bin w6) with (dir_of w6 GoBin).
      rewrite Q2, (O3 _ D'), P2. cbn [dir_of]. now rewrite B1.
    + change (sdk w6) with (dir_of w6 SdkDir).
      rewrite Q2, P3, (O2 _ D). cbn [dir_of]. now rewrite K1.
Qed.

(** X19.  A successful [remove] of a version that is not the current one
    removes the binary and the SDK directory and leaves the link [go]
    alone: the next snapshot has the current version of before. *)
Theorem remove_other_keeps_current less arg rest (w : world) (l : local)
        (w1 : world) (t1 : list op) :
  run mem_handler (localVersions less GoBin) w = (Ok l, w1, t1) ->
  resolved l arg <> current l ->
  answer (run mem_handler (remove less (arg :: rest) GoBin SdkDir) w) = Ok tt ->
  filter mutates (trace (run mem_handler (remove less (arg :: rest) GoBin SdkDir) w))
    = [Op (Remove GoBin ("go" ++ resolved l arg)%string);
       Op (RemoveAll SdkDir ("go" ++ resolved l arg)%string)] /\
  lookup "go" (bin (final (run mem_handler (remove less (arg :: rest) GoBin SdkDir) w)))
    = lookup "go" (bin w) /\
  exists l2,
    answer (run mem_handler (localVersions less GoBin)
              (final (run mem_handler (remove less (arg :: rest) GoBin SdkDir) w))) = Ok l2 /\
    current l2 = current l /\ main l2 = main l.
Proof.
  intros H C R.
  destruct (remove_post less arg rest w l w1 t1 H R) as (M & _ & _ & T & B & _).
  apply String.eqb_neq in C. rewrite C in T, B. cbn [app] in T.
  pose proof (proj1 (localVersions_mem less GoBin w l w1 t1) H) as (S & _ & _).
  assert (L : lookup "go" (bin (final (run mem_handler
                (remove less (arg :: rest) GoBin SdkDir) w))) = lookup "go" (bin w)).
  { rewrite B. apply lookup_delete_neq.
    destruct (valid_starts_with_1 _ M) as (r & ->). discriminate. }
  split; [exact T |]. split; [exact L |].
  apply next_snapshot; [exact S |].
  unfold link_state. cbn [dir_of]. rewrite L.
  destruct S as (_ & _ & K & _). exact K.
Qed.

Lemma remove_other_keeps_current_witness :
  filter mutates (trace (run mem_handler (remove versionLess ["1.19"] GoBin SdkDir) full_disk))
    = [Op (Remove GoBin "go1.19"); Op (RemoveAll SdkDir "go1.19")] /\
  exists l2,
    answer (run mem_handler (localVersions versionLess GoBin)
              (final (run mem_handler (remove versionLess ["1.19"] GoBin SdkDir) full_disk)))
      = Ok l2 /\
    current l2 = "1.20".
Proof.
  assert (C : "1.19" <> "1.20") by discriminate.
  destruct (remove_other_keeps_current versionLess "1.19" [] full_disk
              {| main := "1.21"; current := "1.20"; list_ := ["1.19"; "1.20"; "1.21"] |}
              (path_restored full_disk) _ eq_refl C eq_refl) as (T & _ & l2 & A & Cu & _).
  split; [exact T |]. exists l2. split; [exact A | exact Cu].
Defined.

Lemma removes_all_mutates (t : list op) :
  forallb (fun o => negb (mutates o)) t = true -> existsb removes_all t = false.
Proof.
  induction t as [| o t IH]; simpl; [reflexivity |].
  intros H. apply andb_true_iff in H. destruct H as [H1 H2].
  rewrite (IH H2), orb_false_r.
  destruct o as [R c]. destruct c; try reflexivity; discriminate.
Qed.

(** X20.  [remove] does not roll back: when it fails at the recursive
    removal of the SDK directory, the binary is gone already, the SDK
    directory is as it was, and the two removals are its last calls. *)
Theorem remove_sdk_failure less arg rest (w : world) (l : local) (w1 : world)
        (t1 : list op) (e : error) :
  run mem_handler (localVersions less GoBin) w = (Ok l, w1, t1) ->
  answer (run mem_handler (remove less (arg :: rest) GoBin SdkDir) w) = Err e ->
  existsb removes_all (trace (run mem_handler (remove less (arg :: rest) GoBin SdkDir) w)) = true ->
  lookup ("go" ++ resolved l arg)
         (bin (final (run mem_handler (remove less (arg :: rest) GoBin SdkDir) w))) = None /\
  sdk (final (run mem_handler (remove less (arg :: rest) GoBin SdkDir) w)) = sdk w /\
  exists before,
    trace (run mem_handler (remove less (arg :: rest) GoBin SdkDir) w)
    = before ++ [Op (Remove GoBin ("go" ++ resolved l arg)%string);
                 Op (RemoveAll SdkDir ("go" ++ resolved l arg)%string)].
Proof.
  intros H R X.
  pose proof (proj1 (localVersions_mem less GoBin w l w1 t1) H) as (S & W1 & _).
  pose proof (removes_all_mutates t1 (reads_only_trace _ _ _ _ _ _ _ H)) as T1.
  assert (K1 : sdk w1 = sdk w) by (subst w1; reflexivity).
  clear W1.
  set (v := resolved l arg) in *.
  rewrite (run_remove _ less arg rest GoBin SdkDir w l w1 t1 H) in R, X |- *.
  destruct (run mem_handler (remove_with l arg GoBin SdkDir) w1) as [[r wf] tf] eqn:Run.
  cbn [answer final trace fst snd] in *. subst r.
  rewrite existsb_app, T1 in X. cbn [orb] in X.
  assert (D : SdkDir <> GoBin) by discriminate.
  assert (Last : forall (w3 : world) r w6 t6,
             sdk w3 = sdk w ->
             run mem_handler
               (try (perform (Remove GoBin ("go" ++ v)%string))
                  (fun _ => try (perform (RemoveAll SdkDir ("go" ++ v)%string))
                              (fun _ => bind (printf ("Removed " ++ v ++ LF)%string)
                                          (fun _ => Ret (Ok tt))))) w3 = (r, w6, t6) ->
             (exists e', r = Err e') ->
             existsb removes_all t6 = true ->
             lookup ("go" ++ v) (bin w6) = None /\ sdk w6 = sdk w /\
             t6 = [Op (Remove GoBin ("go" ++ v)%string);
                   Op (RemoveAll SdkDir ("go" ++ v)%string)]).
  { intros w3 r w6 t6 K3. unfold try, printf. cbn [run bind perform].
    pose proof (mem_Remove_spec GoBin ("go" ++ v) w3) as P2.
    destruct (mem_handler (Remove GoBin ("go" ++ v)%string) w3) as [[u2 | e2] w4];
      cbn [run bind fst snd] in *.
    2: { intros [= <- <- <-] _ Y. discriminate. }
    pose proof (mem_RemoveAll_spec SdkDir ("go" ++ v) w4) as P3.
    destruct (mem_handler (RemoveAll SdkDir ("go" ++ v)%string) w4) as [[u3 | e3] w5];
      cbn [run bind fst snd] in *.
    { destruct (mem_handler (Print _) w5) as [u4 w7].
      intros [= <- <- <-] (e' & Y). discriminate. }
    subst w5. intros [= <- <- <-] _ _.
    destruct P2 as (P2 & _ & O2).
    split; [| split; [| reflexivity]].
    - change (bin w4) with (dir_of w4 GoBin). rewrite P2. apply lookup_delete.
    - change (sdk w4) with (dir_of w4 SdkDir). rewrite (O2 _ D). exact K3. }
  unfold remove_with in Run. fold (resolved l arg) in Run. fold v in Run.
  destruct (MatchString versionRE v); [| injection Run as _ _ <-; discriminate].
  destruct (contains l v); [| injection Run as _ _ <-; discriminate].
  cbn [negb] in Run.
  destruct (String.eqb v (main l)); [injection Run as _ _ <-; discriminate |].
  rewrite run_try in Run.
  destruct (String.eqb v (current l)).
  - unfold try at 1 in Run. unfold printf at 1 in Run. cbn [run bind perform] in Run.
    pose proof (mem_Remove_spec GoBin "go" w1) as P1.
    destruct (mem_handler (Remove GoBin "go") w1) as [[u | e1] w2];
      cbn [run bind fst snd] in *.
    2: { injection Run as _ _ <-. discriminate. }
    pose proof (mem_Print_spec ("Switched to " ++ main l ++ " (main)" ++ LF) w2) as Q1.
    destruct (mem_handler (Print _) w2) as [u1 w3]; cbn [run bind fst snd] in *.
    destruct P1 as (_ & _ & O1).
    assert (K3 : sdk w3 = sdk w).
    { change (sdk w3) with (dir_of w3 SdkDir). rewrite Q1, (O1 _ D). exact K1. }
    destruct (run mem_handler _ w3) as [[r w6] t6] eqn:Tail.
    injection Run as -> <- <-.
    assert (X6 : existsb removes_all t6 = true) by exact X.
    destruct (Last w3 _ w6 t6 K3 Tail (ex_intro _ e eq_refl) X6) as (L & K & ->).
    split; [exact L |]. split; [exact K |].
    exists (t1 ++ [Op (Remove GoBin "go");
                   Op (Print ("Switched to " ++ main l ++ " (main)" ++ LF)%string)]).
    now rewrite <- app_assoc.
  - cbn [run] in Run.
    destruct (run mem_handler _ w1) as [[r w6] t6] eqn:Tail.
    injection Run as -> <- <-.
    assert (X6 : existsb removes_all t6 = true) by exact X.
    destruct (Last w1 _ w6 t6 K1 Tail (ex_intro _ e eq_refl) X6) as (L & K & ->).
    split; [exact L |]. split; [exact K |]. exists t1. reflexivity.
Qed.

Lemma remove_sdk_failure_witness :
  answer (run mem_handler (remove versionLess ["1.20"] GoBin SdkDir) sdk_locked)
    = Err (ErrIO "permission denied") /\
  lookup "go1.20" (bin (final (run mem_handler (remove versionLess ["1.20"] GoBin SdkDir)
                                 sdk_locked))) = None /\
  sdk (final (run mem_handler (remove versionLess ["1.20"] GoBin SdkDir) sdk_locked))
    = sdk sdk_locked.
Proof.
  split; [reflexivity |].
  destruct (remove_sdk_failure versionLess "1.20" [] sdk_locked
              {| main := "1.21"; current := "1.20"; list_ := ["1.20"; "1.21"] |}
              (path_restored sdk_locked) _ (ErrIO "permission denied")
              eq_refl eq_refl eq_refl) as (L & K & _).
  split; [exact L | exact K].
Defined.

Lemma has_prefix_split (p w : word) :
  has_prefix p w = true -> w = p ++ skipn (List.length p) w.
Proof.
  revert w. induction p as [| a p IH]; intros [| b w]; simpl; try congruence.
  intros H. apply andb_true_iff in H. destruct H as [E H].
  apply Ascii.eqb_eq in E. subst b. f_equal. now apply IH.
Qed.

Lemma TrimPrefix_inv (s p v : string) :
  TrimPrefix s p = v -> s = (p ++ v)%string \/ s = v.
Proof.
  unfold TrimPrefix. destruct (has_prefix (bytes p) (bytes s)) eqn:E; [| now right].
  intros <-. left. apply has_prefix_split in E.
  remember (skipn (List.length (bytes p)) (bytes s)) as tail.
  rewrite <- (str_bytes s), E, str_app, str_bytes. reflexivity.
Qed.

Lemma in_delete (n m : string) (x : node) (fs : memfs) :
  In (n, x) (delete m fs) -> In (n, x) fs /\ n <> m.
Proof.
  unfold delete. intros H. apply filter_In in H. destruct H as [H N].
  split; [exact H |]. cbn [fst] in N. apply negb_true_iff, String.eqb_neq in N. exact N.
Qed.

Lemma in_lookup (n : string) (x : node) (fs : memfs) :
  In (n, x) fs -> lookup n fs <> None.
Proof.
  induction fs as [| [m y] fs IH]; simpl; [tauto |].
  intros [H | H].
  - injection H as -> ->. now rewrite String.eqb_refl.
  - destruct (String.eqb m n); [discriminate | auto].
Qed.

(** A listed version other than the main one is the name of an entry,
    with or without a leading [go]. *)
Lemma installed_inv (fs : memfs) (v : string) :
  In v (installed fs) ->
  exists name x, In (name, x) fs /\ TrimPrefix name "go" = v.
Proof.
  unfold installed, entries_of. intros H. apply in_flat_map in H.
  destruct H as (entry & He & Hv).
  apply (Permutation_in _ (sort_Slice_perm _ _)) in He.
  apply in_map_iff in He. destruct He as ((name & x) & <- & He).
  apply filter_In in He. destruct He as [He _].
  unfold version_of in Hv. cbn [IsDir Name fst snd] in Hv.
  destruct (is_dir x); [contradiction |].
  destruct (MatchString versionRE (TrimPrefix name "go")); [| contradiction].
  destruct Hv as [<- | []]. eauto.
Qed.

Lemma sentinel_below (v : string) :
  below ("go" ++ v) ("go" ++ v ++ "/.unpacked-success") = true.
Proof.
  unfold below.
  replace (bytes ("go" ++ v ++ "/.unpacked-success"))
    with (bytes (("go" ++ v) ++ "/") ++ bytes ".unpacked-success").
  - apply has_prefix_app.
  - rewrite !bytes_append, <- !app_assoc. reflexivity.
Qed.

(** X21.  A successful [remove] undoes the installation: afterwards the
    SDK probe of the version answers [false], and, unless the bin
    directory holds an entry named by the bare version, the next snapshot
    does not list the version, so that [use] would install it again. *)
Theorem remove_undoes_install less arg rest (w : world) (l : local) (w1 : world)
        (t1 : list op) :
  run mem_handler (localVersions less GoBin) w = (Ok l, w1, t1) ->
  answer (run mem_handler (remove less (arg :: rest) GoBin SdkDir) w) = Ok tt ->
  answer (run mem_handler (downloaded (resolved l arg) SdkDir)
            (final (run mem_handler (remove less (arg :: rest) GoBin SdkDir) w))) = false /\
  (lookup (resolved l arg) (bin w) = None ->
   forall l2,
     answer (run mem_handler (localVersions less GoBin)
               (final (run mem_handler (remove less (arg :: rest) GoBin SdkDir) w))) = Ok l2 ->
     contains l2 (resolved l arg) = false).
Proof.
  intros H R.
  destruct (remove_post less arg rest w l w1 t1 H R) as (M & _ & E & _ & B & K).
  set (v := resolved l arg) in *.
  set (w2 := final (run mem_handler (remove less (arg :: rest) GoBin SdkDir) w)) in *.
  split.
  - unfold downloaded. cbn [run bind perform mem_handler answer fst].
    unfold guarded. destruct (fault w2 _); [reflexivity |].
    cbn [fst dir_of]. unfold mem_Stat. rewrite K.
    rewrite (lookup_filter_out
               (fun n => negb (String.eqb n ("go" ++ v) || below ("go" ++ v) n))).
    + reflexivity.
    + apply negb_false_iff, orb_true_iff. right. apply sentinel_below.
  - intros N l2 A.
    destruct (run mem_handler (localVersions less GoBin) w2) as [[r w3] t3] eqn:H2.
    cbn [answer fst] in A. subst r.
    pose proof (proj1 (localVersions_mem less GoBin w l w1 t1) H)
      as (((out & G & _ & Ml) & _) & _).
    pose proof (proj1 (localVersions_mem less GoBin w2 l2 w3 t3) H2)
      as (((out2 & G2 & _ & Ml2) & _ & _ & Li) & _).
    assert (Gf : go_version w2 = go_version w)
      by exact (proj1 (run_mem_frame _ (remove less (arg :: rest) GoBin SdkDir) w)).
    rewrite Gf, G in G2. injection G2 as <-.
    destruct (contains l2 v) eqn:Ct; [exfalso | reflexivity].
    unfold contains in Ct. apply existsb_exists in Ct. destruct Ct as (x & Hx & Ex).
    apply String.eqb_eq in Ex. subst x.
    rewrite Li in Hx. apply (Permutation_in _ (sort_Slice_perm _ _)) in Hx.
    rewrite collect_eq in Hx. destruct Hx as [Hx | Hx]; [congruence |].
    apply installed_inv in Hx. destruct Hx as (name & x & Hin & Tr).
    cbn [dir_of] in Hin. rewrite B in Hin.
    apply in_delete in Hin. destruct Hin as [Hin Nn].
    assert (Hw : In (name, x) (bin w)).
    { destruct (String.eqb v (current l)); [apply in_delete in Hin; tauto | exact Hin]. }
    apply TrimPrefix_inv in Tr. destruct Tr as [-> | ->]; [congruence |].
    exact (in_lookup _ _ _ Hw N).
Qed.

Lemma remove_undoes_install_witness :
  answer (run mem_handler (downloaded "1.20" SdkDir)
            (final (run mem_handler (remove versionLess ["1.20"] GoBin SdkDir) switched)))
    = false /\
  answer (run mem_handler (localVersions versionLess GoBin)
            (final (run mem_handler (remove versionLess ["1.20"] GoBin SdkDir) switched)))
    = Ok {| main := "1.21"; current := "1.21"; list_ := ["1.21"] |} /\
  contains {| main := "1.21"; current := "1.21"; list_ := ["1.21"] |} "1.20" = false.
Proof.
  destruct (remove_undoes_install versionLess "1.20" [] switched
              {| main := "1.21"; current := "1.20"; list_ := ["1.20"; "1.21"] |}
              (path_restored switched) _ eq_refl eq_refl) as (D & N).
  split; [exact D |]. split; [reflexivity |]. exact (N eq_refl _ eq_refl).
Defined.

(* ================================================================= *)
(** ** list *)

Section ListingFacts.

Variable RuneCountInString : string -> nat.

(** The annotation of a version, under any surroundings. *)
Lemma run_annotation {W} (h : handler W) (l : local) (v : string) (s : fsx) (w : W) :
  run h (annotation l v s) w =
  if String.eqb v (main l) then (" (main)", w, [])
  else if negb (contains l v) then (" (not installed)", w, [])
  else
    (if is_ok (fst (h _ (Stat s ("go" ++ v ++ "/.unpacked-success")%string) w))
     then "" else " (missing SDK)",
     snd (h _ (Stat s ("go" ++ v ++ "/.unpacked-success")%string) w),
     [Op (Stat s ("go" ++ v ++ "/.unpacked-success")%string)]).
Proof.
  unfold annotation, downloaded.
  destruct (String.eqb v (main l)); [reflexivity |].
  destruct (negb (contains l v)); [reflexivity |].
  cbn [run bind perform].
  destruct (h _ (Stat s _) w) as [[info | e] w1]; reflexivity.
Qed.

(** The calls of the loop of [list]. *)
Lemma list_loop_calls {W} (h : handler W) (l : local) (versions : list string)
        (only : string) (s : fsx) :
  forall w : W,
    forallb (fun o => negb (mutates o))
            (trace (run h (list_loop RuneCountInString l versions only s) w)) = true /\
    List.length (filter prints (trace (run h (list_loop RuneCountInString l versions only s) w)))
    = List.length (filter (fun v => HasPrefix v only) versions).
Proof.
  induction versions as [| v vs IH]; intros w; [split; reflexivity |].
  cbn [list_loop filter]. rewrite run_bind.
  destruct (HasPrefix v only); cbn [negb].
  - unfold list_line, printf. rewrite run_bind, run_annotation.
    destruct (String.eqb v (main l)).
    + cbn [run perform].
      destruct (h _ (Print _) w) as [u w1].
      specialize (IH w1).
      destruct (run h (list_loop RuneCountInString l vs only s) w1) as [[b w2] t2].
      cbn [trace snd app] in *. cbn [forallb filter mutates prints negb andb].
      destruct IH as [I1 I2]. cbn [List.length]. split; [exact I1 | now rewrite I2].
    + destruct (negb (contains l v)).
      * cbn [run perform].
        destruct (h _ (Print _) w) as [u w1].
        specialize (IH w1).
        destruct (run h (list_loop RuneCountInString l vs only s) w1) as [[b w2] t2].
        cbn [trace snd app] in *. cbn [forallb filter mutates prints negb andb].
        destruct IH as [I1 I2]. cbn [List.length]. split; [exact I1 | now rewrite I2].
      * cbn [run perform].
        destruct (h _ (Stat s _) w) as [r0 w0]. cbn [fst snd].
        destruct (h _ (Print _) w0) as [u w1].
        specialize (IH w1).
        destruct (run h (list_loop RuneCountInString l vs only s) w1) as [[b w2] t2].
        cbn [trace snd app] in *. cbn [forallb filter mutates prints negb andb].
        destruct IH as [I1 I2]. cbn [List.length]. split; [exact I1 | now rewrite I2].
  - cbn [run]. specialize (IH w).
    destruct (run h (list_loop RuneCountInString l vs only s) w) as [[b w2] t2].
    cbn [trace snd app] in *. exact IH.
Qed.

(** X22.  Whatever the surroundings answer, the loop of [list] makes no
    call that changes anything, and it prints one line for each version
    that has the prefix, and none for the others. *)
Theorem list_loop_reads_only {W} (h : handler W) (l : local) (versions : list string)
        (only : string) (s : fsx) (w : W) :
  forallb (fun o => negb (mutates o))
          (trace (run h (list_loop RuneCountInString l versions only s) w)) = true /\
  List.length (filter prints (trace (run h (list_loop RuneCountInString l versions only s) w)))
  = List.length (filter (fun v => HasPrefix v only) versions).
Proof. exact (list_loop_calls h l versions only s w). Qed.

(** X23.  A version of the snapshot's own list is never annotated as not
    installed: its annotation is [(main)] for the main version, whether
    its SDK is there or not, and otherwise says whether the sentinel of
    its SDK could be probed. *)
Theorem annotation_of_listed {W} (h : handler W) (l : local) (v : string) (s : fsx) (w : W) :
  In v (list_ l) ->
  answer (run h (annotation l v s) w)
  = if String.eqb v (main l) then " (main)"
    else if is_ok (fst (h _ (Stat s ("go" ++ v ++ "/.unpacked-success")%string) w))
         then "" else " (missing SDK)".
Proof.
  intros H. rewrite run_annotation.
  assert (C : contains l v = true).
  { unfold contains. apply existsb_exists. exists v. split; [exact H |].
    apply String.eqb_refl. }
  rewrite C. destruct (String.eqb v (main l)); reflexivity.
Qed.

End ListingFacts.

Lemma annotation_of_listed_witness :
  answer (run mem_handler
            (annotation {| main := "1.21"; current := "1.20"; list_ := ["1.20"; "1.21"] |}
                        "1.21" SdkDir) switched) = " (main)" /\
  answer (run mem_handler
            (annotation {| main := "1.21"; current := "1.20"; list_ := ["1.20"; "1.21"] |}
                        "1.20" SdkDir) switched) = "".
Proof.
  split.
  - apply (annotation_of_listed mem_handler
             {| main := "1.21"; current := "1.20"; list_ := ["1.20"; "1.21"] |}
             "1.21" SdkDir switched). right. now left.
  - apply (annotation_of_listed mem_handler
             {| main := "1.21"; current := "1.20"; list_ := ["1.20"; "1.21"] |}
             "1.20" SdkDir switched). now left.
Defined.

Lemma mem_Stat_probe (name : string) (w : world) :
  snd (mem_handler (Stat SdkDir name) w) = w /\
  is_ok (fst (mem_handler (Stat SdkDir name) w))
  = match fault w (Op (Stat SdkDir name)), lookup name (sdk w) with
    | None, Some _ => true
    | _, _ => false
    end.
Proof.
  cbn [mem_handler dir_of]. unfold guarded, mem_Stat.
  destruct (fault w _); [split; reflexivity |].
  destruct (lookup name (sdk w)) as [[| |] |]; split; reflexivity.
Qed.

Lemma set_stdout_same (w : world) : set_stdout w (stdout w) = w.
Proof. destruct w; reflexivity. Qed.

Lemma final_bind {W A B} (h : handler W) (p : prog A) (f : A -> prog B) (w : W) :
  final (run h (bind p f) w)
  = final (run h (f (answer (run h p w))) (final (run h p w))).
Proof.
  rewrite run_bind. destruct (run h p w) as [[a w1] t1]. cbn [answer final fst snd].
  destruct (run h (f a) w1) as [[b w2] t2]. reflexivity.
Qed.

(** One line of [list] on the in-memory file system. *)
Lemma list_line_mem rc (l : local) (v : string) (w : world) :
  final (run mem_handler (list_line rc l v SdkDir) w)
  = set_stdout w (stdout w ++ [mem_line rc l w v]).
Proof.
  unfold list_line, printf. rewrite final_bind, run_annotation. unfold mem_line.
  destruct (String.eqb v (main l)); [reflexivity |].
  destruct (negb (contains l v)); [reflexivity |].
  destruct (mem_Stat_probe ("go" ++ v ++ "/.unpacked-success") w) as [Sw Sp].
  cbn [answer final fst snd]. rewrite Sw, Sp.
  destruct (fault w _); [reflexivity |].
  destruct (lookup _ (sdk w)); reflexivity.
Qed.

(** The loop of [list] on the in-memory file system: it appends the line
    of every version that has the prefix to what has been printed, and
    changes nothing else. *)
Lemma list_loop_mem rc (l : local) (versions : list string) (only : string) :
  forall w : world,
    final (run mem_handler (list_loop rc l versions only SdkDir) w)
    = set_stdout w (stdout w ++ map (mem_line rc l w)
                                    (filter (fun v => HasPrefix v only) versions)).
Proof.
  induction versions as [| v vs IH]; intros w.
  - cbn. now rewrite app_nil_r, set_stdout_same.
  - cbn [list_loop filter]. rewrite final_bind, IH.
    destruct (HasPrefix v only); cbn [negb].
    + rewrite list_line_mem. cbn [set_stdout stdout map].
      rewrite <- app_assoc. reflexivity.
    + reflexivity.
Qed.

(** X24.  Without [-all], [list] prints, after what was printed before,
    one line for each version of the snapshot that has the prefix, in
    the ascending order of the snapshot: a star for the current version
    and a blank for the others, the version padded to ten columns, and
    the annotation.  It succeeds and leaves both directories as they
    were. *)
Theorem list_local_output less rc (only : string) (w : world) (l : local)
        (w1 : world) (t1 : list op) :
  run mem_handler (localVersions less GoBin) w = (Ok l, w1, t1) ->
  answer (run mem_handler (list_local less rc only GoBin SdkDir) w) = Ok tt /\
  stdout (final (run mem_handler (list_local less rc only GoBin SdkDir) w))
    = stdout w ++ map (mem_line rc l w) (filter (fun v => HasPrefix v only) (list_ l)) /\
  bin (final (run mem_handler (list_local less rc only GoBin SdkDir) w)) = bin w /\
  sdk (final (run mem_handler (list_local less rc only GoBin SdkDir) w)) = sdk w.
Proof.
  intros H.
  pose proof (proj1 (localVersions_mem less GoBin w l w1 t1) H) as (_ & W1 & _).
  unfold list_local. rewrite run_try, H, run_bind.
  pose proof (list_loop_mem rc l (list_ l) only w1) as L.
  destruct (run mem_handler (list_loop rc l (list_ l) only SdkDir) w1) as [[u w2] t2].
  cbn [run answer final fst snd] in *. subst w2 w1.
  split; [reflexivity |]. repeat split.
Qed.

Lemma list_local_output_witness :
  stdout (final (run mem_handler (list_local versionLess String.length "" GoBin SdkDir)
                   switched))
  = [("* 1.20      " ++ LF)%string; ("  1.21       (main)" ++ LF)%string].
Proof.
  destruct (list_local_output versionLess String.length "" switched
              {| main := "1.21"; current := "1.20"; list_ := ["1.20"; "1.21"] |}
              (path_restored switched) _ eq_refl) as (_ & O & _).
  rewrite O. reflexivity.
Defined.

(** X25.  Without [-all], [list] makes no call that changes a file
    system or starts a process other than [go version], whatever the
    surroundings answer and whether it succeeds or not. *)
Theorem list_local_reads_only {W} (h : handler W) less rc (only : string)
        (gobin s : fsx) (w : W) :
  forallb (fun o => negb (mutates o))
          (trace (run h (list_local less rc only gobin s) w)) = true.
Proof.
  unfold list_local. rewrite run_try.
  pose proof (localVersions_reads_only h less gobin w) as T.
  destruct (run h (localVersions less gobin) w) as [[[l | e] w1] t1];
    cbn [trace snd] in T; [| exact T].
  rewrite run_bind.
  pose proof (proj1 (list_loop_calls rc h l (list_ l) only s w1)) as L.
  destruct (run h (list_loop rc l (list_ l) only s) w1) as [[u w2] t2].
  cbn [run trace snd] in *. now rewrite app_nil_r, forallb_app, T, L.
Qed.
